(** * Scrolling-text video backend: the rendering pipeline of [main.py]

    A shallow embedding of [hex_to_rgb], [wrap_text],
    [generate_scrolling_text_frames], [render_text_video] and
    [generate_video], with the properties the specification states about
    them.

    Conventions.
    - A Python [str] is a list of Unicode code points ([list N]); string
      literals of the source are written [lit "..."].
    - A Python [int] is a [Z]; a Python [float] is a primitive binary64
      float, so float arithmetic is the interpreter's, bit for bit.
    - A function that can raise returns a [result]; the exception is a
      value of [exn].
    - What lives outside [main.py] (the font measure of PIL, the import
      system, the video writer of imageio, the file system, the clock)
      is a field of the record [Env]. A call into PIL, numpy or imageio
      returns, unless a field of [Env] says that it raises, or the
      definition that stands for it does: [import] for a module whose own
      imports are missing, [Image.new] for a size it refuses. *)

From Stdlib Require Import ZArith NArith List Bool Lia String Ascii Floats.
From stdpp Require Import base list gmap sets strings.

#[local] Set Warnings "-inexact-float".
#[local] Set Warnings "-clear-no-such-hyp".

Local Open Scope Z_scope.

(** ** Python strings *)

Module Py.

Abbreviation str := (list N).

(** A literal of the source, as code points. *)
Definition lit (s : string) : str :=
  map N_of_ascii (list_ascii_of_string s).

Definition space : N := 32%N.

(** [str.isspace] on one code point: CPython's [_PyUnicode_IsWhitespace]. *)
Definition isspace (c : N) : bool :=
  ((0x09 <=? c) && (c <=? 0x0D) || (0x1C <=? c) && (c <=? 0x1F)
   || (c =? 0x20) || (c =? 0x85) || (c =? 0xA0) || (c =? 0x1680)
   || (0x2000 <=? c) && (c <=? 0x200A) || (c =? 0x2028) || (c =? 0x2029)
   || (c =? 0x202F) || (c =? 0x205F) || (c =? 0x3000))%N.

(** [s.lstrip(...)] and [s.rstrip(...)], for the set of characters [p]. *)
Fixpoint lstrip_by (p : N -> bool) (s : str) : str :=
  match s with
  | [] => []
  | c :: s' => if p c then lstrip_by p s' else s
  end.

Definition rstrip_by (p : N -> bool) (s : str) : str :=
  rev (lstrip_by p (rev s)).

(** [s.strip()] *)
Definition strip (s : str) : str := rstrip_by isspace (lstrip_by isspace s).

(** [s.lstrip(chars)] *)
Definition lstrip (chars : str) (s : str) : str :=
  lstrip_by (fun c => existsb (N.eqb c) chars) s.

(** [s.split()]: the maximal runs of characters that are not whitespace.
    [cur] is the run being read. *)
Fixpoint split_from (cur : str) (s : str) : list str :=
  match s with
  | [] => match cur with [] => [] | _ => [cur] end
  | c :: s' =>
      if isspace c
      then match cur with
           | [] => split_from [] s'
           | _ => cur :: split_from [] s'
           end
      else split_from (cur ++ [c]) s'
  end.

Definition split (s : str) : list str := split_from [] s.

(** [s.split(sep)] for a separator of one character: every occurrence
    cuts, so the result is never empty. *)
Fixpoint split_on_from (sep : N) (cur : str) (s : str) : list str :=
  match s with
  | [] => [cur]
  | c :: s' =>
      if N.eqb c sep
      then cur :: split_on_from sep [] s'
      else split_on_from sep (cur ++ [c]) s'
  end.

Definition split_on (sep : N) (s : str) : list str := split_on_from sep [] s.

(** [' '.join(ws)] *)
Fixpoint join_space (ws : list str) : str :=
  match ws with
  | [] => []
  | [w] => w
  | w :: ws' => w ++ space :: join_space ws'
  end.

(** Truth value of a string: [if line], [not line]. *)
Definition truthy (s : str) : bool :=
  match s with [] => false | _ => true end.

End Py.

Import Py.

(** ** Word wrap *)

Section WrapText.

(** [draw.textbbox((0, 0), s, font=font)] for the [draw] and [font] the
    function is given: (left, top, right, bottom), in whole pixels. *)
Variable textbbox : str -> Z * Z * Z * Z.

Definition bbox_width (s : str) : Z :=
  let '(x0, _, x1, _) := textbbox s in x1 - x0.

(** The body of [for w in words], on the pair [(lines, line)]. *)
Definition wrap_step (max_width : Z) (st : list str * str) (w : str)
  : list str * str :=
  let '(lines, line) := st in
  let test := strip (line ++ lit " " ++ w) in
  let width := bbox_width test in
  if (width <=? max_width) || negb (truthy line)
  then (lines, test)
  else (lines ++ [line], w).

Definition wrap_text (text : str) (max_width : Z) : list str :=
  let words := split text in
  let '(lines, line) := fold_left (wrap_step max_width) words ([], []) in
  if truthy line then lines ++ [line] else lines.

End WrapText.

(** ** Exceptions and results *)

Inductive exn : Type :=
| HTTPException (status_code : Z) (detail : str)
| ModuleNotFoundError (name : str)
  (** [ValueError: invalid literal for int() with base b: <repr of s>] *)
| InvalidLiteral (base : Z) (literal : str)
  (** any other exception: its type and its [str()] *)
| OtherError (type_name : str) (message : str).

Inductive result (A : Type) : Type :=
| Ok (a : A)
| Raise (e : exn).

Arguments Ok {A} a.
Arguments Raise {A} e.

Definition bind {A B : Type} (r : result A) (k : A -> result B) : result B :=
  match r with
  | Ok a => k a
  | Raise e => Raise e
  end.

Declare Scope py_scope.
Delimit Scope py_scope with py.
Notation "x <- r ;; k" := (bind r (fun x => k))
  (at level 100, r at next level, right associativity) : py_scope.
Local Open Scope py_scope.

Definition overflow_error (message : string) : exn :=
  OtherError (lit "OverflowError") (lit message).

Definition value_error (message : string) : exn :=
  OtherError (lit "ValueError") (lit message).

(** ** [int(s, 16)] *)

Module PyInt.

(** [Py_ISSPACE]: the whitespace of the C locale. *)
Definition c_isspace (c : N) : bool :=
  ((0x09 <=? c) && (c <=? 0x0D) || (c =? 0x20))%N.

(** [_PyLong_DigitValue]: the value of a digit in bases up to 36. *)
Definition digit_value (c : N) : option Z :=
  if ((0x30 <=? c) && (c <=? 0x39))%N then Some (Z.of_N c - 0x30)
  else if ((0x61 <=? c) && (c <=? 0x7A))%N then Some (Z.of_N c - 0x61 + 10)
  else if ((0x41 <=? c) && (c <=? 0x5A))%N then Some (Z.of_N c - 0x41 + 10)
  else None.

Definition underscore : N := 0x5F%N.

Section Parse.

(** [Py_UNICODE_TODECIMAL] of the interpreter's Unicode database: the
    value of a decimal digit of any script. It is consulted for code
    points from 127 on only. *)
Variable todecimal : N -> option N.

(** [_PyUnicode_TransformDecimalAndSpaceToASCII], one character. *)
Definition to_ascii (c : N) : N :=
  if (c <? 127)%N then c
  else if isspace c then 0x20%N
  else match todecimal c with
       | Some d => (0x30 + d)%N
       | None => 0x3F%N
       end.

(** The digit loop of [long_from_binary_base]: digits below [base] and
    single underscores between them. [prev] is the character before.
    Returns the value, the number of digits and the rest; [None] is a
    syntax error (two underscores in a row, or one at the end). *)
Fixpoint scan_digits (base : Z) (prev : N) (acc : Z) (n : nat) (s : str)
  : option (Z * nat * str) :=
  let stop := if (prev =? underscore)%N then None else Some (acc, n, s) in
  match s with
  | [] => stop
  | c :: s' =>
      if (c =? underscore)%N
      then if (prev =? underscore)%N then None
           else scan_digits base c acc n s'
      else match digit_value c with
           | Some d =>
               if d <? base
               then scan_digits base c (acc * base + d) (S n) s'
               else stop
           | None => stop
           end
  end.

(** The sign, when there is one. *)
Definition take_sign (s : str) : bool * str :=
  match s with
  | 0x2B%N :: r => (false, r)
  | 0x2D%N :: r => (true, r)
  | _ => (false, s)
  end.

(** The prefix [0x] or [0X] of base 16, and one underscore after it. *)
Definition take_prefix16 (s : str) : str :=
  match s with
  | 0x30%N :: x :: r =>
      if ((x =? 0x78) || (x =? 0x58))%N
      then match r with
           | c :: r' => if (c =? underscore)%N then r' else r
           | [] => r
           end
      else s
  | _ => s
  end.

(** [int(s, 16)]: [PyLong_FromUnicodeObject] and [PyLong_FromString]. *)
Definition int16 (s : str) : result Z :=
  let bad := Raise (InvalidLiteral 16 s) in
  let a := lstrip_by c_isspace (map to_ascii s) in
  let '(neg, a) := take_sign a in
  let a := take_prefix16 a in
  match a with
  | c :: _ =>
      if (c =? underscore)%N then bad
      else match scan_digits 16 0%N 0 0%nat a with
           | None => bad
           | Some (_, O, _) => bad
           | Some (v, S _, rest) =>
               match lstrip_by c_isspace rest with
               | [] => Ok (if neg then - v else v)
               | _ => bad
               end
           end
  | [] => bad
  end.

End Parse.

End PyInt.

(** ** Colours *)

Section HexToRgb.

Variable todecimal : N -> option N.

(** [s[i:j]] for [0 <= i <= j]. *)
Definition slice (s : str) (i j : nat) : str := take (j - i) (drop i s).

Definition hex_to_rgb (hex_color : str) : result (Z * Z * Z) :=
  let hex_color := lstrip (lit "#") hex_color in
  let lv := length hex_color in
  if negb ((lv =? 3)%nat || (lv =? 6)%nat) then Ok (15, 23, 42)
  else
    let hex_color :=
      if (lv =? 3)%nat then concat (map (fun c => [c; c]) hex_color)
      else hex_color in
    r <- PyInt.int16 todecimal (slice hex_color 0 2);;
    g <- PyInt.int16 todecimal (slice hex_color 2 4);;
    b <- PyInt.int16 todecimal (slice hex_color 4 6);;
    Ok (r, g, b).

End HexToRgb.

(** ** Python numbers: [int] and [float] together *)

Module PyNum.

Local Open Scope float_scope.

(** [float(n)] for an [int] [n], as in [n * 0.08] or [n + x]: the nearest
    float, ties to even ([PyLong_AsDouble]); [OverflowError] beyond the
    largest float. *)
Definition float_of_int (n : Z) : result float :=
  let f := SF2Prim (binary_normalize prec emax n 0 false) in
  if is_infinity f
  then Raise (overflow_error "int too large to convert to float")
  else Ok f.

(** [int(x)] for a [float] [x]: truncation toward zero. *)
Definition int_of_float (x : float) : result Z :=
  match Prim2SF x with
  | S754_zero _ => Ok 0%Z
  | S754_finite s m e =>
      let v := Z.shiftl (Z.pos m) e in
      Ok (if s then (- v)%Z else v)
  | S754_infinity _ =>
      Raise (overflow_error "cannot convert float infinity to integer")
  | S754_nan => Raise (value_error "cannot convert float NaN to integer")
  end.

(** The quotient of two positive integers rounded to the nearest float,
    ties to even: the quotient is computed to 55 bits or more, and one
    more bit records whether the division left a remainder. *)
Definition round_quotient (neg : bool) (a b : positive) : spec_float :=
  let k := Z.max 0 (55 - Z.log2 (Z.pos a) + Z.log2 (Z.pos b)) in
  let n := (Z.pos a * 2 ^ k)%Z in
  let sticky := if (n mod Z.pos b =? 0)%Z then 0%Z else 1%Z in
  match (2 * (n / Z.pos b) + sticky)%Z with
  | Z.pos m => binary_round prec emax neg m (- (k + 1))
  | _ => S754_zero neg
  end.

(** [a / b] for two [int]s ([long_true_divide]): the correctly rounded
    quotient. *)
Definition truediv (a b : Z) : result float :=
  let negate := xorb (a <? 0)%Z (b <? 0)%Z in
  match b, a with
  | Z0, _ => Raise (OtherError (lit "ZeroDivisionError") (lit "division by zero"))
  | _, Z0 => Ok (if negate then neg_zero else zero)
  | _, _ =>
      let f := SF2Prim (round_quotient negate (Z.to_pos (Z.abs a))
                          (Z.to_pos (Z.abs b))) in
      if is_infinity f
      then Raise (overflow_error "integer division result too large for a float")
      else Ok f
  end.

(** [n * x], [n + x] with [n] an [int] and [x] a [float]. *)
Definition int_mul_float (n : Z) (x : float) : result float :=
  f <- float_of_int n;; Ok (f * x).

Definition int_add_float (n : Z) (x : float) : result float :=
  f <- float_of_int n;; Ok (f + x).

End PyNum.

(** ** What the pipeline sees of the outside world *)

(** [ImageFont.truetype(file, size)] or [ImageFont.load_default()]. *)
Inductive font : Type :=
| TrueType (file : str) (size : Z)
| DefaultFont.

Definition rgb : Type := Z * Z * Z.

(** One [draw.text((x, y), line, font=font, fill=fill)]. *)
Record text_call : Type := {
  text_x : Z;
  text_y : Z;
  text_line : str;
  text_font : font;
  text_fill : rgb
}.

(** [Image.new("RGB", size, color)] and the texts drawn on it, in order:
    what [np.array(frame)] is the raster of. *)
Record image : Type := {
  img_size : Z * Z;
  img_color : rgb;
  img_texts : list text_call
}.

Record Env : Type := {
  (** [import m] finds the module [m] *)
  installed : str -> bool;
  (** [ImageFont.truetype(file, size)] returns, and does not raise *)
  truetype_loads : str -> Z -> bool;
  (** [draw.textbbox((0, 0), s, font=font)] *)
  textbbox : font -> str -> Z * Z * Z * Z;
  (** [Image.new] cannot allocate an image of this size: the type of the
      exception it raises ([MemoryError], say) and its message *)
  image_new_error : Z * Z -> option (str * str);
  (** [Py_UNICODE_TODECIMAL] *)
  todecimal : N -> option N;
  (** [repr(s)] for a string *)
  repr : str -> str;
  (** [imageio.get_writer(path, ...)] raises *)
  get_writer_error : str -> option exn;
  (** [imageio.get_writer] creates the file at once, before any frame *)
  writer_creates_on_open : bool;
  (** [writer.append_data] raises on the frame of this index *)
  append_data_error : nat -> option exn;
  (** [writer.close()] raises *)
  close_error : option exn;
  (** [os.remove(path)] raises *)
  remove_error : str -> option exn;
  (** [datetime.utcnow().strftime('%Y%m%d_%H%M%S_%f')] *)
  utcnow : str;
  (** [os.path.abspath("videos")] *)
  VIDEOS_DIR : str
}.

(** The file system: the paths that exist. *)
Abbreviation files := (gset (list N)).

(** What a module imports when it is loaded, among the libraries of the
    render: imageio imports numpy. *)
Definition module_imports (m : str) : list str :=
  if decide (m = lit "imageio") then [lit "numpy"] else [].

(** [import m]: the module is found and loaded. When a module it imports
    is missing, the exception names that one. *)
Definition import (env : Env) (m : string) : result unit :=
  if installed env (lit m)
  then match find (fun d => negb (installed env d)) (module_imports (lit m)) with
       | Some d => Raise (ModuleNotFoundError d)
       | None => Ok tt
       end
  else Raise (ModuleNotFoundError (lit m)).

(** [except ModuleNotFoundError as e: raise HTTPException(status_code=500,
    detail=f"Dependency missing: {e.name}. Please try again in a moment.")] *)
Definition dependency_missing (name : str) : exn :=
  HTTPException 500
    (lit "Dependency missing: " ++ name ++ lit ". Please try again in a moment.").

Definition except_ModuleNotFoundError {A : Type} (r : result A) : result A :=
  match r with
  | Raise (ModuleNotFoundError name) => Raise (dependency_missing name)
  | _ => r
  end.

(** ** Images *)

(** The largest C [int], and the largest C [long] where it has 64 bits. *)
Definition INT_MAX : Z := 2 ^ 31 - 1.

Definition LONG_MAX : Z := 2 ^ 63 - 1.

(** An [int] that is not negative, handed to the C core of PIL as a C
    [int] ([PyArg_ParseTuple], format [i]). *)
Definition as_c_int (n : Z) : result Z :=
  if LONG_MAX <? n
  then Raise (overflow_error "Python int too large to convert to C long")
  else if INT_MAX <? n
  then Raise (overflow_error "signed integer is greater than maximum")
  else Ok n.

(** [Image.new("RGB", size, color)] as far as it raises: [_check_size]
    refuses a negative width or height, the size goes to C as two [int]s,
    and the image is allocated. *)
Definition image_new_check (env : Env) (size : Z * Z) : result unit :=
  let '(width, height) := size in
  if (width <? 0) || (height <? 0)
  then Raise (value_error "Width and height must be >= 0")
  else
    _ <- as_c_int width;;
    _ <- as_c_int height;;
    match image_new_error env size with
    | Some (type_name, message) => Raise (OtherError type_name message)
    | None => Ok tt
    end.

(** [Image.new("RGB", size, color)] *)
Definition Image_new (env : Env) (size : Z * Z) (color : rgb) : result image :=
  _ <- image_new_check env size;;
  Ok {| img_size := size; img_color := color; img_texts := [] |}.

(** ** Frames *)

(** The local variables of [generate_scrolling_text_frames] that are fixed
    before its loop. *)
Record layout : Type := {
  lay_font : font;
  margin_x : Z;
  max_text_width : Z;
  lines : list str;
  line_spacing : Z;
  total_text_height : Z;
  total_frames : Z;
  start_y : Z;
  end_y : Z
}.

(** One turn of the loop: its local variables at [yield]. *)
Record step : Type := {
  frame_idx : Z;
  t : float;
  current_offset : Z;
  frame : image
}.

Section Frames.

Variable env : Env.
Variables (text : str) (width height fps duration : Z) (bg_color text_color : rgb).

(** [try: font = ImageFont.truetype("DejaVuSans.ttf", size=int(height * 0.05))
    except Exception: font = ImageFont.load_default()] *)
Definition load_font : font :=
  match (x <- PyNum.int_mul_float height 0.05;; PyNum.int_of_float x) with
  | Ok size =>
      if truetype_loads env (lit "DejaVuSans.ttf") size
      then TrueType (lit "DejaVuSans.ttf") size
      else DefaultFont
  | Raise _ => DefaultFont
  end.

(** From [img = Image.new(...)] to [end_y = -total_text_height]. The
    image [img] is the canvas of [draw], whose measures are [textbbox env];
    it takes part in the layout by the exception it can raise only. *)
Definition prepare : result layout :=
  let font := load_font in
  _ <- image_new_check env (width, height);;
  margin_x <- (x <- PyNum.int_mul_float width 0.08;; PyNum.int_of_float x);;
  let max_text_width := width - 2 * margin_x in
  let lines := wrap_text (textbbox env font) text max_text_width in
  line_spacing <-
    (let '(_, _, _, bottom) := textbbox env font (lit "Ay") in
     x <- PyNum.int_mul_float bottom 1.4;; PyNum.int_of_float x);;
  let total_text_height :=
    Z.max (Z.of_nat (length lines) * line_spacing) height + height in
  let total_frames := duration * fps in
  let start_y := height in
  let end_y := - total_text_height in
  Ok {| lay_font := font; margin_x := margin_x;
        max_text_width := max_text_width; lines := lines;
        line_spacing := line_spacing;
        total_text_height := total_text_height;
        total_frames := total_frames; start_y := start_y; end_y := end_y |}.

(** [for line in lines: draw_f.text((margin_x, y), line, ...); y += line_spacing] *)
Fixpoint draw_lines (L : layout) (y : Z) (ls : list str) : list text_call :=
  match ls with
  | [] => []
  | line :: ls' =>
      {| text_x := margin_x L; text_y := y; text_line := line;
         text_font := lay_font L; text_fill := text_color |}
      :: draw_lines L (y + line_spacing L) ls'
  end.

(** [start_y + (end_y - start_y) * t] *)
Definition scroll_position (L : layout) (t : float) : result float :=
  x <- PyNum.int_mul_float (end_y L - start_y L) t;;
  PyNum.int_add_float (start_y L) x.

(** The body of [for frame_idx in range(total_frames)]. *)
Definition frame_at (L : layout) (frame_idx : Z) : result step :=
  t <- PyNum.truediv frame_idx
         (if total_frames L >? 1 then total_frames L - 1 else 1);;
  y <- scroll_position L t;;
  current_offset <- PyNum.int_of_float y;;
  img <- Image_new env (width, height) bg_color;;
  Ok {| frame_idx := frame_idx; t := t; current_offset := current_offset;
        frame := {| img_size := img_size img; img_color := img_color img;
                    img_texts := img_texts img
                                 ++ draw_lines L current_offset (lines L) |} |}.

(** The loop, as the frames it yields and the exception that ends it
    early, if one does. *)
Fixpoint frames_loop (L : layout) (idxs : list Z) : list step * option exn :=
  match idxs with
  | [] => ([], None)
  | i :: rest =>
      match frame_at L i with
      | Ok s => let '(ss, stop) := frames_loop L rest in (s :: ss, stop)
      | Raise e => ([], Some e)
      end
  end.

(** [range(n)] *)
Definition range (n : Z) : list Z := seqZ 0 n.

(** The generator, run to its end: its body starts at the first [next],
    so an exception of the imports or of the layout comes with no frame. *)
Definition generate_scrolling_text_frames : list step * option exn :=
  match except_ModuleNotFoundError
          (_ <- import env "numpy";; import env "PIL") with
  | Raise e => ([], Some e)
  | Ok _ =>
      match prepare with
      | Raise e => ([], Some e)
      | Ok L => frames_loop L (range (total_frames L))
      end
  end.

End Frames.

(** ** Rendering to a file *)

Section Render.

Variable env : Env.

(** [for frame in ...: writer.append_data(frame)] over the frames the
    generator yields and the exception [stop] that ends it. [k] is the
    index of the next frame. The encoder writes [out_path] from the first
    frame it is given. *)
Fixpoint append_frames (out_path : str) (k : nat) (frames : list step)
  (stop : option exn) (fs : files) : result unit * files :=
  match frames with
  | [] => (match stop with Some e => Raise e | None => Ok tt end, fs)
  | _ :: frames' =>
      match append_data_error env k with
      | Some e => (Raise e, fs)
      | None => append_frames out_path (S k) frames' stop ({[out_path]} ∪ fs)
      end
  end.

Definition render_text_video (text : str) (width height fps duration : Z)
  (background text_color : str) (out_path : str) (fs : files)
  : result unit * files :=
  match except_ModuleNotFoundError (import env "imageio") with
  | Raise e => (Raise e, fs)
  | Ok _ =>
  match hex_to_rgb (todecimal env) background with
  | Raise e => (Raise e, fs)
  | Ok bg_rgb =>
  match hex_to_rgb (todecimal env) text_color with
  | Raise e => (Raise e, fs)
  | Ok text_rgb =>
  match get_writer_error env out_path with
  | Some e => (Raise e, fs)
  | None =>
      let fs := if writer_creates_on_open env then {[out_path]} ∪ fs else fs in
      let '(frames, stop) :=
        generate_scrolling_text_frames env text width height fps duration
          bg_rgb text_rgb in
      let '(r, fs) := append_frames out_path 0 frames stop fs in
      (* finally: writer.close() *)
      match close_error env with
      | Some e => (Raise e, fs)
      | None => (r, fs)
      end
  end end end end.

(** ** The request *)

(** The fields of [GenerateRequest]. Their constraints (a text of one
    character at least, 60 to 600 seconds, 320 to 1920 by 240 to 1080
    pixels, 10 to 60 frames a second) are checked before [generate_video]
    is called; [generate_video] itself takes any values. *)
Record GenerateRequest : Type := {
  req_text : str;
  req_duration : Z;
  req_width : Z;
  req_height : Z;
  req_fps : Z;
  req_background : str;
  req_text_color : str
}.

Record response : Type := {
  res_status : str;
  res_filename : str;
  res_url : str;
  res_duration : Z
}.

(** [str(e)] *)
Definition str_of_exn (e : exn) : str :=
  match e with
  | HTTPException status_code detail => detail (* re-raised, never printed *)
  | ModuleNotFoundError name => lit "No module named " ++ repr env name
  | InvalidLiteral base literal =>
      lit "invalid literal for int() with base 16: " ++ repr env literal
  | OtherError _ message => message
  end.

(** [os.path.join(dir, name)] for a [name] that is not absolute. *)
Definition path_join (dir name : str) : str :=
  match last dir with
  | None => name
  | Some c => if (c =? 0x2F)%N then dir ++ name else dir ++ lit "/" ++ name
  end.

(** The clean-up of the handler [except Exception as e]. *)
Definition remove_partial (out_path : str) (fs : files) : files :=
  if decide (out_path ∈ fs)
  then match remove_error env out_path with
       | Some _ => fs
       | None => fs ∖ {[out_path]}
       end
  else fs.

Definition generate_video (req : GenerateRequest) (fs : files)
  : result response * files :=
  let text := strip (req_text req) in
  if negb (truthy text)
  then (Raise (HTTPException 400 (lit "Teks tidak boleh kosong")), fs)
  else
    let duration := Z.max 60 (req_duration req) in
    let filename := lit "video_" ++ utcnow env ++ lit ".mp4" in
    let out_path := path_join (VIDEOS_DIR env) filename in
    match render_text_video text (req_width req) (req_height req)
            (req_fps req) duration (req_background req)
            (req_text_color req) out_path fs with
    | (Raise (HTTPException status_code detail), fs) =>
        (Raise (HTTPException status_code detail), fs)
    | (Raise e, fs) =>
        (Raise (HTTPException 500
                  (lit "Gagal membuat video: " ++ take 200 (str_of_exn e))),
         remove_partial out_path fs)
    | (Ok _, fs) =>
        (* the metadata of the video goes to [create_document], whose
           exceptions are passed over: nothing of it reaches the result *)
        (Ok {| res_status := lit "ok"; res_filename := filename;
               res_url := lit "/videos/" ++ filename;
               res_duration := duration |}, fs)
    end.

End Render.

(** ** The route

    [generate_video] is the handler of [POST /api/generate]: FastAPI makes
    the [GenerateRequest] from the body of the request, and answers 422
    itself, without calling the handler, when a field fails its
    constraint. *)

(** The fields of a request that fail the constraints of lines 36 to 40,
    in the order of the class. *)
Definition invalid_fields (req : GenerateRequest) : list str :=
  (if (1 <=? length (req_text req))%nat then [] else [lit "text"])
  ++ (if (60 <=? req_duration req) && (req_duration req <=? 600)
      then [] else [lit "duration"])
  ++ (if (320 <=? req_width req) && (req_width req <=? 1920)
      then [] else [lit "width"])
  ++ (if (240 <=? req_height req) && (req_height req <=? 1080)
      then [] else [lit "height"])
  ++ (if (10 <=? req_fps req) && (req_fps req <=? 60)
      then [] else [lit "fps"]).

(** What the route answers: 422 with the fields that failed, or what the
    handler returns or raises. *)
Inductive answer : Type :=
| Unprocessable (fields : list str)
| Handled (r : result response).

Definition post_api_generate (env : Env) (req : GenerateRequest) (fs : files)
  : answer * files :=
  match invalid_fields req with
  | [] => let '(r, fs') := generate_video env req fs in (Handled r, fs')
  | fields => (Unprocessable fields, fs)
  end.

(** ** The metadata of a video

    After the render, [generate_video] hands the metadata of the video to
    [create_document] and passes over any exception of it. *)

(** The metadata of a video, as [generate_video] hands them to
    [create_document]. *)
Record video_meta : Type := {
  meta_filename : str;
  meta_path : str;
  meta_duration : Z;
  meta_width : Z;
  meta_height : Z;
  meta_fps : Z;
  meta_created_at : str;
  meta_text_length : nat
}.

(** The documents of the database, each with its collection. *)
Definition documents : Type := list (str * video_meta).

(** The module [database], when it can be imported: [create_document]
    returns or raises, and leaves the documents as it will. *)
Record Database : Type := {
  db_create_document : str -> video_meta -> documents -> result unit * documents
}.

(** [create_document] as [main.py] binds it: the function of the module
    [database], or the stub that returns [None] when the import fails. *)
Definition create_document (db : option Database) (collection : str)
  (data : video_meta) (docs : documents) : result unit * documents :=
  match db with
  | Some d => db_create_document d collection data docs
  | None => (Ok tt, docs)
  end.

Section Metadata.

Variable env : Env.
Variable db : option Database.
(** [datetime.utcnow().isoformat()] at the time the metadata are made. *)
Variable created_at : str.

(** [generate_video] with its metadata block: the documents are part of
    the state. *)
Definition generate_video_db (req : GenerateRequest) (fs : files)
  (docs : documents) : result response * files * documents :=
  let text := strip (req_text req) in
  if negb (truthy text)
  then (Raise (HTTPException 400 (lit "Teks tidak boleh kosong")), fs, docs)
  else
    let duration := Z.max 60 (req_duration req) in
    let filename := lit "video_" ++ utcnow env ++ lit ".mp4" in
    let out_path := path_join (VIDEOS_DIR env) filename in
    match render_text_video env text (req_width req) (req_height req)
            (req_fps req) duration (req_background req)
            (req_text_color req) out_path fs with
    | (Raise (HTTPException status_code detail), fs) =>
        (Raise (HTTPException status_code detail), fs, docs)
    | (Raise e, fs) =>
        (Raise (HTTPException 500
                  (lit "Gagal membuat video: " ++ take 200 (str_of_exn env e))),
         remove_partial env out_path fs, docs)
    | (Ok _, fs) =>
        let meta :=
          {| meta_filename := filename; meta_path := out_path;
             meta_duration := duration; meta_width := req_width req;
             meta_height := req_height req; meta_fps := req_fps req;
             meta_created_at := created_at;
             meta_text_length := length text |} in
        (* try: create_document("video", meta)  except Exception: pass *)
        let docs := snd (create_document db (lit "video") meta docs) in
        (Ok {| res_status := lit "ok"; res_filename := filename;
               res_url := lit "/videos/" ++ filename;
               res_duration := duration |}, fs, docs)
    end.

End Metadata.

(** ** Vocabulary of the properties *)

(** A word: not empty, and no whitespace in it. *)
Definition word (w : str) : Prop :=
  w <> [] /\ Forall (fun c => isspace c = false) w.

Section WrapVocabulary.

Variable textbbox : str -> Z * Z * Z * Z.
Variable max_width : Z.

Definition fits (l : str) : Prop := bbox_width textbbox l <= max_width.

(** The line [l] is the words [g] joined by single spaces; it fits, or
    it is one word. *)
Definition line_of (g : list str) (l : str) : Prop :=
  g <> [] /\ Forall word g /\ l = join_space g /\ (fits l \/ exists w, g = [w]).

(** The invariant of the loop of [wrap_text], once the words [done] are
    placed: the lines and the current line hold them, in order. *)
Definition wrap_inv (done : list str) (st : list str * str) : Prop :=
  exists gs cur,
    Forall2 line_of gs (fst st)
    /\ match cur with [] => snd st = [] | _ => line_of cur (snd st) end
    /\ concat gs ++ cur = done.

End WrapVocabulary.

(** A hexadecimal digit, and its value. *)
Definition hex_digits : str := lit "0123456789abcdefABCDEF".

Definition is_hex (c : N) : bool := existsb (N.eqb c) hex_digits.

Definition hex_digit_value (c : N) : Z :=
  if ((0x30 <=? c) && (c <=? 0x39))%N then Z.of_N c - 0x30
  else if ((0x61 <=? c) && (c <=? 0x66))%N then Z.of_N c - 0x61 + 10
  else Z.of_N c - 0x41 + 10.

(** The number a string of hexadecimal digits writes. *)
Definition hex_value (s : str) : Z :=
  fold_left (fun acc c => 16 * acc + hex_digit_value c) s 0.

(** The shorthand of three digits, written out: each digit twice. *)
Definition expand3 (s : str) : str := concat (map (fun c => [c; c]) s).

(** In the words of the specification: the colour a string of three or
    six hexadecimal digits writes. Each pair of digits is a channel, a
    string of three digits standing for the six with each digit doubled. *)
Definition written_rgb (s : str) : rgb :=
  let s6 := if (length s =? 3)%nat then expand3 s else s in
  (hex_value (slice s6 0 2), hex_value (slice s6 2 4), hex_value (slice s6 4 6)).

(** [int16] gives the value the two hexadecimal digits [a], [b] write. *)
Definition pair_parsed (td : N -> option N) (a b : N) : bool :=
  match PyInt.int16 td [a; b] with
  | Ok v => (v =? 16 * hex_digit_value a + hex_digit_value b)
            && (0 <=? hex_digit_value a) && (hex_digit_value a <=? 15)
            && negb (a =? 0x23)%N
  | Raise _ => false
  end.

(** A float that is zero or finite. *)
Definition finite_sf (x : spec_float) : Prop :=
  match x with
  | S754_zero _ | S754_finite _ _ _ => True
  | _ => False
  end.

(** A float of magnitude below [2 ^ B], with a mantissa of 53 bits at
    most: zero, or finite with its bits ending below the bit [B]. *)
Definition small_sf (B : Z) (x : spec_float) : Prop :=
  match x with
  | S754_zero _ => True
  | S754_finite _ m e =>
      Z.pos (digits2_pos m) + e <= B /\ Z.pos (digits2_pos m) <= 53
  | _ => False
  end.

(** In the words of the specification the offset is [round(x)], where the
    source has [int(x)]. This is Python's [round] of a float, to compare
    the two: to the nearest integer, ties to the even one. *)
Definition round_half_even (x : float) : result Z :=
  match Prim2SF x with
  | S754_zero _ => Ok 0
  | S754_finite s m e =>
      let v :=
        if 0 <=? e then Z.pos m * 2 ^ e
        else
          let d := 2 ^ (- e) in
          let q := Z.pos m / d in
          let r := Z.pos m mod d in
          if 2 * r <? d then q
          else if d <? 2 * r then q + 1
          else if Z.even q then q else q + 1 in
      Ok (if s then - v else v)
  | S754_infinity _ =>
      Raise (overflow_error "cannot convert float infinity to integer")
  | S754_nan => Raise (value_error "cannot convert float NaN to integer")
  end.

(** The libraries the render imports, in the order it imports them. *)
Definition required_modules : list str :=
  [lit "imageio"; lit "numpy"; lit "PIL"].

Definition first_missing (env : Env) : option str :=
  find (fun m => negb (installed env m)) required_modules.

(** The path [generate_video] gives to the writer: [out_path]. *)
Definition out_path_of (env : Env) : str :=
  path_join (VIDEOS_DIR env) (lit "video_" ++ utcnow env ++ lit ".mp4").

(** The request [req] with another duration. *)
Definition with_duration (d : Z) (req : GenerateRequest) : GenerateRequest :=
  {| req_text := req_text req; req_duration := d;
     req_width := req_width req; req_height := req_height req;
     req_fps := req_fps req; req_background := req_background req;
     req_text_color := req_text_color req |}.

(** Every two neighbours of a list are related by [R]. *)
Inductive adjacent {A : Type} (R : A -> A -> Prop) : list A -> Prop :=
| adjacent_nil : adjacent R []
| adjacent_one a : adjacent R [a]
| adjacent_cons a b l : R a b -> adjacent R (b :: l) -> adjacent R (a :: b :: l).

Section GreedyVocabulary.

Variable textbbox : str -> Z * Z * Z * Z.
Variable max_width : Z.

(** Where the group [g'] starts a new line after the group [g]: the
    first word of [g'] did not fit at the end of [g]. *)
Definition break_needed (g g' : list str) : Prop :=
  match g' with
  | w :: _ => max_width < bbox_width textbbox (join_space (g ++ [w]))
  | [] => True
  end.

(** The invariant of the loop of [wrap_text] with the breaks: the groups
    placed, the current one last, are broken only where needed. *)
Definition greedy_inv (done : list str) (st : list str * str) : Prop :=
  exists gs cur,
    Forall2 (line_of textbbox max_width) gs (fst st)
    /\ match cur with
       | [] => snd st = [] /\ gs = []
       | _ => line_of textbbox max_width cur (snd st)
       end
    /\ concat gs ++ cur = done
    /\ adjacent break_needed (gs ++ [cur]).

End GreedyVocabulary.

(** The ASCII code points. *)
Definition ascii_points : list N := map N.of_nat (seq 0 127).

(** [int(c + c, 16)] returns exactly for a hexadecimal digit [c]. *)
Definition doubled_parsed (td : N -> option N) (c : N) : bool :=
  match PyInt.int16 td [c; c] with
  | Ok _ => is_hex c
  | Raise _ => negb (is_hex c)
  end.

(** The float of an integer: [float(n)] before the overflow check. *)
Definition int_sf (z : Z) : spec_float := binary_normalize prec emax z 0 false.

(** The exponent and the mantissa of the float of a positive integer
    below 2^53. *)
Definition int_exponent (q : positive) : Z := Z.pos (digits2_pos q) - 53.

Definition int_mantissa (q : positive) : positive :=
  Z.to_pos (Z.pos q * 2 ^ (- int_exponent q)).

(** [int(n * c)], compared with the exact [n * num / den] cut down. *)
Definition scaled_exactly (c : float) (num den : Z) (n : Z) : bool :=
  match (x <- PyNum.int_mul_float n c;; PyNum.int_of_float x) with
  | Ok z => z =? n * num / den
  | Raise _ => false
  end.

(** [int(n * 1.4)] is [7 * n / 5] cut down, or one less when [n] is a
    multiple of 5. *)
Definition spacing_checked (n : Z) : bool :=
  match (x <- PyNum.int_mul_float n 1.4;; PyNum.int_of_float x) with
  | Ok z => if n mod 5 =? 0 then (7 * n / 5 - 1 <=? z) && (z <=? 7 * n / 5)
            else z =? 7 * n / 5
  | Raise _ => false
  end.

(** The text call of the line [k] of a frame at the offset [y]. *)
Definition line_call (text_color : rgb) (L : layout) (y : Z) (k : nat)
  (line : str) : text_call :=
  {| text_x := margin_x L; text_y := y + Z.of_nat k * line_spacing L;
     text_line := line; text_font := lay_font L; text_fill := text_color |}.

(** The widths and the heights that [GenerateRequest] lets through. *)
Definition valid_widths : list Z := seqZ 320 1601.
Definition valid_heights : list Z := seqZ 240 841.

(** The glyph heights for which the line spacing is checked. *)
Definition glyph_heights : list Z := seqZ 0 1081.

(** An [HTTPException], which the handler of [generate_video] re-raises. *)
Definition is_http (e : exn) : bool :=
  match e with HTTPException _ _ => true | _ => false end.

(** The writer of imageio raises exceptions of its own, and none of
    FastAPI's. *)
Definition writer_plain (env : Env) : Prop :=
  (forall p e, get_writer_error env p = Some e -> is_http e = false)
  /\ (forall k e, append_data_error env k = Some e -> is_http e = false)
  /\ (forall e, close_error env = Some e -> is_http e = false).

(** The name [generate_video] gives to the file. *)
Definition filename_of (env : Env) : str :=
  lit "video_" ++ utcnow env ++ lit ".mp4".

(** ** A concrete world, to run the pipeline in *)

(** No decimal digit beyond ASCII. *)
Definition ascii_digits_only : N -> option N := fun _ => None.

(** All libraries present, a font whose glyphs are half as wide as they
    are high, a writer that never fails. *)
Definition plain_env : Env :=
  {| installed := fun _ => true;
     truetype_loads := fun _ _ => true;
     textbbox := fun f s =>
       let size := match f with TrueType _ size => size | DefaultFont => 10 end in
       (0, 0, size / 2 * Z.of_nat (length s), size);
     image_new_error := fun _ => None;
     todecimal := ascii_digits_only;
     repr := fun s => lit "'" ++ s ++ lit "'";
     get_writer_error := fun _ => None;
     writer_creates_on_open := false;
     append_data_error := fun _ => None;
     close_error := None;
     remove_error := fun _ => None;
     utcnow := lit "20240101_120000_000000";
     VIDEOS_DIR := lit "/app/videos" |}.

(** The same world without the module [m]. *)
Definition without (m : string) (env : Env) : Env :=
  {| installed := fun n => if decide (n = lit m) then false else installed env n;
     truetype_loads := truetype_loads env;
     textbbox := textbbox env;
     image_new_error := image_new_error env;
     todecimal := todecimal env;
     repr := repr env;
     get_writer_error := get_writer_error env;
     writer_creates_on_open := writer_creates_on_open env;
     append_data_error := append_data_error env;
     close_error := close_error env;
     remove_error := remove_error env;
     utcnow := utcnow env;
     VIDEOS_DIR := VIDEOS_DIR env |}.

(** The defaults of [GenerateRequest], for a text. *)
Definition request (text : string) : GenerateRequest :=
  {| req_text := lit text; req_duration := 60; req_width := 1280;
     req_height := 720; req_fps := 24; req_background := lit "#0f172a";
     req_text_color := lit "#e2e8f0" |}.

(** The layout of [Hello world] in a frame of 1280 by 720, for 60 seconds
    at 24 frames a second. *)
Definition hello_layout : layout :=
  {| lay_font := TrueType (lit "DejaVuSans.ttf") 36; margin_x := 102;
     max_text_width := 1076; lines := [lit "Hello world"];
     line_spacing := 50; total_text_height := 1440; total_frames := 1440;
     start_y := 720; end_y := -1440 |}.

(** A clip of six frames, 320 by 240: three seconds at two frames a
    second, and its layout. *)
Definition short_clip : list step * option exn :=
  generate_scrolling_text_frames plain_env (lit "Hello world") 320 240 2 3
    (15, 23, 42) (226, 232, 240).

Definition short_layout : layout :=
  {| lay_font := TrueType (lit "DejaVuSans.ttf") 12; margin_x := 25;
     max_text_width := 270; lines := [lit "Hello world"];
     line_spacing := 16; total_text_height := 480; total_frames := 6;
     start_y := 240; end_y := -480 |}.

(** A clip of 600 frames: 60 seconds at 10 frames a second. *)
Definition clip_layout : layout :=
  {| lay_font := TrueType (lit "DejaVuSans.ttf") 12; margin_x := 25;
     max_text_width := 270; lines := [lit "Hello world"];
     line_spacing := 16; total_text_height := 480; total_frames := 600;
     start_y := 240; end_y := -480 |}.

(** A clip of one frame: one second at one frame a second. *)
Definition still_layout : layout :=
  {| lay_font := TrueType (lit "DejaVuSans.ttf") 12; margin_x := 25;
     max_text_width := 270; lines := [lit "Hello world"];
     line_spacing := 16; total_text_height := 480; total_frames := 1;
     start_y := 240; end_y := -480 |}.

(** A clip of no frame: no second at all. *)
Definition empty_layout : layout :=
  {| lay_font := TrueType (lit "DejaVuSans.ttf") 12; margin_x := 25;
     max_text_width := 270; lines := [lit "Hello world"];
     line_spacing := 16; total_text_height := 480; total_frames := 0;
     start_y := 240; end_y := -480 |}.

(** A measure under which the line [a b] is narrower than its word [b]. *)
Definition odd_bbox (s : str) : Z * Z * Z * Z :=
  if decide (s = lit "b") then (0, 0, 100, 10) else (0, 0, 5, 10).

(** A database whose [create_document] always raises. *)
Definition failing_db : Database :=
  {| db_create_document := fun _ _ docs =>
       (Raise (OtherError (lit "ConnectionError") (lit "no database")), docs) |}.

(** The layout of [Hello world] in a frame of 1280 by 900: the font is 45
    high. *)
Definition tall_layout : layout :=
  {| lay_font := TrueType (lit "DejaVuSans.ttf") 45; margin_x := 102;
     max_text_width := 1076; lines := [lit "Hello world"];
     line_spacing := 62; total_text_height := 1800; total_frames := 1440;
     start_y := 900; end_y := -1800 |}.

(** ** Proof tactics *)

(** A list that starts with an element is not empty. *)
Ltac not_nil := simpl; let E := fresh in intros E; discriminate E.

(** The conjuncts of a [forallb] over an explicit list. *)
Ltac hex_facts H :=
  simpl in H; repeat (apply andb_true_iff in H as [? H]).

(** * Properties *)

(** ** Words and lines *)

Lemma split_from_words s : forall cur,
  Forall (fun c => isspace c = false) cur ->
  Forall word (split_from cur s).
Proof.
  induction s as [|c s IH]; intros cur Hcur; simpl.
  - destruct cur; constructor; [split; [discriminate | assumption] | constructor].
  - destruct (isspace c) eqn:Hc.
    + destruct cur as [|a cur'].
      * apply IH. constructor.
      * constructor; [split; [discriminate | assumption] |].
        apply IH. constructor.
    + apply IH. apply Forall_app. split; [assumption |].
      constructor; [assumption | constructor].
Qed.

Lemma split_words text : Forall word (split text).
Proof. apply split_from_words. constructor. Qed.

Lemma lstrip_by_head p c s : p c = false -> lstrip_by p (c :: s) = c :: s.
Proof. intros H. simpl. rewrite H. reflexivity. Qed.

Lemma rstrip_by_last p s c : p c = false -> rstrip_by p (s ++ [c]) = s ++ [c].
Proof.
  intros H. unfold rstrip_by. rewrite rev_app_distr. simpl.
  rewrite H. simpl. rewrite rev_involutive. reflexivity.
Qed.

Lemma word_last w : word w -> exists w' c, w = w' ++ [c] /\ isspace c = false.
Proof.
  intros [Hne Hall]. destruct (exists_last Hne) as (w' & c & ->).
  exists w', c. split; [reflexivity |].
  apply Forall_app in Hall as [_ Hc]. inversion Hc; assumption.
Qed.

Lemma word_head w : word w -> exists c w', w = c :: w' /\ isspace c = false.
Proof.
  intros [Hne Hall]. destruct w as [|c w']; [congruence |].
  exists c, w'. split; [reflexivity |]. inversion Hall; assumption.
Qed.

Lemma strip_word w : word w -> strip w = w.
Proof.
  intros Hw. unfold strip.
  destruct (word_head w Hw) as (c & w' & -> & Hc).
  rewrite lstrip_by_head by assumption.
  destruct (word_last _ Hw) as (w'' & c' & -> & Hc').
  apply rstrip_by_last; assumption.
Qed.

Lemma strip_ends c s c' :
  isspace c = false -> isspace c' = false ->
  strip ((c :: s) ++ [c']) = (c :: s) ++ [c'].
Proof.
  intros Hc Hc'. unfold strip. simpl app.
  rewrite lstrip_by_head by assumption.
  change (c :: s ++ [c']) with ((c :: s) ++ [c']).
  apply rstrip_by_last; assumption.
Qed.

(** The candidate line of [wrap_text]. *)
Lemma strip_candidate line w :
  word w -> (line = [] \/ exists c l, line = c :: l /\ isspace c = false) ->
  strip (line ++ lit " " ++ w) =
  match line with [] => w | _ => line ++ space :: w end.
Proof.
  intros Hw [-> | (c & l & -> & Hc)].
  - change ([] ++ lit " " ++ w) with (space :: w).
    unfold strip. simpl lstrip_by.
    fold (lstrip_by isspace w). fold (rstrip_by isspace (lstrip_by isspace w)).
    apply (strip_word w Hw).
  - destruct (word_last _ Hw) as (w' & c' & -> & Hc').
    assert (E : (c :: l) ++ lit " " ++ w' ++ [c']
                = (c :: l ++ space :: w') ++ [c'])
      by (simpl; rewrite <- app_assoc; reflexivity).
    change (strip ((c :: l) ++ lit " " ++ w' ++ [c'])
            = (c :: l) ++ lit " " ++ w' ++ [c']).
    rewrite E. apply strip_ends; assumption.
Qed.

(** Lines as joined words *)

Lemma join_space_cons w g :
  g <> [] -> join_space (w :: g) = w ++ space :: join_space g.
Proof. destruct g; [congruence | reflexivity]. Qed.

Lemma join_space_snoc g w :
  g <> [] -> join_space (g ++ [w]) = join_space g ++ space :: w.
Proof.
  induction g as [|a g IH]; intros Hne; [congruence |].
  destruct g as [|b g].
  - reflexivity.
  - change ((a :: b :: g) ++ [w]) with (a :: ((b :: g) ++ [w])).
    rewrite (join_space_cons a ((b :: g) ++ [w])) by not_nil.
    rewrite IH by not_nil.
    rewrite (join_space_cons a (b :: g)) by not_nil.
    rewrite <- app_assoc. reflexivity.
Qed.

Lemma join_space_head g :
  g <> [] -> Forall word g ->
  exists c l, join_space g = c :: l /\ isspace c = false.
Proof.
  intros Hne Hall. destruct g as [|w g]; [congruence |].
  inversion Hall as [|? ? Hw _]; subst.
  destruct (word_head w Hw) as (c & w' & -> & Hc).
  exists c. destruct g; simpl; eauto.
Qed.

Lemma split_on_from_run sep w : forall cur rest,
  Forall (fun c => c <> sep) w ->
  split_on_from sep cur (w ++ rest) = split_on_from sep (cur ++ w) rest.
Proof.
  induction w as [|c w IH]; intros cur rest Hall; simpl.
  - rewrite app_nil_r. reflexivity.
  - inversion Hall as [|? ? Hc Hw]; subst.
    destruct (N.eqb_spec c sep) as [E | _]; [contradiction |].
    rewrite IH by assumption. rewrite <- app_assoc. reflexivity.
Qed.

Lemma isspace_space : isspace space = true.
Proof. reflexivity. Qed.

Lemma word_no_space w : word w -> Forall (fun c => c <> space) w.
Proof.
  intros [_ Hall]. eapply Forall_impl; [exact Hall |].
  intros c Hc ->. rewrite isspace_space in Hc. discriminate.
Qed.

Lemma split_on_join g :
  g <> [] -> Forall word g -> split_on space (join_space g) = g.
Proof.
  unfold split_on. induction g as [|w g IH]; intros Hne Hall; [congruence |].
  inversion Hall as [|? ? Hw Hg]; subst.
  destruct g as [|b g].
  - simpl. rewrite <- (app_nil_r w) at 1.
    rewrite split_on_from_run by (apply word_no_space; assumption).
    reflexivity.
  - rewrite join_space_cons by not_nil.
    rewrite split_on_from_run by (apply word_no_space; assumption).
    simpl app. cbn [split_on_from]. rewrite N.eqb_refl.
    rewrite IH by (assumption || not_nil). reflexivity.
Qed.

Section WrapProofs.

Variable textbbox : str -> Z * Z * Z * Z.
Variable max_width : Z.

Lemma line_of_single w : word w -> line_of textbbox max_width [w] w.
Proof.
  intros Hw. split; [not_nil |]. split; [| split].
  - constructor; [assumption | constructor].
  - reflexivity.
  - right. eauto.
Qed.

Lemma wrap_step_inv done st w :
  word w -> wrap_inv textbbox max_width done st ->
  wrap_inv textbbox max_width (done ++ [w]) (wrap_step textbbox max_width st w).
Proof.
  intros Hw (gs & cur & Hgs & Hcur & Hdone). destruct st as [ls line].
  simpl in Hgs, Hcur. unfold wrap_step.
  destruct cur as [|a cur'].
  - subst line. rewrite strip_candidate by (assumption || (left; reflexivity)).
    rewrite orb_true_r.
    exists gs, [w]. simpl. split; [assumption |].
    split; [apply line_of_single; assumption |].
    rewrite <- Hdone. rewrite app_nil_r. reflexivity.
  - destruct Hcur as (Hne & Hwords & Hline & Hfit).
    destruct (join_space_head _ Hne Hwords) as (c & l & Hcl & Hc).
    rewrite strip_candidate
      by (assumption || (right; exists c, l; split; congruence)).
    assert (Ht : match line with [] => w | _ => line ++ space :: w end
                 = join_space ((a :: cur') ++ [w])).
    { rewrite join_space_snoc by assumption. rewrite <- Hline.
      destruct line; [congruence | reflexivity]. }
    rewrite Ht.
    assert (Htruthy : truthy line = true)
      by (destruct line; [congruence | reflexivity]).
    rewrite Htruthy, orb_false_r.
    destruct (Z.leb_spec (bbox_width textbbox (join_space ((a :: cur') ++ [w])))
                max_width) as [Hle | Hgt].
    + exists gs, ((a :: cur') ++ [w]). simpl fst. simpl snd.
      split; [assumption |]. split.
      * simpl app. split; [not_nil |]. split.
        -- change (a :: cur' ++ [w]) with ((a :: cur') ++ [w]).
           apply Forall_app. split; [assumption |].
           constructor; [assumption | constructor].
        -- split; [reflexivity | left; exact Hle].
      * rewrite <- Hdone. rewrite app_assoc. reflexivity.
    + exists (gs ++ [a :: cur']), [w]. simpl fst. simpl snd.
      split; [| split].
      * apply Forall2_app; [assumption |].
        constructor; [| constructor].
        split; [assumption |]. split; [assumption |]. split; assumption.
      * apply line_of_single; assumption.
      * rewrite <- Hdone. rewrite concat_app. simpl. rewrite app_nil_r.
        reflexivity.
Qed.

Lemma wrap_loop_inv ws : forall done st,
  Forall word ws -> wrap_inv textbbox max_width done st ->
  wrap_inv textbbox max_width (done ++ ws) (fold_left (wrap_step textbbox max_width) ws st).
Proof.
  induction ws as [|w ws IH]; intros done st Hws Hinv; simpl.
  - rewrite app_nil_r. assumption.
  - inversion Hws as [|? ? Hw Hws']; subst.
    replace (done ++ w :: ws) with ((done ++ [w]) ++ ws)
      by (rewrite <- app_assoc; reflexivity).
    apply IH; [assumption |]. apply wrap_step_inv; assumption.
Qed.

(** The lines of [wrap_text] are the words of the text, cut into groups. *)
Lemma wrap_text_groups text :
  exists gs,
    Forall2 (line_of textbbox max_width) gs (wrap_text textbbox text max_width)
    /\ concat gs = split text.
Proof.
  unfold wrap_text.
  assert (Hinv : wrap_inv textbbox max_width ([] ++ split text)
            (fold_left (wrap_step textbbox max_width) (split text) ([], []))).
  { apply wrap_loop_inv; [apply split_words |].
    exists [], []. simpl. split; [constructor |]. split; reflexivity. }
  destruct (fold_left _ _ _) as [ls line].
  destruct Hinv as (gs & cur & Hgs & Hcur & Hdone). simpl in *.
  destruct cur as [|a cur'].
  - subst line. simpl. exists gs. rewrite app_nil_r in Hdone. auto.
  - assert (Htruthy : truthy line = true).
    { destruct Hcur as (Hne & Hwords & Hline & _).
      destruct (join_space_head _ Hne Hwords) as (c & l & Hcl & _).
      destruct line; [congruence | reflexivity]. }
    rewrite Htruthy. exists (gs ++ [a :: cur']). split.
    + apply Forall2_app; [assumption | constructor; [assumption | constructor]].
    + rewrite concat_app. simpl. rewrite app_nil_r. assumption.
Qed.

End WrapProofs.


Lemma Forall2_In_r {A B : Type} (P : A -> B -> Prop) xs ys y :
  Forall2 P xs ys -> In y ys -> exists x, In x xs /\ P x y.
Proof.
  induction 1 as [|x y' xs ys Hxy _ IH]; intros Hin; [destruct Hin |].
  destruct Hin as [-> | Hin].
  - exists x. split; [left; reflexivity | assumption].
  - destruct (IH Hin) as (x' & Hx' & HP). exists x'. split; [right |]; assumption.
Qed.

(** A piece of a line is no longer than the line. *)
Lemma split_on_from_length sep s : forall cur w,
  In w (split_on_from sep cur s) -> (length w <= length cur + length s)%nat.
Proof.
  induction s as [|c s IH]; intros cur w Hin; simpl in *.
  - destruct Hin as [<- | []]. lia.
  - destruct (N.eqb c sep).
    + destruct Hin as [<- | Hin]; [lia |].
      apply IH in Hin. simpl in Hin. lia.
    + apply IH in Hin. rewrite length_app in Hin. simpl in Hin. lia.
Qed.

Lemma split_on_length sep s w :
  In w (split_on sep s) -> (length w <= length s)%nat.
Proof. intros Hin. apply split_on_from_length in Hin. simpl in Hin. lia. Qed.

(** C1: [wrap_text] neither drops nor reorders words, whatever the width
    measure: the lines, each split on spaces, give in line order the words
    of the text as [text.split()] has them. *)
Theorem wrap_text_keeps_words (textbbox : str -> Z * Z * Z * Z)
  (text : str) (max_width : Z) :
  concat (map (split_on space) (wrap_text textbbox text max_width))
  = split text.
Proof.
  destruct (wrap_text_groups textbbox max_width text) as (gs & Hgs & <-).
  f_equal. induction Hgs as [|g l gs ls Hg _ IH]; [reflexivity |].
  simpl. rewrite IH. f_equal.
  destruct Hg as (Hne & Hwords & -> & _). apply split_on_join; assumption.
Qed.

(** C9, as the code has it: every line of [wrap_text] fits in
    [max_width], or is one word of the text alone on its line; the pieces
    of a line are whole words of the text; and, for a measure under which
    a line is at least as wide as each of its words, a word wider than
    [max_width] is the whole of its line. *)
Theorem wrap_text_lines_fit (textbbox : str -> Z * Z * Z * Z)
  (text : str) (max_width : Z) :
  (forall l, In l (wrap_text textbbox text max_width) ->
     bbox_width textbbox l <= max_width
     \/ (split_on space l = [l] /\ In l (split text)))
  /\ (forall l w, In l (wrap_text textbbox text max_width) ->
        In w (split_on space l) -> In w (split text))
  /\ ((forall l w, In w (split_on space l) ->
         bbox_width textbbox w <= bbox_width textbbox l) ->
      forall l w, In l (wrap_text textbbox text max_width) ->
        In w (split_on space l) -> max_width < bbox_width textbbox w ->
        l = w).
Proof.
  destruct (wrap_text_groups textbbox max_width text) as (gs & Hgs & Hsplit).
  assert (Hpieces : forall l w, In l (wrap_text textbbox text max_width) ->
            In w (split_on space l) -> In w (split text)).
  { intros l w Hl Hw.
    destruct (Forall2_In_r _ _ _ _ Hgs Hl) as (g & Hg & Hne & Hwords & -> & _).
    rewrite split_on_join in Hw by assumption.
    rewrite <- Hsplit. apply in_concat. exists g. split; assumption. }
  assert (Hfit : forall l, In l (wrap_text textbbox text max_width) ->
            bbox_width textbbox l <= max_width
            \/ (split_on space l = [l] /\ In l (split text))).
  { intros l Hl.
    destruct (Forall2_In_r _ _ _ _ Hgs Hl) as (g & Hg & Hne & Hwords & Hjoin & Hfit).
    destruct Hfit as [Hfit | (w & ->)]; [left; exact Hfit |].
    right. simpl in Hjoin. subst l.
    assert (Hs : split_on space w = [w])
      by (apply (split_on_join [w]); assumption).
    split; [exact Hs |]. apply (Hpieces w w Hl). rewrite Hs. left. reflexivity. }
  split; [exact Hfit |]. split; [exact Hpieces |].
  intros Hmono l w Hl Hw Hwide.
  destruct (Hfit l Hl) as [Hle | [Hs _]].
  - specialize (Hmono l w Hw). lia.
  - rewrite Hs in Hw. destruct Hw as [-> | []]. reflexivity.
Qed.

(** The measure of a font of fixed pitch: ten pixels a character. *)
Lemma wrap_text_lines_fit_witness :
  wrap_text (fun s => (0, 0, 10 * Z.of_nat (length s), 12))
    (lit "to be extraordinarily brief") 60
  = [lit "to be"; lit "extraordinarily"; lit "brief"]
  /\ forall l w,
       In l (wrap_text (fun s => (0, 0, 10 * Z.of_nat (length s), 12))
               (lit "to be extraordinarily brief") 60) ->
       In w (split_on space l) -> 60 < 10 * Z.of_nat (length w) - 0 -> l = w.
Proof.
  split; [reflexivity |].
  apply (wrap_text_lines_fit (fun s => (0, 0, 10 * Z.of_nat (length s), 12))
           (lit "to be extraordinarily brief") 60).
  intros l w Hin. apply split_on_length in Hin. unfold bbox_width. lia.
Defined.

(** C9 as stated fails for a measure that is not monotone: under
    [odd_bbox] the word [b] is wider than 10, and yet it shares the line
    [a b], which is narrower than 10. *)
Lemma overlong_word_shares_line :
  wrap_text odd_bbox (lit "a b") 10 = [lit "a b"]
  /\ 10 < bbox_width odd_bbox (lit "b")
  /\ bbox_width odd_bbox (lit "a b") <= 10
  /\ split_on space (lit "a b") = [lit "a"; lit "b"].
Proof. repeat split; vm_compute; congruence. Qed.

Example split_strip_wrap :
  split (lit "  to be,  or not ") = [lit "to"; lit "be,"; lit "or"; lit "not"]
  /\ strip (lit "  to be ") = lit "to be"
  /\ lstrip (lit "#") (lit "##fff#") = lit "fff#"
  /\ split_on space (lit "to  be") = [lit "to"; lit ""; lit "be"].
Proof. repeat split. Qed.

(** ** Colours *)

Lemma is_hex_In c : is_hex c = true -> In c hex_digits.
Proof.
  unfold is_hex. intros H. apply existsb_exists in H as (x & Hx & Heq).
  apply N.eqb_eq in Heq. subst. exact Hx.
Qed.

Lemma pairs_parsed td :
  forallb (fun a => forallb (pair_parsed td a) hex_digits) hex_digits = true.
Proof. vm_compute. reflexivity. Qed.

Lemma int16_hex_pair td a b :
  is_hex a = true -> is_hex b = true ->
  PyInt.int16 td [a; b] = Ok (hex_value [a; b])
  /\ 0 <= hex_digit_value a <= 15 /\ a <> 0x23%N.
Proof.
  intros Ha Hb. apply is_hex_In in Ha, Hb.
  pose proof (pairs_parsed td) as H.
  rewrite forallb_forall in H. specialize (H a Ha).
  rewrite forallb_forall in H. specialize (H b Hb).
  unfold pair_parsed in H.
  destruct (PyInt.int16 td [a; b]) as [v |]; [| discriminate].
  repeat (apply andb_true_iff in H as [H ?]).
  apply Z.eqb_eq in H. subst v.
  split; [unfold hex_value; simpl; f_equal; lia |].
  split; [lia |]. intros ->. discriminate.
Qed.

Lemma hex_pair_range a b :
  is_hex a = true -> is_hex b = true -> 0 <= hex_value [a; b] <= 255.
Proof.
  intros Ha Hb.
  destruct (int16_hex_pair ascii_digits_only a b Ha Hb) as (_ & Hra & _).
  destruct (int16_hex_pair ascii_digits_only b a Hb Ha) as (_ & Hrb & _).
  unfold hex_value. simpl. lia.
Qed.

Lemma lstrip_hash_hex a s :
  is_hex a = true -> lstrip (lit "#") (a :: s) = a :: s.
Proof.
  intros Ha. destruct (int16_hex_pair ascii_digits_only a a Ha Ha) as (_ & _ & Hne).
  unfold lstrip. change (lit "#") with [35%N]. simpl.
  destruct (N.eqb_spec a 35) as [E | _]; [contradiction |].
  reflexivity.
Qed.

Lemma hex_to_rgb_hash td s : hex_to_rgb td (lit "#" ++ s) = hex_to_rgb td s.
Proof. reflexivity. Qed.

(** C4: a string of three or six hexadecimal digits, with a [#] before it
    or without, gives the three channels its digits write, each from 0 to
    255; a string whose length after the leading [#]s is neither 3 nor 6
    gives (15, 23, 42), and no exception. *)
Theorem hex_to_rgb_well_formed (td : N -> option N) (s : str) :
  (forallb is_hex s = true -> length s = 3%nat \/ length s = 6%nat ->
     hex_to_rgb td s = Ok (written_rgb s)
     /\ hex_to_rgb td (lit "#" ++ s) = Ok (written_rgb s)
     /\ (let '(r, g, b) := written_rgb s in
         0 <= r <= 255 /\ 0 <= g <= 255 /\ 0 <= b <= 255))
  /\ (length (lstrip (lit "#") s) <> 3%nat ->
      length (lstrip (lit "#") s) <> 6%nat ->
      hex_to_rgb td s = Ok (15, 23, 42)).
Proof.
  split.
  - intros Hhex Hlen. rewrite hex_to_rgb_hash.
    destruct Hlen as [Hlen | Hlen].
    + destruct s as [|a [|b [|c [|]]]]; try discriminate Hlen.
      hex_facts Hhex.
      destruct (int16_hex_pair td a a) as (Ea & _); [assumption .. |].
      destruct (int16_hex_pair td b b) as (Eb & _); [assumption .. |].
      destruct (int16_hex_pair td c c) as (Ec & _); [assumption .. |].
      unfold hex_to_rgb. rewrite lstrip_hash_hex by assumption.
      unfold written_rgb, slice. simpl. rewrite Ea, Eb, Ec. simpl.
      split; [reflexivity |]. split; [reflexivity |].
      repeat split; apply hex_pair_range; assumption.
    + destruct s as [|a [|b [|c [|d [|e [|f [|]]]]]]]; try discriminate Hlen.
      hex_facts Hhex.
      destruct (int16_hex_pair td a b) as (Ea & _); [assumption .. |].
      destruct (int16_hex_pair td c d) as (Ec & _); [assumption .. |].
      destruct (int16_hex_pair td e f) as (Ee & _); [assumption .. |].
      unfold hex_to_rgb. rewrite lstrip_hash_hex by assumption.
      unfold written_rgb, slice. simpl. rewrite Ea, Ec, Ee. simpl.
      split; [reflexivity |]. split; [reflexivity |].
      repeat split; apply hex_pair_range; assumption.
  - intros H3 H6. unfold hex_to_rgb.
    destruct (Nat.eqb_spec (length (lstrip (lit "#") s)) 3) as [E | _];
      [contradiction |].
    destruct (Nat.eqb_spec (length (lstrip (lit "#") s)) 6) as [E | _];
      [contradiction |].
    reflexivity.
Qed.

Lemma hex_to_rgb_well_formed_witness :
  hex_to_rgb ascii_digits_only (lit "e2e8f0") = Ok (226, 232, 240)
  /\ hex_to_rgb ascii_digits_only (lit "#e2e8f0") = Ok (226, 232, 240)
  /\ (0 <= 226 <= 255 /\ 0 <= 232 <= 255 /\ 0 <= 240 <= 255)
  /\ hex_to_rgb ascii_digits_only (lit "#12345") = Ok (15, 23, 42).
Proof.
  destruct (hex_to_rgb_well_formed ascii_digits_only (lit "e2e8f0")) as [H _].
  destruct (hex_to_rgb_well_formed ascii_digits_only (lit "#12345")) as [_ H'].
  split; [apply H; [reflexivity | right; reflexivity] |].
  split; [apply H; [reflexivity | right; reflexivity] |].
  split; [apply H; [reflexivity | right; reflexivity] |].
  apply H'; simpl; lia.
Defined.

(** C6, as the code has it: [#fff] is white by the expansion of three
    digits, and [bad] is three hexadecimal digits too: it is the colour
    (187, 170, 221), not the fallback. *)
Theorem hex_to_rgb_fff_bad (td : N -> option N) :
  hex_to_rgb td (lit "#fff") = Ok (255, 255, 255)
  /\ hex_to_rgb td (lit "bad") = Ok (187, 170, 221).
Proof. split; vm_compute; reflexivity. Qed.

(** C6 as stated fails: [bad] does not fall back to (15, 23, 42). *)
Lemma hex_to_rgb_bad_is_a_colour :
  hex_to_rgb ascii_digits_only (lit "bad") = Ok (187, 170, 221)
  /\ hex_to_rgb ascii_digits_only (lit "bad") <> Ok (15, 23, 42).
Proof. split; [reflexivity | discriminate]. Qed.

(** [int(s, 16)] takes more than two digits: a sign, blanks around, the
    prefix [0x], single underscores. *)
Example int16_forms :
  PyInt.int16 ascii_digits_only (lit "ff") = Ok 255
  /\ PyInt.int16 ascii_digits_only (lit "-f") = Ok (-15)
  /\ PyInt.int16 ascii_digits_only (lit " f") = Ok 15
  /\ PyInt.int16 ascii_digits_only (lit "0x1_f") = Ok 31
  /\ PyInt.int16 ascii_digits_only (lit "0x") = Raise (InvalidLiteral 16 (lit "0x"))
  /\ PyInt.int16 ascii_digits_only (lit "f_") = Raise (InvalidLiteral 16 (lit "f_"))
  /\ PyInt.int16 ascii_digits_only (lit "gg") = Raise (InvalidLiteral 16 (lit "gg")).
Proof. repeat split. Qed.

Lemma int16_raises td s e :
  PyInt.int16 td s = Raise e -> e = InvalidLiteral 16 s.
Proof.
  unfold PyInt.int16. intros H.
  repeat match type of H with
         | (let '(_, _) := ?x in _) = _ => destruct x
         | match ?x with _ => _ end = _ => destruct x
         | (if ?x then _ else _) = _ => destruct x
         end;
    congruence.
Qed.

Lemma hex_to_rgb_raises td s e :
  hex_to_rgb td s = Raise e -> exists l, e = InvalidLiteral 16 l.
Proof.
  unfold hex_to_rgb. intros H. cbv zeta in H.
  match type of H with
  | (if ?c then _ else _) = _ => destruct c; [discriminate H |]
  end.
  repeat match type of H with
         | bind ?x _ = _ =>
             let E := fresh "E" in
             destruct x eqn:E; cbn [bind] in H;
             [| apply int16_raises in E; injection H as <-; eexists; exact E]
         end.
  discriminate H.
Qed.

(** ** Floats *)

Import PyNum.

(** Integers below 2^53 are floats *)

Lemma digits2_pos_bound m : forall k,
  0 <= k -> Z.pos m < 2 ^ k -> Z.pos (digits2_pos m) <= k.
Proof.
  induction m as [m IH | m IH |]; intros k Hk Hm; simpl digits2_pos.
  - assert (k <> 0) by (intros ->; simpl in Hm; lia).
    replace k with (Z.succ (k - 1)) in Hm by lia.
    rewrite Z.pow_succ_r in Hm by lia.
    specialize (IH (k - 1)). lia.
  - assert (k <> 0) by (intros ->; simpl in Hm; lia).
    replace k with (Z.succ (k - 1)) in Hm by lia.
    rewrite Z.pow_succ_r in Hm by lia.
    specialize (IH (k - 1)). lia.
  - assert (k <> 0) by (intros ->; simpl in Hm; lia). lia.
Qed.

Lemma digits2_pos_shift m d :
  digits2_pos (Pos.iter xO m d) = (digits2_pos m + d)%positive.
Proof.
  induction d as [|d IH] using Pos.peano_ind.
  - simpl. lia.
  - rewrite Pos.iter_succ. simpl. rewrite IH. lia.
Qed.

Lemma pos_shift_value m d :
  Z.pos (Pos.iter xO m d) = Z.pos m * 2 ^ Z.pos d.
Proof.
  induction d as [|d IH] using Pos.peano_ind.
  - simpl. lia.
  - rewrite Pos.iter_succ, Pos2Z.inj_xO, IH, Pos2Z.inj_succ.
    rewrite Z.pow_succ_r by lia. lia.
Qed.

Lemma shiftl_shift m d :
  Z.shiftl (Z.pos (Pos.iter xO m d)) (Z.neg d) = Z.pos m.
Proof.
  change (Z.neg d) with (- Z.pos d).
  rewrite Z.shiftl_opp_r, Z.shiftr_div_pow2 by lia.
  rewrite pos_shift_value. apply Z.div_mul.
  apply Z.pow_nonzero; lia.
Qed.

(** A mantissa of 53 bits with an exponent in range is kept as it is. *)
Lemma binary_round_aux_canonical s m e :
  Z.pos (digits2_pos m) = 53 -> -1074 <= e <= 971 ->
  binary_round_aux prec emax s (Z.pos m) e loc_Exact = S754_finite s m e.
Proof.
  intros Hd He. unfold binary_round_aux, shr_fexp, Zdigits2.
  assert (Hfexp : fexp prec emax (Z.pos (digits2_pos m) + e) - e = 0).
  { rewrite Hd. unfold fexp, emin, prec, emax. lia. }
  rewrite Hfexp. simpl shr. cbn [shr_m round_nearest_even loc_of_shr_record].
  unfold Zdigits2. rewrite Hfexp. simpl shr. cbn [shr_m].
  replace (e <=? emax - prec) with true; [reflexivity |].
  symmetry. apply Z.leb_le. unfold emax, prec. lia.
Qed.

Lemma digits2_pos_size p : digits2_pos p = Pos.size p.
Proof. induction p; simpl; congruence. Qed.

Lemma digits_log2 p : Z.pos (digits2_pos p) = Z.log2 (Z.pos p) + 1.
Proof.
  destruct p; simpl; rewrite ?digits2_pos_size; lia.
Qed.

Lemma log2_shiftr_pos a n :
  0 < a -> 0 < Z.shiftr a n -> Z.log2 (Z.shiftr a n) = Z.log2 a - n.
Proof.
  intros Ha Hs. rewrite Z.log2_shiftr by assumption.
  destruct (Z_lt_le_dec (Z.log2 a) n) as [Hlt | Hle]; [| lia].
  rewrite Z.shiftr_eq_0 in Hs by lia. lia.
Qed.

Lemma shr_1_m mrs : 0 <= shr_m mrs -> shr_m (shr_1 mrs) = Z.shiftr (shr_m mrs) 1.
Proof.
  destruct mrs as [m r s]. simpl. intros Hm. rewrite <- Z.div2_spec.
  destruct m as [|[p|p|]|p]; try reflexivity; lia.
Qed.

Lemma iter_shr_1_m p : forall mrs,
  0 <= shr_m mrs ->
  shr_m (SpecFloat.iter_pos shr_1 p mrs) = Z.shiftr (shr_m mrs) (Z.pos p).
Proof.
  induction p as [p IH | p IH |]; intros mrs Hm; simpl SpecFloat.iter_pos.
  - assert (H1 : 0 <= shr_m (shr_1 mrs))
      by (rewrite shr_1_m by assumption; apply Z.shiftr_nonneg; assumption).
    assert (H2 : 0 <= shr_m (SpecFloat.iter_pos shr_1 p (shr_1 mrs)))
      by (rewrite IH by assumption; apply Z.shiftr_nonneg; assumption).
    rewrite IH, IH, shr_1_m by assumption.
    rewrite !Z.shiftr_shiftr by lia. f_equal. lia.
  - assert (H2 : 0 <= shr_m (SpecFloat.iter_pos shr_1 p mrs))
      by (rewrite IH by assumption; apply Z.shiftr_nonneg; assumption).
    rewrite IH, IH by assumption.
    rewrite !Z.shiftr_shiftr by lia. f_equal. lia.
  - apply shr_1_m. assumption.
Qed.

Lemma shr_spec mrs e n :
  0 <= shr_m mrs ->
  shr_m (fst (shr mrs e n)) = Z.shiftr (shr_m mrs) (Z.max 0 n)
  /\ snd (shr mrs e n) = e + Z.max 0 n.
Proof.
  intros Hm. destruct n as [|p|p]; simpl.
  - split; [reflexivity | lia].
  - split; [apply iter_shr_1_m; assumption | reflexivity].
  - split; [reflexivity | lia].
Qed.

Lemma shr_record_of_loc_m m l : shr_m (shr_record_of_loc m l) = m.
Proof. destruct l as [|[]]; reflexivity. Qed.

Lemma round_nearest_even_bounds m l :
  m <= round_nearest_even m l <= m + 1.
Proof.
  destruct l as [|[]]; simpl; try lia. destruct (Z.even m); lia.
Qed.

Lemma Zdigits2_log2 z : 0 < z -> Zdigits2 z = Z.log2 z + 1.
Proof. destruct z as [|p|p]; try lia. intros _. apply digits_log2. Qed.

(** Rounding keeps a small number small. *)
Lemma binary_round_aux_small s m e l B :
  -1074 <= B <= 971 ->
  Z.pos (digits2_pos m) + e <= B ->
  small_sf (B + 1) (binary_round_aux prec emax s (Z.pos m) e l).
Proof.
  intros HB Hm. rewrite digits_log2 in Hm.
  unfold binary_round_aux, shr_fexp.
  rewrite (Zdigits2_log2 (Z.pos m)) by lia.
  set (n1 := fexp prec emax (Z.log2 (Z.pos m) + 1 + e) - e).
  pose proof (shr_spec (shr_record_of_loc (Z.pos m) l) e n1) as Hshr1.
  rewrite shr_record_of_loc_m in Hshr1. specialize (Hshr1 ltac:(lia)).
  destruct (shr (shr_record_of_loc (Z.pos m) l) e n1) as [mrs1 e1].
  simpl in Hshr1. destruct Hshr1 as [Hm1 He1].
  set (m1 := round_nearest_even (shr_m mrs1) (loc_of_shr_record mrs1)).
  pose proof (round_nearest_even_bounds (shr_m mrs1) (loc_of_shr_record mrs1))
    as Hround. fold m1 in Hround.
  assert (Hms : 0 <= shr_m mrs1)
    by (rewrite Hm1; apply Z.shiftr_nonneg; lia).
  set (n2 := fexp prec emax (Zdigits2 m1 + e1) - e1).
  pose proof (shr_spec (shr_record_of_loc m1 loc_Exact) e1 n2) as Hshr2.
  rewrite shr_record_of_loc_m in Hshr2. specialize (Hshr2 ltac:(lia)).
  destruct (shr (shr_record_of_loc m1 loc_Exact) e1 n2) as [mrs2 e2].
  simpl in Hshr2. destruct Hshr2 as [Hm2 He2].
  assert (Hm2' : 0 <= shr_m mrs2)
    by (rewrite Hm2; apply Z.shiftr_nonneg; lia).
  destruct (shr_m mrs2) as [|m2|m2] eqn:Em2; [exact I | | lia].
  (* the mantissa before the last shift is positive *)
  assert (Hm1pos : 0 < m1).
  { destruct (Z_lt_le_dec 0 m1) as [? | Hle]; [assumption |].
    assert (m1 = 0) by lia. rewrite H in Hm2.
    rewrite Z.shiftr_0_l in Hm2. discriminate. }
  assert (Hl2 : Z.log2 (Z.pos m2) = Z.log2 m1 - Z.max 0 n2).
  { rewrite Hm2. apply log2_shiftr_pos; [assumption | rewrite <- Hm2; lia]. }
  assert (Hn2 : n2 = fexp prec emax (Z.log2 m1 + 1 + e1) - e1)
    by (unfold n2; rewrite Zdigits2_log2 by assumption; reflexivity).
  pose proof (Z.log2_nonneg (Z.pos m)) as Hnn.
  pose proof (Z.log2_nonneg m1) as Hnn1.
  (* the digits of [m1] *)
  assert (Hl1 : Z.log2 m1 + e1 <= Z.max (Z.log2 (Z.pos m) + e + 1) (-1074)).
  { destruct (Z_lt_le_dec 0 (shr_m mrs1)) as [Hpos | Hzero].
    - assert (Z.log2 (shr_m mrs1) = Z.log2 (Z.pos m) - Z.max 0 n1)
        by (rewrite Hm1; apply log2_shiftr_pos; [lia | rewrite <- Hm1; lia]).
      assert (Z.log2 m1 <= Z.log2 (shr_m mrs1) + 1).
      { etransitivity; [apply Z.log2_le_mono; apply Hround |].
        apply Z.log2_succ_le. }
      lia.
    - assert (Hz : shr_m mrs1 = 0) by lia.
      assert (Hone : m1 = 1) by lia.
      rewrite Hz in Hm1. symmetry in Hm1.
      apply Z.shiftr_eq_0_iff in Hm1 as [Hm1 | [_ Hm1]]; [discriminate |].
      rewrite Hone. change (Z.log2 1) with 0.
      unfold n1, fexp, emin, prec, emax in *. lia. }
  assert (He2le : e2 <= 971)
    by (unfold n1, fexp, emin, prec, emax in *; lia).
  replace (e2 <=? emax - prec) with true
    by (symmetry; apply Z.leb_le; unfold emax, prec; lia).
  simpl. rewrite digits_log2.
  unfold n1, fexp, emin, prec, emax in *. lia.
Qed.

Lemma shl_align_digits m e e' :
  let '(mz, ez) := shl_align m e e' in
  Z.pos (digits2_pos mz) + ez = Z.pos (digits2_pos m) + e.
Proof.
  unfold shl_align. destruct (e' - e) as [|p|p] eqn:E; try reflexivity.
  rewrite digits2_pos_shift. lia.
Qed.

Lemma binary_round_small s m e B :
  -1074 <= B <= 971 ->
  Z.pos (digits2_pos m) + e <= B ->
  small_sf (B + 1) (binary_round prec emax s m e).
Proof.
  intros HB Hm. unfold binary_round.
  pose proof (shl_align_digits m e (fexp prec emax (Z.pos (digits2_pos m) + e)))
    as H.
  destruct (shl_align _ _ _) as [mz ez].
  apply binary_round_aux_small; [assumption | lia].
Qed.

Lemma binary_normalize_bound z e B :
  -1074 <= B <= 971 ->
  Z.log2 (Z.abs z) + 1 + e <= B ->
  small_sf (B + 1) (binary_normalize prec emax z e false).
Proof.
  intros HB Hz.
  destruct z as [|p|p]; cbn [binary_normalize Z.abs] in *; [exact I | |];
    (apply binary_round_small; [assumption | rewrite digits_log2; exact Hz]).
Qed.

Lemma small_sf_weaken B B' x : B <= B' -> small_sf B x -> small_sf B' x.
Proof. intros HB. destruct x; simpl; try tauto. lia. Qed.

Lemma mul_small Bx By x y :
  small_sf Bx x -> small_sf By y -> -1074 <= Bx + By <= 971 ->
  small_sf (Bx + By + 1) (SFmul prec emax x y).
Proof.
  intros Hx Hy HB.
  destruct x as [sx | sx | | sx mx ex], y as [sy | sy | | sy my ey];
    simpl in Hx, Hy; try contradiction; try exact I.
  cbn [SFmul]. apply binary_round_aux_small; [assumption |].
  rewrite digits_log2 in *. rewrite Pos2Z.inj_mul.
  pose proof (Z.log2_mul_above (Z.pos mx) (Z.pos my)). lia.
Qed.

Lemma shl_align_exponent m e e' :
  e' <= e -> snd (shl_align m e e') = e'.
Proof.
  intros Hle. unfold shl_align.
  destruct (e' - e) as [|p|p] eqn:E; simpl; lia.
Qed.

Lemma log2_sum_le a b M :
  0 <= M -> Z.abs a <= 2 ^ M - 1 -> Z.abs b <= 2 ^ M - 1 ->
  Z.log2 (Z.abs (a + b)) <= M.
Proof.
  intros HM Ha Hb.
  destruct (Z.eq_dec (a + b) 0) as [-> | Hne]; [simpl; lia |].
  assert (Z.log2 (Z.abs (a + b)) < M + 1); [| lia].
  apply Z.log2_lt_pow2; [lia |].
  rewrite Z.pow_add_r by lia. change (2 ^ 1) with 2. lia.
Qed.

Lemma pos_lt_pow2_digits m : Z.pos m <= 2 ^ Z.pos (digits2_pos m) - 1.
Proof.
  rewrite digits_log2. pose proof (Z.log2_spec (Z.pos m) ltac:(lia)).
  unfold Z.succ in H. lia.
Qed.

Lemma add_small B x y :
  small_sf B x -> small_sf B y -> -1074 <= B + 1 <= 971 ->
  small_sf (B + 2) (SFadd prec emax x y).
Proof.
  intros Hx Hy HB.
  destruct x as [sx | sx | | sx mx ex], y as [sy | sy | | sy my ey];
    simpl in Hx, Hy; try contradiction.
  - destruct sx, sy; exact I.
  - simpl. lia.
  - simpl. lia.
  - cbn [SFadd]. set (ez := Z.min ex ey).
    pose proof (shl_align_digits mx ex ez) as Hax.
    pose proof (shl_align_exponent mx ex ez ltac:(lia)) as Hex.
    pose proof (shl_align_digits my ey ez) as Hay.
    pose proof (shl_align_exponent my ey ez ltac:(lia)) as Hey.
    destruct (shl_align mx ex ez) as [ax ex'].
    destruct (shl_align my ey ez) as [ay ey']. simpl in *. subst ex' ey'.
    replace (B + 2) with (B + 1 + 1) by lia.
    apply binary_normalize_bound; [lia |].
    pose proof (pos_lt_pow2_digits ax) as Hpx.
    pose proof (pos_lt_pow2_digits ay) as Hpy.
    set (M := Z.max (Z.pos (digits2_pos ax)) (Z.pos (digits2_pos ay))).
    assert (Hle : Z.log2 (Z.abs (cond_Zopp sx (Z.pos ax)
                                 + cond_Zopp sy (Z.pos ay))) <= M).
    { apply log2_sum_le; [lia | |].
      - assert (2 ^ Z.pos (digits2_pos ax) <= 2 ^ M)
          by (apply Z.pow_le_mono_r; lia).
        destruct sx; simpl; lia.
      - assert (2 ^ Z.pos (digits2_pos ay) <= 2 ^ M)
          by (apply Z.pow_le_mono_r; lia).
        destruct sy; simpl; lia. }
    lia.
Qed.

Lemma binary_round_exact s m :
  Z.pos m < 2 ^ 53 ->
  exists m' e,
    binary_round prec emax s m 0 = S754_finite s m' e
    /\ valid_binary (S754_finite s m' e) = true
    /\ Z.shiftl (Z.pos m') e = Z.pos m
    /\ Z.pos (digits2_pos m') + e = Z.pos (digits2_pos m)
    /\ Z.pos (digits2_pos m') = 53.
Proof.
  intros Hm. pose proof (digits2_pos_bound m 53 ltac:(lia) Hm) as Hd.
  unfold binary_round, shl_align.
  assert (Hfexp : fexp prec emax (Z.pos (digits2_pos m) + 0)
                  = Z.pos (digits2_pos m) - 53).
  { unfold fexp, emin, prec, emax. lia. }
  rewrite Hfexp.
  destruct (Z.pos (digits2_pos m) - 53 - 0) as [|p|p] eqn:Hsub; [| lia |].
  - exists m, 0. assert (Z.pos (digits2_pos m) = 53) by lia.
    rewrite binary_round_aux_canonical by lia.
    split; [reflexivity |]. split; [| split; [reflexivity | lia]].
    unfold valid_binary, bounded, canonical_mantissa.
    rewrite Hfexp. apply andb_true_iff. split; [apply Z.eqb_eq; lia | reflexivity].
  - exists (Pos.iter xO m p), (Z.pos (digits2_pos m) - 53).
    assert (Hd' : Z.pos (digits2_pos (Pos.iter xO m p)) = 53)
      by (rewrite digits2_pos_shift; lia).
    rewrite binary_round_aux_canonical by lia.
    split; [reflexivity |]. split; [| split; [| lia]].
    + unfold valid_binary, bounded, canonical_mantissa. rewrite Hd'.
      apply andb_true_iff. split.
      * apply Z.eqb_eq. unfold fexp, emin, prec, emax. lia.
      * apply Z.leb_le. unfold emax, prec. lia.
    + replace (Z.pos (digits2_pos m) - 53) with (Z.neg p) by lia.
      apply shiftl_shift.
Qed.

Lemma small_finite B x : small_sf B x -> finite_sf x.
Proof. destruct x; simpl; tauto. Qed.

Lemma is_infinity_small B f : small_sf B (Prim2SF f) -> is_infinity f = false.
Proof.
  intros H. unfold is_infinity. rewrite FloatAxioms.eqb_spec, abs_spec.
  destruct (Prim2SF f); simpl in H; try contradiction; reflexivity.
Qed.

Lemma opp_small B f : small_sf B (Prim2SF f) -> small_sf B (Prim2SF (- f)%float).
Proof.
  rewrite FloatAxioms.opp_spec. destruct (Prim2SF f); simpl; tauto.
Qed.

(** The float that [SF2Prim] makes of a small number is small. *)
Lemma SF2Prim_small B x :
  -1074 <= B <= 971 -> small_sf B x -> small_sf (B + 1) (Prim2SF (SF2Prim x)).
Proof.
  intros HB Hx. destruct x as [[] | | | s m e]; simpl in Hx;
    try contradiction; try exact I.
  destruct Hx as [Hsmall Hdig].
  assert (Hm : Z.pos m < 2 ^ 53).
  { rewrite digits_log2 in Hdig. apply Z.log2_lt_pow2; lia. }
  assert (Hf : small_sf (B + 1)
            (Prim2SF (Z.ldexp (of_uint63 (Uint63Axioms.of_Z (Z.pos m))) e))).
  { rewrite Z_ldexp_spec, of_uint63_spec, Uint63.of_Z_spec.
    rewrite Z.mod_small by (change Uint63.wB with (2 ^ 63); lia).
    cbn [binary_normalize].
    destruct (binary_round_exact false m Hm) as (m' & e' & -> & _ & _ & Hd & _).
    cbn [SFldexp]. apply binary_round_small; [assumption | lia]. }
  unfold SF2Prim. destruct s; [apply opp_small |]; exact Hf.
Qed.

Lemma float_of_int_exact z :
  Z.abs z < 2 ^ 53 ->
  exists f, float_of_int z = Ok f
            /\ small_sf 53 (Prim2SF f)
            /\ int_of_float f = Ok z.
Proof.
  intros Hz. unfold float_of_int, int_of_float.
  destruct z as [|m|m]; cbn [binary_normalize].
  - exists zero. repeat split.
  - destruct (binary_round_exact false m ltac:(lia))
      as (m' & e & Hr & Hv & Hsh & Hd & Hd').
    rewrite Hr. set (f := SF2Prim (S754_finite false m' e)).
    assert (Hf : Prim2SF f = S754_finite false m' e)
      by (apply Prim2SF_SF2Prim; exact Hv).
    assert (Hs : small_sf 53 (Prim2SF f)).
    { rewrite Hf. simpl. pose proof (digits2_pos_bound m 53). lia. }
    rewrite (is_infinity_small _ _ Hs). exists f.
    split; [reflexivity |]. split; [exact Hs |]. rewrite Hf, Hsh. reflexivity.
  - destruct (binary_round_exact true m ltac:(lia))
      as (m' & e & Hr & Hv & Hsh & Hd & Hd').
    rewrite Hr. set (f := SF2Prim (S754_finite true m' e)).
    assert (Hf : Prim2SF f = S754_finite true m' e)
      by (apply Prim2SF_SF2Prim; exact Hv).
    assert (Hs : small_sf 53 (Prim2SF f)).
    { rewrite Hf. simpl. pose proof (digits2_pos_bound m 53). lia. }
    rewrite (is_infinity_small _ _ Hs). exists f.
    split; [reflexivity |]. split; [exact Hs |]. rewrite Hf, Hsh. reflexivity.
Qed.

(** A quotient of at most one is a small float. *)
Lemma round_quotient_small a b :
  (a <= b)%positive -> small_sf 2 (round_quotient false a b).
Proof.
  intros Hab. unfold round_quotient.
  set (k := Z.max 0 (55 - Z.log2 (Z.pos a) + Z.log2 (Z.pos b))).
  set (n := Z.pos a * 2 ^ k).
  set (sticky := if n mod Z.pos b =? 0 then 0 else 1).
  assert (Hk : 0 <= k) by (unfold k; lia).
  assert (Hpow : 0 < 2 ^ k) by (apply Z.pow_pos_nonneg; lia).
  assert (Hq : 0 <= n / Z.pos b <= 2 ^ k).
  { split.
    - apply Z.div_pos; [unfold n; lia | lia].
    - apply Z.div_le_upper_bound; [lia |]. unfold n.
      apply Z.mul_le_mono_nonneg_r; lia. }
  assert (Hsticky : 0 <= sticky <= 1)
    by (unfold sticky; destruct (_ =? _); lia).
  destruct (2 * (n / Z.pos b) + sticky) as [|m|m] eqn:Em; try exact I.
  replace 2 with (1 + 1) at 1 by reflexivity.
  apply binary_round_small; [lia |].
  rewrite digits_log2.
  assert (Z.log2 (Z.pos m) < k + 2); [| lia].
  apply Z.log2_lt_pow2; [lia |].
  rewrite <- Em. rewrite Z.pow_add_r by lia. change (2 ^ 2) with 4. lia.
Qed.

Lemma truediv_small i d :
  0 <= i <= d -> 0 < d ->
  exists f, truediv i d = Ok f /\ small_sf 3 (Prim2SF f).
Proof.
  intros Hi Hd. destruct d as [|b|b]; try lia.
  destruct i as [|a|a]; try lia.
  - exists zero. split; [reflexivity | exact I].
  - unfold truediv. cbn -[round_quotient SF2Prim is_infinity].
    change (Z.to_pos (Z.abs (Z.pos a))) with a.
    change (Z.to_pos (Z.abs (Z.pos b))) with b.
    set (f := SF2Prim (round_quotient false a b)).
    assert (Hs : small_sf 3 (Prim2SF f)).
    { apply (SF2Prim_small 2); [lia |]. apply round_quotient_small. lia. }
    rewrite (is_infinity_small _ _ Hs). exists f. auto.
Qed.

Lemma int_of_float_finite B f :
  small_sf B (Prim2SF f) -> exists z, int_of_float f = Ok z.
Proof.
  unfold int_of_float. destruct (Prim2SF f); simpl; try contradiction; eauto.
Qed.

Lemma mul_small_float Bx By x y :
  small_sf Bx (Prim2SF x) -> small_sf By (Prim2SF y) ->
  -1074 <= Bx + By <= 971 ->
  small_sf (Bx + By + 1) (Prim2SF (x * y)%float).
Proof. intros. rewrite mul_spec. apply mul_small; assumption. Qed.

Lemma add_small_float B x y :
  small_sf B (Prim2SF x) -> small_sf B (Prim2SF y) ->
  -1074 <= B + 1 <= 971 ->
  small_sf (B + 2) (Prim2SF (x + y)%float).
Proof. intros. rewrite add_spec. apply add_small; assumption. Qed.

Lemma int_of_float_mul_add_zero (fh fd : float) :
  finite_sf (Prim2SF fh) -> finite_sf (Prim2SF fd) ->
  int_of_float (fh + fd * zero)%float = int_of_float fh.
Proof.
  intros Hh Hd. unfold int_of_float.
  rewrite add_spec, mul_spec.
  change (Prim2SF zero) with (S754_zero false).
  destruct (Prim2SF fd) as [sd | | | sd md ed]; try contradiction;
    destruct (Prim2SF fh) as [sh | | | sh mh eh]; try contradiction;
    simpl; try reflexivity.
  - destruct sh, sd; reflexivity.
  - destruct sh, sd; reflexivity.
Qed.

(** [int] cuts toward zero, [round] goes to the nearest integer, and
    [/] rounds the quotient once. *)
Example int_of_float_cuts :
  int_of_float 238.79 = Ok 238 /\ int_of_float (-238.79) = Ok (-238)
  /\ int_of_float 0.99 = Ok 0 /\ int_of_float (-0.99) = Ok 0.
Proof. repeat split. Qed.

Example round_half_even_rounds :
  round_half_even 238.79 = Ok 239 /\ round_half_even (-238.79) = Ok (-239)
  /\ round_half_even 2.5 = Ok 2 /\ round_half_even 3.5 = Ok 4.
Proof. repeat split. Qed.

Example truediv_rounds_once :
  truediv 1 599 = Ok (1 / 599)%float /\ truediv 1 3 = Ok (1 / 3)%float
  /\ truediv (2 ^ 2000 + 1) (2 ^ 1999) = Ok 2%float
  /\ truediv 0 (-3) = Ok neg_zero.
Proof. repeat split; vm_compute; reflexivity. Qed.

Lemma truediv_zero d : 0 < d -> truediv 0 d = Ok zero.
Proof. intros Hd. destruct d; try lia. reflexivity. Qed.

Lemma divisor_max n : (if n >? 1 then n - 1 else 1) = Z.max (n - 1) 1.
Proof. destruct (Z.gtb_spec n 1); lia. Qed.

(** ** Frames *)

Section FrameProofs.

Variable env : Env.
Variables (text : str) (width height fps duration : Z) (bg_color text_color : rgb).

Lemma prepare_geometry L :
  prepare env text width height fps duration = Ok L ->
  total_text_height L
  = Z.max (Z.of_nat (length (lines L)) * line_spacing L) height + height
  /\ start_y L = height
  /\ end_y L = - total_text_height L
  /\ total_frames L = duration * fps.
Proof.
  unfold prepare. intros H.
  repeat match type of H with
         | bind ?x _ = _ => destruct x; cbn [bind] in H; [| discriminate H]
         end.
  injection H as <-. simpl. repeat split.
Qed.

(** [int(n * c)] for an [int] [n] below 2^53 and a constant [c] below
    2^10 does not raise. *)
Lemma int_scaled_total n c :
  Z.abs n < 2 ^ 53 -> small_sf 10 (Prim2SF c) ->
  exists z, (x <- int_mul_float n c;; int_of_float x) = Ok z.
Proof.
  intros Hn Hc. unfold int_mul_float.
  destruct (float_of_int_exact _ Hn) as (f & -> & Hf & _). cbn [bind].
  apply (int_of_float_finite 64).
  apply (mul_small_float 53 10); [assumption | assumption | lia].
Qed.

(** [Image.new] returns for a size that is not negative, within a C
    [int], and that can be allocated. *)
Lemma image_new_check_total :
  0 <= width <= INT_MAX -> 0 <= height <= INT_MAX ->
  image_new_error env (width, height) = None ->
  image_new_check env (width, height) = Ok tt.
Proof.
  unfold image_new_check, as_c_int, INT_MAX, LONG_MAX. intros Hw Hh ->.
  destruct (Z.ltb_spec width 0), (Z.ltb_spec height 0); try lia.
  destruct (Z.ltb_spec (2 ^ 63 - 1) width), (Z.ltb_spec (2 ^ 31 - 1) width),
    (Z.ltb_spec (2 ^ 63 - 1) height), (Z.ltb_spec (2 ^ 31 - 1) height);
    try lia.
  reflexivity.
Qed.

(** A layout is the layout of an image that [Image.new] returns. *)
Lemma prepare_image L :
  prepare env text width height fps duration = Ok L ->
  image_new_check env (width, height) = Ok tt.
Proof.
  unfold prepare. intros H.
  destruct (image_new_check env (width, height)) as [[] |];
    [reflexivity | discriminate H].
Qed.

(** The layout is computed, with no exception, for an image that
    [Image.new] returns and a glyph height below 2^53. *)
Lemma prepare_total :
  image_new_check env (width, height) = Ok tt ->
  Z.abs width < 2 ^ 53 ->
  (forall f, Z.abs (textbbox env f (lit "Ay")).2 < 2 ^ 53) ->
  exists L, prepare env text width height fps duration = Ok L.
Proof.
  intros Hi Hw Hb. unfold prepare. rewrite Hi. cbn [bind].
  destruct (int_scaled_total width 0.08 Hw) as (mx & ->).
  { assert (E : Prim2SF 0.08 = S754_finite false 5764607523034235 (-56))
      by (vm_compute; reflexivity).
    rewrite E. simpl. lia. }
  cbn [bind]. specialize (Hb (load_font env height)).
  destruct (textbbox env (load_font env height) (lit "Ay"))
    as [[[x0 y0] x1] bottom].
  simpl in Hb.
  destruct (int_scaled_total bottom 1.4 Hb) as (ls & ->).
  { assert (E : Prim2SF 1.4 = S754_finite false 6305039478318694 (-52))
      by (vm_compute; reflexivity).
    rewrite E. simpl. lia. }
  cbn [bind]. eexists. reflexivity.
Qed.

Lemma frame_at_spec L k s :
  frame_at env width height bg_color text_color L k = Ok s ->
  frame_idx s = k
  /\ truediv k (Z.max (total_frames L - 1) 1) = Ok (t s)
  /\ (y <- scroll_position L (t s);; int_of_float y) = Ok (current_offset s).
Proof.
  unfold frame_at. rewrite divisor_max. intros H.
  destruct (truediv k _) as [t0 |]; cbn [bind] in H; [| discriminate H].
  destruct (scroll_position L t0) as [y |] eqn:Ey; cbn [bind] in H;
    [| discriminate H].
  destruct (int_of_float y) as [o |] eqn:Eo; cbn [bind] in H;
    [| discriminate H].
  destruct (Image_new env (width, height) bg_color) as [img |];
    cbn [bind] in H; [| discriminate H].
  injection H as <-. simpl. rewrite Ey. cbn [bind]. auto.
Qed.

Lemma Image_new_total :
  image_new_check env (width, height) = Ok tt ->
  Image_new env (width, height) bg_color
  = Ok {| img_size := (width, height); img_color := bg_color; img_texts := [] |}.
Proof. intros H. unfold Image_new. rewrite H. reflexivity. Qed.

(** The first frame: [t] is 0 and the text is at [start_y]. *)
Lemma frame_at_first L :
  image_new_check env (width, height) = Ok tt ->
  Z.abs (start_y L) < 2 ^ 53 -> Z.abs (end_y L - start_y L) < 2 ^ 53 ->
  exists s,
    frame_at env width height bg_color text_color L 0 = Ok s
    /\ frame_idx s = 0 /\ t s = zero /\ current_offset s = start_y L.
Proof.
  intros Hi Hs Hd. unfold frame_at. rewrite (Image_new_total Hi), divisor_max.
  rewrite truediv_zero by lia. cbn [bind].
  unfold scroll_position, int_mul_float, int_add_float.
  destruct (float_of_int_exact _ Hd) as (fd & -> & Hfd & _).
  destruct (float_of_int_exact _ Hs) as (fh & -> & Hfh & Hint).
  cbn [bind].
  rewrite int_of_float_mul_add_zero by (eapply small_finite; eassumption).
  rewrite Hint. cbn [bind]. eexists. split; [reflexivity |]. simpl. auto.
Qed.

(** No frame of the scroll raises, when the height and the scroll span are
    floats exactly. *)
Lemma frame_at_total L i :
  image_new_check env (width, height) = Ok tt ->
  Z.abs (start_y L) < 2 ^ 53 -> Z.abs (end_y L - start_y L) < 2 ^ 53 ->
  0 <= i <= Z.max (total_frames L - 1) 1 ->
  exists s, frame_at env width height bg_color text_color L i = Ok s.
Proof.
  intros Himg Hs Hd Hi. unfold frame_at.
  rewrite (Image_new_total Himg), divisor_max.
  destruct (truediv_small i (Z.max (total_frames L - 1) 1) Hi ltac:(lia))
    as (ft & -> & Hft).
  cbn [bind]. unfold scroll_position, int_mul_float, int_add_float.
  destruct (float_of_int_exact _ Hd) as (fd & -> & Hfd & _).
  destruct (float_of_int_exact _ Hs) as (fh & -> & Hfh & _).
  cbn [bind].
  assert (Hp : small_sf 57 (Prim2SF (fd * ft)%float))
    by (apply (mul_small_float 53 3); [assumption | assumption | lia]).
  assert (Hy : small_sf 59 (Prim2SF (fh + fd * ft)%float)).
  { apply (add_small_float 57); [| assumption | lia].
    apply (small_sf_weaken 53); [lia | assumption]. }
  destruct (int_of_float_finite _ _ Hy) as (z & ->).
  cbn [bind]. eexists. reflexivity.
Qed.

Lemma frames_loop_total L : forall idxs,
  image_new_check env (width, height) = Ok tt ->
  Z.abs (start_y L) < 2 ^ 53 -> Z.abs (end_y L - start_y L) < 2 ^ 53 ->
  Forall (fun i => 0 <= i <= Z.max (total_frames L - 1) 1) idxs ->
  exists steps,
    frames_loop env width height bg_color text_color L idxs = (steps, None).
Proof.
  induction idxs as [|k idxs IH]; intros Hi Hs Hd Hall; simpl.
  - exists []. reflexivity.
  - inversion Hall as [|? ? Hk Hrest]; subst.
    destruct (frame_at_total L k Hi Hs Hd Hk) as (s & ->).
    destruct (IH Hi Hs Hd Hrest) as (ss & ->). exists (s :: ss). reflexivity.
Qed.

Lemma range_bounds n : Forall (fun i => 0 <= i <= Z.max (n - 1) 1) (range n).
Proof. apply Forall_seqZ. intros i Hi. lia. Qed.

Lemma frames_loop_lookup L : forall idxs steps stop,
  frames_loop env width height bg_color text_color L idxs = (steps, stop) ->
  forall (i : nat) s, steps !! i = Some s ->
  exists k, idxs !! i = Some k
            /\ frame_at env width height bg_color text_color L k = Ok s.
Proof.
  induction idxs as [|k idxs IH]; intros steps stop H i s Hi; simpl in H.
  - injection H as <- <-. discriminate Hi.
  - destruct (frame_at env width height bg_color text_color L k) as [s0 |] eqn:Ek.
    + destruct (frames_loop env width height bg_color text_color L idxs)
        as [ss stop'] eqn:El.
      injection H as <- <-. destruct i as [|i]; simpl in Hi.
      * injection Hi as <-. exists k. split; [reflexivity | assumption].
      * apply (IH ss stop' eq_refl i s Hi).
    + injection H as <- <-. discriminate Hi.
Qed.

Lemma frames_loop_length L : forall idxs steps,
  frames_loop env width height bg_color text_color L idxs = (steps, None) ->
  length steps = length idxs.
Proof.
  induction idxs as [|k idxs IH]; intros steps H; simpl in H.
  - injection H as <-. reflexivity.
  - destruct (frame_at env width height bg_color text_color L k) as [s0 |];
      [| discriminate H].
    destruct (frames_loop env width height bg_color text_color L idxs)
      as [ss stop'] eqn:El.
    injection H as <- ->. simpl. f_equal. apply IH. reflexivity.
Qed.

(** With both libraries and a layout, the generator is its loop. *)
Lemma generator_is_loop L :
  installed env (lit "numpy") = true -> installed env (lit "PIL") = true ->
  prepare env text width height fps duration = Ok L ->
  generate_scrolling_text_frames env text width height fps duration
    bg_color text_color
  = frames_loop env width height bg_color text_color L (range (total_frames L)).
Proof.
  intros Hn Hp HL. unfold generate_scrolling_text_frames, import.
  rewrite Hn. cbn [bind]. rewrite Hp. cbn [except_ModuleNotFoundError].
  rewrite HL. reflexivity.
Qed.

End FrameProofs.

(** C2: the scroll geometry of a render. Whenever
    [generate_scrolling_text_frames] computes its layout, the text height
    is the height of the wrapped lines (their number times the line
    spacing), at least one frame height, plus one frame height; the text
    starts at the frame height and ends at minus the text height. *)
Theorem scroll_geometry (env : Env) (text : str)
  (width height fps duration : Z) (L : layout) :
  prepare env text width height fps duration = Ok L ->
  total_text_height L
  = Z.max (Z.of_nat (length (lines L)) * line_spacing L) height + height
  /\ start_y L = height
  /\ end_y L = - total_text_height L.
Proof.
  intros H.
  destruct (prepare_geometry _ _ _ _ _ _ _ H) as (A & B & C & _). auto.
Qed.

Lemma scroll_geometry_witness :
  prepare plain_env (lit "Hello world") 1280 720 24 60 = Ok hello_layout
  /\ total_text_height hello_layout
     = Z.max (Z.of_nat (length (lines hello_layout))
              * line_spacing hello_layout) 720 + 720
  /\ start_y hello_layout = 720
  /\ end_y hello_layout = - total_text_height hello_layout.
Proof.
  assert (H : prepare plain_env (lit "Hello world") 1280 720 24 60
              = Ok hello_layout) by (vm_compute; reflexivity).
  split; [exact H |].
  exact (scroll_geometry plain_env (lit "Hello world") 1280 720 24 60
           hello_layout H).
Defined.

(** C3, as the code has it: the offset of the frame [i] is
    [int(start_y + (end_y - start_y) * t)], the float cut toward zero and
    not rounded, with [t = i / max(total_frames - 1, 1)]; the frames come
    in the order of their indices, all [total_frames] of them unless an
    exception ends the loop; and when the height and the scroll span are
    floats exactly (below 2^53), no exception does, and the first frame is
    at [start_y = height]. *)
Theorem frame_offsets (env : Env) (text : str)
  (width height fps duration : Z) (bg_color text_color : rgb)
  (L : layout) (steps : list step) (stop : option exn) :
  installed env (lit "numpy") = true -> installed env (lit "PIL") = true ->
  prepare env text width height fps duration = Ok L ->
  generate_scrolling_text_frames env text width height fps duration
    bg_color text_color = (steps, stop) ->
  (forall (i : nat) (s : step), steps !! i = Some s ->
     frame_idx s = Z.of_nat i
     /\ 0 <= frame_idx s < total_frames L
     /\ truediv (frame_idx s) (Z.max (total_frames L - 1) 1) = Ok (t s)
     /\ (y <- scroll_position L (t s);; int_of_float y)
        = Ok (current_offset s))
  /\ (stop = None -> length steps = Z.to_nat (total_frames L))
  /\ (Z.abs height < 2 ^ 53 -> Z.abs (end_y L - start_y L) < 2 ^ 53 ->
      stop = None
      /\ (1 <= total_frames L ->
          exists s rest, steps = s :: rest /\ t s = zero
                         /\ current_offset s = height)).
Proof.
  intros Hn Hp HL Hgen.
  rewrite (generator_is_loop _ _ _ _ _ _ _ _ L Hn Hp HL) in Hgen.
  destruct (prepare_geometry _ _ _ _ _ _ _ HL) as (_ & Hstart & _ & _).
  pose proof (prepare_image _ _ _ _ _ _ _ HL) as Himg.
  split; [| split].
  - intros i s Hi.
    destruct (frames_loop_lookup _ _ _ _ _ _ _ _ _ Hgen i s Hi) as (k & Hk & Hs).
    apply lookup_seqZ in Hk as [-> Hlt].
    destruct (frame_at_spec _ _ _ _ _ _ _ _ Hs) as (Hidx & Ht & Ho).
    rewrite Hidx. repeat split; try assumption; lia.
  - intros ->. rewrite (frames_loop_length _ _ _ _ _ _ _ _ Hgen).
    apply length_seqZ.
  - intros Hh Hd. rewrite <- Hstart in Hh. split.
    + destruct (frames_loop_total env width height bg_color text_color L
                  (range (total_frames L)) Himg Hh Hd (range_bounds _))
        as (steps' & Hloop).
      rewrite Hloop in Hgen. congruence.
    + intros Htf. unfold range in Hgen.
      rewrite seqZ_cons in Hgen by lia. cbn [frames_loop] in Hgen.
      destruct (frame_at_first env width height bg_color text_color L)
        as (s & Hs & _ & Ht & Ho); [assumption .. |].
      rewrite Hs in Hgen.
      destruct (frames_loop _ _ _ _ _ _ _) as [ss stop'].
      injection Hgen as <- <-. exists s, ss. rewrite Ho, Hstart. auto.
Qed.

Lemma frame_offsets_witness :
  (forall (i : nat) (s : step), short_clip.1 !! i = Some s ->
     frame_idx s = Z.of_nat i
     /\ 0 <= frame_idx s < total_frames short_layout
     /\ truediv (frame_idx s) (Z.max (total_frames short_layout - 1) 1)
        = Ok (t s)
     /\ (y <- scroll_position short_layout (t s);; int_of_float y)
        = Ok (current_offset s))
  /\ short_clip.2 = None
  /\ length short_clip.1 = Z.to_nat (total_frames short_layout)
  /\ exists s rest, short_clip.1 = s :: rest /\ t s = zero
                    /\ current_offset s = 240.
Proof.
  assert (HL : prepare plain_env (lit "Hello world") 320 240 2 3
               = Ok short_layout) by (vm_compute; reflexivity).
  destruct (frame_offsets plain_env (lit "Hello world") 320 240 2 3
              (15, 23, 42) (226, 232, 240) short_layout
              short_clip.1 short_clip.2 eq_refl eq_refl HL)
    as (A & B & C).
  { unfold short_clip. apply surjective_pairing. }
  destruct C as [C1 C2]; [reflexivity | reflexivity |].
  split; [exact A |]. split; [exact C1 |]. split.
  - apply B. exact C1.
  - apply C2. simpl. lia.
Defined.

(** C3 as stated fails: in a clip of 600 frames, 240 high, that scrolls
    from 240 to -480, the frame 1 is at 240 - 720 / 599 = 238.79..., cut to
    238, and the rounded position is 239. *)
Lemma offset_is_not_rounded :
  prepare plain_env (lit "Hello world") 320 240 10 60 = Ok clip_layout
  /\ current_offset <$>
       (generate_scrolling_text_frames plain_env (lit "Hello world")
          320 240 10 60 (15, 23, 42) (226, 232, 240)).1 !! 1%nat
     = Some 238
  /\ (t <- truediv 1 (Z.max (total_frames clip_layout - 1) 1);;
      y <- scroll_position clip_layout t;;
      round_half_even y) = Ok 239.
Proof. repeat split; vm_compute; reflexivity. Qed.

(** C5, as the code has it: with one frame in all, the generator yields
    that one frame at [t = 0], the start of the scroll, where the offset
    is the frame height (the height and the scroll span being floats
    exactly, below 2^53); with no frame or fewer to make it yields none;
    neither is an exception. *)
Theorem single_frame (env : Env) (text : str)
  (width height fps duration : Z) (bg_color text_color : rgb) (L : layout) :
  installed env (lit "numpy") = true -> installed env (lit "PIL") = true ->
  prepare env text width height fps duration = Ok L ->
  (total_frames L = 1 ->
   Z.abs height < 2 ^ 53 -> Z.abs (end_y L - start_y L) < 2 ^ 53 ->
   exists s,
     generate_scrolling_text_frames env text width height fps duration
       bg_color text_color = ([s], None)
     /\ frame_idx s = 0 /\ t s = zero /\ current_offset s = height)
  /\ (total_frames L <= 0 ->
      generate_scrolling_text_frames env text width height fps duration
        bg_color text_color = ([], None)).
Proof.
  intros Hn Hp HL.
  rewrite (generator_is_loop _ _ _ _ _ _ _ _ L Hn Hp HL).
  destruct (prepare_geometry _ _ _ _ _ _ _ HL) as (_ & Hstart & _ & _).
  split.
  - intros -> Hh Hd. change (range 1) with [0]. cbn [frames_loop].
    destruct (frame_at_first env width height bg_color text_color L)
      as (s & Hs & Hi & Ht & Ho);
      [eapply prepare_image; exact HL | rewrite Hstart; assumption
      | assumption |].
    rewrite Hs. exists s. rewrite Ho, Hstart. auto.
  - intros Hle. unfold range. rewrite seqZ_nil by lia. reflexivity.
Qed.

Lemma single_frame_witness :
  (exists s,
     generate_scrolling_text_frames plain_env (lit "Hello world")
       320 240 1 1 (15, 23, 42) (226, 232, 240) = ([s], None)
     /\ frame_idx s = 0 /\ t s = zero /\ current_offset s = 240)
  /\ generate_scrolling_text_frames plain_env (lit "Hello world")
       320 240 1 0 (15, 23, 42) (226, 232, 240) = ([], None).
Proof.
  assert (HL : prepare plain_env (lit "Hello world") 320 240 1 1
               = Ok still_layout) by (vm_compute; reflexivity).
  assert (HL0 : prepare plain_env (lit "Hello world") 320 240 1 0
                = Ok empty_layout) by (vm_compute; reflexivity).
  split.
  - apply (single_frame plain_env (lit "Hello world") 320 240 1 1
             (15, 23, 42) (226, 232, 240) still_layout eq_refl eq_refl HL);
      reflexivity.
  - apply (single_frame plain_env (lit "Hello world") 320 240 1 0
             (15, 23, 42) (226, 232, 240) empty_layout eq_refl eq_refl HL0).
    simpl. lia.
Defined.

(** C5 as stated fails: the one frame of a clip of one frame has
    [t = 0], not [t = 1]. *)
Lemma single_frame_not_at_end :
  exists s,
    generate_scrolling_text_frames plain_env (lit "Hello world")
      320 240 1 1 (15, 23, 42) (226, 232, 240) = ([s], None)
    /\ t s = zero /\ t s <> one.
Proof.
  eexists. split; [vm_compute; reflexivity |]. split; [reflexivity |].
  simpl. intros E. apply (f_equal Prim2SF) in E. vm_compute in E.
  discriminate E.
Qed.

(** ** The request *)

Section RequestProofs.

Variable env : Env.

Lemma import_missing (m : string) :
  installed env (lit m) = false ->
  except_ModuleNotFoundError (import env m) = Raise (dependency_missing (lit m)).
Proof. intros H. unfold import. rewrite H. reflexivity. Qed.

(** numpy and PIL import none of the libraries of the render. *)
Lemma import_leaf (m : string) :
  module_imports (lit m) = [] ->
  import env m
  = if installed env (lit m) then Ok tt else Raise (ModuleNotFoundError (lit m)).
Proof. intros H. unfold import. rewrite H. reflexivity. Qed.

(** imageio is there when numpy is there too. *)
Lemma import_imageio :
  import env "imageio"
  = if installed env (lit "imageio")
    then if installed env (lit "numpy") then Ok tt
         else Raise (ModuleNotFoundError (lit "numpy"))
    else Raise (ModuleNotFoundError (lit "imageio")).
Proof.
  unfold import. change (module_imports (lit "imageio")) with [lit "numpy"].
  cbn [find]. destruct (installed env (lit "imageio")); [| reflexivity].
  destruct (installed env (lit "numpy")); reflexivity.
Qed.

(** The import of imageio returns, or it raises for a library of the
    render that is missing. *)
Lemma import_imageio_cases :
  (installed env (lit "imageio") = true /\ installed env (lit "numpy") = true
   /\ except_ModuleNotFoundError (import env "imageio") = Ok tt)
  \/ exists m, In m required_modules /\ installed env m = false
               /\ except_ModuleNotFoundError (import env "imageio")
                  = Raise (dependency_missing m).
Proof.
  rewrite import_imageio.
  destruct (installed env (lit "imageio")) eqn:Hi.
  - destruct (installed env (lit "numpy")) eqn:Hn.
    + left. auto.
    + right. exists (lit "numpy"). split; [right; left; reflexivity | auto].
  - right. exists (lit "imageio"). split; [left; reflexivity | auto].
Qed.

(** Which library is the first one missing. *)
Lemma first_missing_cases m :
  first_missing env = Some m ->
  (m = lit "imageio" /\ installed env (lit "imageio") = false)
  \/ (installed env (lit "imageio") = true
      /\ ((m = lit "numpy" /\ installed env (lit "numpy") = false)
          \/ (m = lit "PIL" /\ installed env (lit "numpy") = true
              /\ installed env (lit "PIL") = false))).
Proof.
  unfold first_missing, required_modules. cbn [find].
  destruct (installed env (lit "imageio")); cbn [negb].
  - destruct (installed env (lit "numpy")); cbn [negb].
    + destruct (installed env (lit "PIL")); cbn [negb]; [discriminate |].
      intros [= <-]. right. split; [reflexivity |]. right. auto.
    + intros [= <-]. right. split; [reflexivity |]. left. auto.
  - intros [= <-]. left. auto.
Qed.

(** Without numpy or PIL the generator stops before its first frame. *)
Lemma generator_missing text width height fps duration bg_color text_color m :
  (m = lit "numpy" /\ installed env (lit "numpy") = false)
  \/ (m = lit "PIL" /\ installed env (lit "numpy") = true
      /\ installed env (lit "PIL") = false) ->
  generate_scrolling_text_frames env text width height fps duration
    bg_color text_color = ([], Some (dependency_missing m)).
Proof.
  unfold generate_scrolling_text_frames.
  rewrite (import_leaf "numpy" eq_refl), (import_leaf "PIL" eq_refl).
  intros [[-> Hn] | (-> & Hn & Hp)]; rewrite Hn; cbn [bind];
    [| rewrite Hp]; reflexivity.
Qed.

(** Without imageio, or without the numpy that imageio imports, the
    render stops at its first line. *)
Lemma render_missing_imageio text width height fps duration
  background text_color out_path fs m :
  (m = lit "imageio" /\ installed env (lit "imageio") = false)
  \/ (m = lit "numpy" /\ installed env (lit "imageio") = true
      /\ installed env (lit "numpy") = false) ->
  render_text_video env text width height fps duration background text_color
    out_path fs = (Raise (dependency_missing m), fs).
Proof.
  intros H. unfold render_text_video. rewrite import_imageio.
  destruct H as [[-> Hi] | (-> & Hi & Hn)]; rewrite Hi; [| rewrite Hn];
    reflexivity.
Qed.

(** Without PIL alone, the render stops at the first frame it asks for. *)
Lemma render_missing_PIL text width height fps duration
  background text_color out_path fs bg fg :
  installed env (lit "imageio") = true ->
  installed env (lit "numpy") = true -> installed env (lit "PIL") = false ->
  hex_to_rgb (todecimal env) background = Ok bg ->
  hex_to_rgb (todecimal env) text_color = Ok fg ->
  get_writer_error env out_path = None -> close_error env = None ->
  render_text_video env text width height fps duration background text_color
    out_path fs
  = (Raise (dependency_missing (lit "PIL")),
     if writer_creates_on_open env then {[out_path]} ∪ fs else fs).
Proof.
  intros Hi Hn Hp Hbg Hfg Hopen Hclose. unfold render_text_video.
  rewrite import_imageio, Hi, Hn. cbn [except_ModuleNotFoundError].
  rewrite Hbg, Hfg, Hopen.
  rewrite (generator_missing _ _ _ _ _ _ _ (lit "PIL")) by auto.
  cbn [append_frames]. rewrite Hclose. reflexivity.
Qed.

End RequestProofs.

(** C8, as the code has it. For a request whose text is not blank, with
    [m] the first library missing among imageio, numpy, PIL:
    - when it is imageio, or numpy, which imageio imports, the render
      stops at its import of imageio: the request fails with status 500
      and the message that names [m], and the file system is untouched;
    - when it is PIL, the render first parses the two colours and opens
      the writer; if these succeed and the writer closes without an
      exception, the request fails with status 500 and the message that
      names PIL. Nothing is removed on this path: the file system is as
      the writer left it, untouched when the writer creates no file before
      its first frame. *)
Theorem dependency_missing_response (env : Env) (req : GenerateRequest)
  (fs : files) (m : str) :
  truthy (strip (req_text req)) = true ->
  first_missing env = Some m ->
  (m = lit "imageio" \/ m = lit "numpy" ->
   generate_video env req fs = (Raise (dependency_missing m), fs))
  /\ (m = lit "PIL" ->
      (exists c, hex_to_rgb (todecimal env) (req_background req) = Ok c) ->
      (exists c, hex_to_rgb (todecimal env) (req_text_color req) = Ok c) ->
      (forall p, get_writer_error env p = None) ->
      close_error env = None ->
      generate_video env req fs
      = (Raise (dependency_missing m),
         if writer_creates_on_open env then {[out_path_of env]} ∪ fs else fs)).
Proof.
  intros Htext Hm. unfold generate_video. rewrite Htext. cbn [negb].
  destruct (first_missing_cases env m Hm)
    as [[-> Hi] | [Hi [[-> Hn] | (-> & Hn & Hp)]]].
  - split; [| discriminate]. intros _.
    rewrite (render_missing_imageio env _ _ _ _ _ _ _ _ _ (lit "imageio"))
      by auto.
    reflexivity.
  - split; [| discriminate]. intros _.
    rewrite (render_missing_imageio env _ _ _ _ _ _ _ _ _ (lit "numpy"))
      by auto.
    reflexivity.
  - split; [intros [E | E]; discriminate E |].
    intros _ [bg Hbg] [fg Hfg] Hopen Hclose.
    rewrite (render_missing_PIL env _ _ _ _ _ _ _ _ fs bg fg) by auto.
    reflexivity.
Qed.

Lemma dependency_missing_response_witness :
  generate_video (without "imageio" plain_env) (request "Hello world") ∅
  = (Raise (dependency_missing (lit "imageio")), ∅)
  /\ generate_video (without "numpy" plain_env) (request "Hello world") ∅
     = (Raise (dependency_missing (lit "numpy")), ∅)
  /\ generate_video (without "PIL" plain_env) (request "Hello world") ∅
     = (Raise (dependency_missing (lit "PIL")), ∅).
Proof.
  destruct (dependency_missing_response (without "imageio" plain_env)
              (request "Hello world") ∅ (lit "imageio") eq_refl eq_refl)
    as [A _].
  destruct (dependency_missing_response (without "numpy" plain_env)
              (request "Hello world") ∅ (lit "numpy") eq_refl eq_refl)
    as [A' _].
  destruct (dependency_missing_response (without "PIL" plain_env)
              (request "Hello world") ∅ (lit "PIL") eq_refl eq_refl)
    as [_ B].
  split; [apply A; left; reflexivity |].
  split; [apply A'; right; reflexivity |].
  apply B.
  - reflexivity.
  - eexists. vm_compute. reflexivity.
  - eexists. vm_compute. reflexivity.
  - reflexivity.
  - reflexivity.
Defined.

(** C8 as stated fails: with imageio missing, a request whose text is
    blank is answered with the client error 400, which names no library;
    and with PIL missing, a request whose background is not a colour
    fails on the colour, which is parsed before PIL is asked for, with a
    message that does not name PIL. *)
Lemma blank_text_without_imageio :
  (first_missing (without "imageio" plain_env) = Some (lit "imageio")
   /\ generate_video (without "imageio" plain_env) (request "  ") ∅
      = (Raise (HTTPException 400 (lit "Teks tidak boleh kosong")), ∅))
  /\ (first_missing (without "PIL" plain_env) = Some (lit "PIL")
      /\ (generate_video (without "PIL" plain_env)
            {| req_text := lit "Hello world"; req_duration := 60;
               req_width := 1280; req_height := 720; req_fps := 24;
               req_background := lit "ggg";
               req_text_color := lit "#e2e8f0" |} ∅).1
         = Raise (HTTPException 500
                    (lit "Gagal membuat video: invalid literal for int() with base 16: 'gg'"))).
Proof. repeat split; vm_compute; reflexivity. Qed.

(** C10: a colour of three or six characters that are not all hexadecimal
    digits, as [ggg] or [zzzzzz], makes [hex_to_rgb] raise [ValueError]:
    it returns neither a colour nor the fallback; and a request with such
    a colour, for a text that is not blank, fails with status 500. *)
Theorem bad_digits_fail :
  (forall td, hex_to_rgb td (lit "ggg") = Raise (InvalidLiteral 16 (lit "gg")))
  /\ (forall td,
        hex_to_rgb td (lit "zzzzzz") = Raise (InvalidLiteral 16 (lit "zz")))
  /\ (forall (env : Env) (req : GenerateRequest) (fs : files) (e : exn),
        truthy (strip (req_text req)) = true ->
        hex_to_rgb (todecimal env) (req_background req) = Raise e
        \/ hex_to_rgb (todecimal env) (req_text_color req) = Raise e ->
        exists detail,
          (generate_video env req fs).1 = Raise (HTTPException 500 detail)).
Proof.
  split; [intros td; vm_compute; reflexivity |].
  split; [intros td; vm_compute; reflexivity |].
  intros env req fs e Htext Hbad.
  unfold generate_video. rewrite Htext. cbn [negb].
  unfold render_text_video.
  destruct (import_imageio_cases env) as [(_ & _ & ->) | (m & _ & _ & ->)].
  - destruct (hex_to_rgb (todecimal env) (req_background req))
      as [bg | e1] eqn:Hbg.
    + destruct Hbad as [Hbad | Hbad]; [discriminate Hbad |].
      rewrite Hbad. destruct (hex_to_rgb_raises _ _ _ Hbad) as [l ->].
      eexists. reflexivity.
    + destruct (hex_to_rgb_raises _ _ _ Hbg) as [l ->].
      eexists. reflexivity.
  - eexists. reflexivity.
Qed.

Lemma bad_digits_fail_witness :
  exists detail,
    (generate_video plain_env
       {| req_text := lit "Hello world"; req_duration := 60;
          req_width := 1280; req_height := 720; req_fps := 24;
          req_background := lit "ggg"; req_text_color := lit "#e2e8f0" |}
       ∅).1
    = Raise (HTTPException 500 detail).
Proof.
  destruct bad_digits_fail as (_ & _ & H).
  apply (H plain_env _ ∅ (InvalidLiteral 16 (lit "gg"))).
  - reflexivity.
  - left. vm_compute. reflexivity.
Defined.

(** ** More on words and lines *)

Lemma adjacent_snoc {A} (R : A -> A -> Prop) l a b :
  adjacent R (l ++ [a]) -> R a b -> adjacent R ((l ++ [a]) ++ [b]).
Proof.
  induction l as [|x l IH]; intros H Hab; simpl in *.
  - constructor; [assumption | constructor].
  - destruct l as [|y l]; simpl in *.
    + inversion H; subst. constructor; [assumption |].
      constructor; [assumption | constructor].
    + inversion H; subst. constructor; [assumption |]. apply IH; assumption.
Qed.

Lemma adjacent_last {A} (R : A -> A -> Prop) l a a' :
  adjacent R (l ++ [a]) -> (forall x, R x a -> R x a') -> adjacent R (l ++ [a']).
Proof.
  induction l as [|x l IH]; intros H Himp; simpl in *.
  - constructor.
  - destruct l as [|y l]; simpl in *.
    + inversion H; subst. constructor; [auto | constructor].
    + inversion H; subst. constructor; [assumption |]. apply IH; assumption.
Qed.

Lemma adjacent_lookup {A} (R : A -> A -> Prop) l : forall (i : nat) a b,
  adjacent R l -> l !! i = Some a -> l !! S i = Some b -> R a b.
Proof.
  induction l as [|x l IH]; intros i a b H Ha Hb; [discriminate |].
  destruct i as [|i]; simpl in *.
  - injection Ha as ->. destruct l as [|y l]; [discriminate |].
    simpl in Hb. injection Hb as ->. inversion H; assumption.
  - inversion H; subst; [discriminate |]. eapply IH; eassumption.
Qed.

Section GreedyProofs.

Variable textbbox : str -> Z * Z * Z * Z.
Variable max_width : Z.

Lemma break_needed_grow g cur w :
  cur <> [] -> break_needed textbbox max_width g cur ->
  break_needed textbbox max_width g (cur ++ [w]).
Proof. destruct cur; [congruence | intros _ H; exact H]. Qed.

Lemma wrap_step_greedy done st w :
  word w -> greedy_inv textbbox max_width done st ->
  greedy_inv textbbox max_width (done ++ [w]) (wrap_step textbbox max_width st w).
Proof.
  intros Hw (gs & cur & Hgs & Hcur & Hdone & Hadj). destruct st as [ls line].
  simpl in Hgs, Hcur. unfold wrap_step.
  destruct cur as [|a cur'].
  - destruct Hcur as [-> ->].
    rewrite strip_candidate by (assumption || (left; reflexivity)).
    rewrite orb_true_r.
    exists [], [w]. simpl. split; [assumption |].
    split; [apply line_of_single; assumption |].
    split; [rewrite <- Hdone; reflexivity | constructor].
  - destruct Hcur as (Hne & Hwords & Hline & Hfit).
    destruct (join_space_head _ Hne Hwords) as (c & l & Hcl & Hc).
    rewrite strip_candidate
      by (assumption || (right; exists c, l; split; congruence)).
    assert (Ht : match line with [] => w | _ => line ++ space :: w end
                 = join_space ((a :: cur') ++ [w])).
    { rewrite join_space_snoc by assumption. rewrite <- Hline.
      destruct line; [congruence | reflexivity]. }
    rewrite Ht.
    assert (Htruthy : truthy line = true)
      by (destruct line; [congruence | reflexivity]).
    rewrite Htruthy, orb_false_r.
    destruct (Z.leb_spec (bbox_width textbbox (join_space ((a :: cur') ++ [w])))
                max_width) as [Hle | Hgt].
    + exists gs, ((a :: cur') ++ [w]). simpl fst. simpl snd.
      split; [assumption |]. split; [| split].
      * simpl app. split; [not_nil |]. split.
        -- change (a :: cur' ++ [w]) with ((a :: cur') ++ [w]).
           apply Forall_app. split; [assumption |].
           constructor; [assumption | constructor].
        -- split; [reflexivity | left; exact Hle].
      * rewrite <- Hdone. rewrite app_assoc. reflexivity.
      * apply (adjacent_last _ gs (a :: cur')); [assumption |].
        intros g Hg. exact Hg.
    + exists (gs ++ [a :: cur']), [w]. simpl fst. simpl snd.
      split; [| split; [| split]].
      * apply Forall2_app; [assumption |].
        constructor; [| constructor].
        split; [assumption |]. split; [assumption |]. split; assumption.
      * apply line_of_single; assumption.
      * rewrite <- Hdone. rewrite concat_app. simpl. rewrite app_nil_r.
        reflexivity.
      * apply adjacent_snoc; [assumption |]. exact Hgt.
Qed.

Lemma wrap_loop_greedy ws : forall done st,
  Forall word ws -> greedy_inv textbbox max_width done st ->
  greedy_inv textbbox max_width (done ++ ws)
    (fold_left (wrap_step textbbox max_width) ws st).
Proof.
  induction ws as [|w ws IH]; intros done st Hws Hinv; simpl.
  - rewrite app_nil_r. assumption.
  - inversion Hws as [|? ? Hw Hws']; subst.
    replace (done ++ w :: ws) with ((done ++ [w]) ++ ws)
      by (rewrite <- app_assoc; reflexivity).
    apply IH; [assumption |]. apply wrap_step_greedy; assumption.
Qed.

(** The lines of [wrap_text] are the words of the text cut into groups,
    and a group ends only where the next word does not fit. *)
Lemma wrap_text_breaks text :
  exists gs,
    Forall2 (line_of textbbox max_width) gs (wrap_text textbbox text max_width)
    /\ concat gs = split text
    /\ adjacent (break_needed textbbox max_width) gs.
Proof.
  unfold wrap_text.
  assert (Hinv : greedy_inv textbbox max_width ([] ++ split text)
            (fold_left (wrap_step textbbox max_width) (split text) ([], []))).
  { apply wrap_loop_greedy; [apply split_words |].
    exists [], []. simpl. split; [constructor |]. split; [split; reflexivity |].
    split; [reflexivity | constructor]. }
  destruct (fold_left _ _ _) as [ls line].
  destruct Hinv as (gs & cur & Hgs & Hcur & Hdone & Hadj). simpl in *.
  destruct cur as [|a cur'].
  - destruct Hcur as [-> ->]. simpl. exists []. inversion Hgs; subst.
    split; [constructor |]. split; [assumption | constructor].
  - assert (Htruthy : truthy line = true).
    { destruct Hcur as (Hne & Hwords & Hline & _).
      destruct (join_space_head _ Hne Hwords) as (c & l & Hcl & _).
      destruct line; [congruence | reflexivity]. }
    rewrite Htruthy. exists (gs ++ [a :: cur']). split; [| split].
    + apply Forall2_app; [assumption | constructor; [assumption | constructor]].
    + rewrite concat_app. simpl. rewrite app_nil_r. assumption.
    + assumption.
Qed.

End GreedyProofs.

Lemma split_from_blank s : forall cur,
  split_from cur s = [] <-> cur = [] /\ Forall (fun c => isspace c = true) s.
Proof.
  induction s as [|c s IH]; intros cur; simpl.
  - destruct cur; split; try discriminate; intuition (discriminate || auto).
  - destruct (isspace c) eqn:Hc.
    + destruct cur as [|a cur].
      * rewrite IH. split; intros [? H]; (split; [reflexivity |]).
        -- constructor; assumption.
        -- inversion H; assumption.
      * split; [discriminate | intros [? _]; discriminate].
    + rewrite IH. split.
      * intros [E _]. destruct cur; discriminate.
      * intros [_ H]. inversion H; congruence.
Qed.

Lemma split_blank s : split s = [] <-> Forall (fun c => isspace c = true) s.
Proof. unfold split. rewrite split_from_blank. intuition. Qed.

Lemma groups_length {A} (gs : list (list A)) :
  Forall (fun g => g <> []) gs -> (length gs <= length (concat gs))%nat.
Proof.
  induction 1 as [|g gs Hg _ IH]; simpl; [lia |].
  rewrite length_app. destruct g; [congruence | simpl; lia].
Qed.

Lemma line_of_groups textbbox max_width gs ls :
  Forall2 (line_of textbbox max_width) gs ls ->
  Forall (fun g => g <> []) gs /\ length ls = length gs.
Proof.
  induction 1 as [|g l gs ls Hg _ [IH1 IH2]]; [split; [constructor | reflexivity] |].
  split; [constructor; [apply Hg | assumption] | simpl; congruence].
Qed.

(** X1: [wrap_text] returns at most as many lines as the text has words,
    and it returns no line at all exactly when the text is blank: empty,
    or whitespace only. *)
Theorem wrap_text_line_count (textbbox : str -> Z * Z * Z * Z)
  (text : str) (max_width : Z) :
  (length (wrap_text textbbox text max_width) <= length (split text))%nat
  /\ (wrap_text textbbox text max_width = []
      <-> Forall (fun c => isspace c = true) text).
Proof.
  destruct (wrap_text_groups textbbox max_width text) as (gs & Hgs & Hsplit).
  destruct (line_of_groups _ _ _ _ Hgs) as [Hne Hlen].
  pose proof (groups_length gs Hne) as Hle. rewrite Hsplit in Hle.
  split; [lia |]. rewrite <- split_blank. split.
  - intros E. rewrite E in Hlen. destruct gs; [| discriminate].
    symmetry. exact Hsplit.
  - intros E. rewrite E in Hle. simpl in Hle.
    destruct (wrap_text textbbox text max_width); [reflexivity | simpl in *; lia].
Qed.

Lemma strip_join g :
  g <> [] -> Forall word g -> strip (join_space g) = join_space g.
Proof.
  intros Hne Hall. destruct (exists_last Hne) as (g' & w & ->).
  apply Forall_app in Hall as [Hg' Hw]. inversion Hw as [|? ? Hw' _]; subst.
  destruct g' as [|a g'].
  - apply strip_word. assumption.
  - rewrite join_space_snoc by not_nil.
    destruct (join_space_head (a :: g')) as (c & l & -> & Hc);
      [not_nil | assumption |].
    destruct (word_last _ Hw') as (w' & c' & -> & Hc').
    replace ((c :: l) ++ space :: w' ++ [c'])
      with ((c :: l ++ space :: w') ++ [c'])
      by (simpl; rewrite <- app_assoc; reflexivity).
    apply strip_ends; assumption.
Qed.

Lemma split_from_run w : forall cur rest,
  Forall (fun c => isspace c = false) w ->
  split_from cur (w ++ rest) = split_from (cur ++ w) rest.
Proof.
  induction w as [|c w IH]; intros cur rest Hall; simpl.
  - rewrite app_nil_r. reflexivity.
  - inversion Hall as [|? ? Hc Hw]; subst. rewrite Hc.
    rewrite IH by assumption. rewrite <- app_assoc. reflexivity.
Qed.

Lemma split_join g :
  Forall word g -> split (join_space g) = g.
Proof.
  unfold split. induction g as [|w g IH]; intros Hall; [reflexivity |].
  inversion Hall as [|? ? Hw Hg]; subst.
  destruct Hw as [Hne Hw].
  destruct g as [|b g].
  - simpl. rewrite <- (app_nil_r w) at 1.
    rewrite split_from_run by assumption.
    simpl. destruct w; [congruence | reflexivity].
  - rewrite join_space_cons by not_nil.
    rewrite split_from_run by assumption.
    simpl app. cbn [split_from]. rewrite isspace_space.
    rewrite IH by assumption. destruct w; [congruence | reflexivity].
Qed.

(** X2: a line of [wrap_text] is never empty, has no whitespace at its
    ends, and is its own words joined by single spaces. *)
Theorem wrap_text_lines_normal (textbbox : str -> Z * Z * Z * Z)
  (text : str) (max_width : Z) (l : str) :
  In l (wrap_text textbbox text max_width) ->
  l <> [] /\ strip l = l /\ join_space (split l) = l.
Proof.
  intros Hl.
  destruct (wrap_text_groups textbbox max_width text) as (gs & Hgs & _).
  destruct (Forall2_In_r _ _ _ _ Hgs Hl) as (g & _ & Hne & Hwords & -> & _).
  split; [| split].
  - destruct (join_space_head g Hne Hwords) as (c & r & -> & _). discriminate.
  - apply strip_join; assumption.
  - rewrite split_join by assumption. reflexivity.
Qed.

Lemma wrap_text_lines_normal_witness :
  lit "to be" <> [] /\ strip (lit "to be") = lit "to be"
  /\ join_space (split (lit "to be")) = lit "to be".
Proof.
  apply (wrap_text_lines_normal (fun s => (0, 0, 10 * Z.of_nat (length s), 12))
           (lit "  to   be extraordinarily  brief ") 60).
  left. reflexivity.
Defined.

Lemma Forall2_lookup_line {A B} (P : A -> B -> Prop) xs ys (i : nat) y :
  Forall2 P xs ys -> ys !! i = Some y -> exists x, xs !! i = Some x /\ P x y.
Proof.
  intros H. revert i. induction H as [|x y' xs ys Hxy _ IH]; intros i Hi;
    [discriminate |].
  destruct i as [|i]; simpl in *.
  - injection Hi as ->. eauto.
  - apply IH. assumption.
Qed.

(** X3: [wrap_text] breaks a line only where it must: a line followed by
    a space and the first word of the next line is wider than
    [max_width]. *)
Theorem wrap_text_greedy (textbbox : str -> Z * Z * Z * Z)
  (text : str) (max_width : Z) (i : nat) (l l' w : str) :
  wrap_text textbbox text max_width !! i = Some l ->
  wrap_text textbbox text max_width !! S i = Some l' ->
  head (split_on space l') = Some w ->
  max_width < bbox_width textbbox (l ++ space :: w).
Proof.
  intros Hl Hl' Hw.
  destruct (wrap_text_breaks textbbox max_width text) as (gs & Hgs & _ & Hadj).
  destruct (Forall2_lookup_line _ _ _ _ _ Hgs Hl) as (g & Hg & Hne & _ & -> & _).
  destruct (Forall2_lookup_line _ _ _ _ _ Hgs Hl')
    as (g' & Hg' & Hne' & Hwords' & -> & _).
  rewrite split_on_join in Hw by assumption.
  pose proof (adjacent_lookup _ _ _ _ _ Hadj Hg Hg') as Hb.
  destruct g' as [|w' g']; [discriminate |]. injection Hw as ->.
  simpl in Hb. rewrite join_space_snoc in Hb by assumption. exact Hb.
Qed.

Lemma wrap_text_greedy_witness :
  60 < bbox_width (fun s => (0, 0, 10 * Z.of_nat (length s), 12))
         (lit "to be" ++ space :: lit "extraordinarily").
Proof.
  apply (wrap_text_greedy (fun s => (0, 0, 10 * Z.of_nat (length s), 12))
           (lit "to be extraordinarily brief") 60 0%nat
           (lit "to be") (lit "extraordinarily") (lit "extraordinarily"));
    reflexivity.
Defined.

(** X4: a text whose words fit on one line is one line: when every
    two words or more from the start of the text, joined by single spaces,
    are no wider than [max_width], [wrap_text] returns the one line of all
    the words joined by single spaces, however wide the first word is. A
    text of one word is one line whatever its width. *)
Theorem wrap_text_one_line (textbbox : str -> Z * Z * Z * Z)
  (text : str) (max_width : Z) :
  split text <> [] ->
  (forall k : nat, (2 <= k <= length (split text))%nat ->
     bbox_width textbbox (join_space (take k (split text))) <= max_width) ->
  wrap_text textbbox text max_width = [join_space (split text)].
Proof.
  intros Hne Hfit.
  destruct (wrap_text_breaks textbbox max_width text) as (gs & Hgs & Hsplit & Hadj).
  rewrite <- Hsplit in *.
  destruct Hgs as [|g l gs ls Hg Hrest]; [simpl in Hne; congruence |].
  destruct Hrest as [|g' l' gs ls Hg' _].
  - destruct Hg as (_ & _ & -> & _). simpl. rewrite app_nil_r. reflexivity.
  - exfalso. destruct Hg as (Hg & _). destruct Hg' as (Hg' & _).
    inversion Hadj as [| |? ? ? Hb _]; subst.
    destruct g' as [|w g']; [congruence |]. simpl in Hb.
    assert (Hk : (2 <= S (length g)
                  <= length (concat (g :: (w :: g') :: gs)))%nat).
    { split; [destruct g; [congruence | simpl; lia] |].
      simpl. rewrite !length_app. simpl. lia. }
    specialize (Hfit (S (length g)) Hk).
    assert (E : take (S (length g)) (concat (g :: (w :: g') :: gs)) = g ++ [w]).
    { clear. induction g as [|a g IH]; simpl; [reflexivity | f_equal; exact IH]. }
    rewrite E in Hfit. lia.
Qed.

Lemma wrap_text_one_line_witness :
  wrap_text (fun s => (0, 0, 10 * Z.of_nat (length s), 12))
    (lit " to   be ") 60 = [lit "to be"].
Proof.
  apply (wrap_text_one_line (fun s => (0, 0, 10 * Z.of_nat (length s), 12))
           (lit " to   be ") 60).
  - discriminate.
  - intros k [Hk _]. destruct k as [|[|k]]; [lia | lia |].
    destruct k; vm_compute; discriminate.
Defined.

Lemma split_from_whitespace a : forall cur b c c',
  isspace c = true -> isspace c' = true ->
  split_from cur (a ++ c :: b) = split_from cur (a ++ c' :: b).
Proof.
  induction a as [|x a IH]; intros cur b c c' Hc Hc'; simpl.
  - rewrite Hc, Hc'. reflexivity.
  - destruct (isspace x); [destruct cur; [| f_equal] |]; apply IH; assumption.
Qed.

(** X5: only the words of the text count for [wrap_text]: the text with
    its whitespace normalised (the words joined by single spaces) has the
    same lines, and so has the text with one of its whitespace characters,
    a newline say, replaced by a space. A newline of the text never forces
    a new line. *)
Theorem wrap_text_whitespace (textbbox : str -> Z * Z * Z * Z)
  (text : str) (max_width : Z) :
  wrap_text textbbox (join_space (split text)) max_width
  = wrap_text textbbox text max_width
  /\ forall a b c, text = a ++ c :: b -> isspace c = true ->
       wrap_text textbbox (a ++ space :: b) max_width
       = wrap_text textbbox text max_width.
Proof.
  split.
  - unfold wrap_text. rewrite (split_join _ (split_words text)). reflexivity.
  - intros a b c -> Hc. unfold wrap_text, split.
    rewrite (split_from_whitespace a [] b space c isspace_space Hc). reflexivity.
Qed.

Lemma wrap_text_whitespace_witness :
  wrap_text (fun s => (0, 0, 10 * Z.of_nat (length s), 12))
    (lit "to be" ++ space :: lit "brief") 60
  = wrap_text (fun s => (0, 0, 10 * Z.of_nat (length s), 12))
      (lit "to be" ++ 10%N :: lit "brief") 60.
Proof.
  apply (wrap_text_whitespace (fun s => (0, 0, 10 * Z.of_nat (length s), 12))
           (lit "to be" ++ 10%N :: lit "brief") 60);
    reflexivity.
Defined.

(** ** More on colours *)

Lemma digit_value_range c d : PyInt.digit_value c = Some d -> 0 <= d.
Proof.
  unfold PyInt.digit_value.
  destruct (N.leb_spec 0x30 c), (N.leb_spec c 0x39), (N.leb_spec 0x61 c),
    (N.leb_spec c 0x7A), (N.leb_spec 0x41 c), (N.leb_spec c 0x5A);
    simpl; intros [= <-]; lia.
Qed.

Lemma scan_digits_bound s : forall prev acc n v n' rest,
  PyInt.scan_digits 16 prev acc n s = Some (v, n', rest) -> 0 <= acc ->
  acc <= v /\ v + 1 <= (acc + 1) * 16 ^ Z.of_nat (length s).
Proof.
  induction s as [|c s IH]; intros prev acc n v n' rest H Hacc.
  - simpl in H. destruct (prev =? PyInt.underscore)%N; [discriminate |].
    injection H as <- _ _. simpl. lia.
  - assert (Hpow : 16 ^ Z.of_nat (length (c :: s)) = 16 * 16 ^ Z.of_nat (length s)).
    { simpl length. rewrite Nat2Z.inj_succ, Z.pow_succ_r by lia. reflexivity. }
    rewrite Hpow. pose proof (Z.pow_pos_nonneg 16 (Z.of_nat (length s))) as Hp.
    assert (Hstop : (if (prev =? PyInt.underscore)%N then None
                     else Some (acc, n, c :: s)) = Some (v, n', rest) ->
                    acc <= v /\ v + 1 <= (acc + 1) * (16 * 16 ^ Z.of_nat (length s))).
    { destruct (prev =? PyInt.underscore)%N; [discriminate |].
      intros [= <- _ _]. nia. }
    simpl in H. destruct (c =? PyInt.underscore)%N.
    + destruct (prev =? PyInt.underscore)%N; [discriminate |].
      apply IH in H; [| assumption]. nia.
    + destruct (PyInt.digit_value c) as [d |] eqn:Hd; [| auto].
      destruct (Z.ltb_spec d 16) as [Hlt | _]; [| auto].
      apply digit_value_range in Hd.
      apply IH in H; [| lia]. nia.
Qed.

Lemma lstrip_by_length p s : (length (lstrip_by p s) <= length s)%nat.
Proof.
  induction s as [|c s IH]; simpl; [lia |]. destruct (p c); simpl; lia.
Qed.

Lemma take_sign_length s neg r :
  PyInt.take_sign s = (neg, r) ->
  (length r <= length s)%nat /\ (neg = true -> (S (length r) <= length s)%nat).
Proof.
  unfold PyInt.take_sign. intros H.
  repeat match type of H with
         | match ?x with _ => _ end = _ => destruct x
         end;
    injection H as <- <-; simpl; split; (lia || discriminate || (intros _; lia)).
Qed.

Lemma take_prefix16_length s : (length (PyInt.take_prefix16 s) <= length s)%nat.
Proof.
  unfold PyInt.take_prefix16.
  repeat match goal with
         | |- context [match ?x with _ => _ end] => destruct x
         end; simpl; lia.
Qed.

(** [int(s, 16)] of two characters at most. *)
Lemma int16_pair_range td s v :
  PyInt.int16 td s = Ok v -> (length s <= 2)%nat -> -15 <= v <= 255.
Proof.
  unfold PyInt.int16. intros H Hlen.
  pose proof (lstrip_by_length PyInt.c_isspace (map (PyInt.to_ascii td) s)) as H1.
  rewrite length_map in H1.
  destruct (PyInt.take_sign _) as [neg a] eqn:Hs.
  apply take_sign_length in Hs as [H2 H3].
  pose proof (take_prefix16_length a) as H4.
  destruct (PyInt.take_prefix16 a) as [|c a'] eqn:Ea; [discriminate |].
  destruct (c =? PyInt.underscore)%N; [discriminate |].
  destruct (PyInt.scan_digits 16 0 0 0 (c :: a')) as [[[v0 n] rest] |] eqn:Hscan;
    [| discriminate].
  apply scan_digits_bound in Hscan as [Hlo Hhi]; [| lia].
  destruct n; [discriminate |].
  destruct (lstrip_by PyInt.c_isspace rest); [| discriminate].
  injection H as <-.
  assert (Hpow : forall k : nat, (k <= 2)%nat -> 16 ^ Z.of_nat k <= 256)
    by (intros [|[|[|k]]] Hk; simpl; lia).
  assert (Hpow1 : forall k : nat, (k <= 1)%nat -> 16 ^ Z.of_nat k <= 16)
    by (intros [|[|k]] Hk; simpl; lia).
  destruct neg.
  - specialize (H3 eq_refl). specialize (Hpow1 (length (c :: a'))). lia.
  - specialize (Hpow (length (c :: a'))). lia.
Qed.

Lemma slice_length s i j : (length (slice s i j) <= j - i)%nat.
Proof. unfold slice. rewrite length_take. lia. Qed.

(** X6: whatever the string, a channel that [hex_to_rgb] returns lies
    between -15 and 255. The lower bound is below 0 because [int(s, 16)]
    reads a sign: a pair of characters as [-f] is the channel -15. *)
Theorem hex_to_rgb_channels (td : N -> option N) (s : str) (r g b : Z) :
  hex_to_rgb td s = Ok (r, g, b) ->
  -15 <= r <= 255 /\ -15 <= g <= 255 /\ -15 <= b <= 255.
Proof.
  unfold hex_to_rgb. cbv zeta. intros H.
  match type of H with
  | (if ?c then _ else _) = _ => destruct c; [injection H as <- <- <-; lia |]
  end.
  repeat match type of H with
         | bind ?x _ = _ =>
             let E := fresh "E" in
             destruct x eqn:E; cbn [bind] in H; [| discriminate H];
             apply int16_pair_range in E; [| apply slice_length]
         end.
  injection H as <- <- <-. auto.
Qed.

Lemma hex_to_rgb_channels_witness :
  hex_to_rgb ascii_digits_only (lit "-f-f0f") = Ok (-15, -15, 15)
  /\ -15 <= -15 <= 255 /\ -15 <= -15 <= 255 /\ -15 <= 15 <= 255.
Proof.
  split; [reflexivity |].
  apply (hex_to_rgb_channels ascii_digits_only (lit "-f-f0f")). reflexivity.
Defined.

Lemma doubled_ascii td :
  forallb (doubled_parsed td) ascii_points = true.
Proof. vm_compute. reflexivity. Qed.

Lemma ascii_points_In c : (c < 127)%N -> In c ascii_points.
Proof.
  intros Hc. unfold ascii_points. rewrite <- (N2Nat.id c).
  apply in_map. apply in_seq. lia.
Qed.

Lemma int16_doubled td c :
  (c < 127)%N ->
  if is_hex c then PyInt.int16 td [c; c] = Ok (hex_value [c; c])
  else PyInt.int16 td [c; c] = Raise (InvalidLiteral 16 [c; c]).
Proof.
  intros Hc. pose proof (doubled_ascii td) as H.
  rewrite forallb_forall in H. specialize (H c (ascii_points_In c Hc)).
  unfold doubled_parsed in H.
  destruct (is_hex c) eqn:Hh.
  - apply int16_hex_pair; assumption.
  - destruct (PyInt.int16 td [c; c]) eqn:E; [discriminate |].
    apply int16_raises in E. congruence.
Qed.

Lemma lstrip_by_Forall {P : N -> Prop} p s :
  Forall P s -> Forall P (lstrip_by p s).
Proof.
  induction 1 as [|c s Hc Hs IH]; simpl; [constructor |].
  destruct (p c); [assumption | constructor; assumption].
Qed.

Lemma hex_to_rgb_three td s a b c :
  lstrip (lit "#") s = [a; b; c] ->
  hex_to_rgb td s
  = (r <- PyInt.int16 td [a; a];; g <- PyInt.int16 td [b; b];;
     b <- PyInt.int16 td [c; c];; Ok (r, g, b)).
Proof. intros Hs. unfold hex_to_rgb. rewrite Hs. reflexivity. Qed.

(** X7: the shorthand of three characters, all ASCII, after the leading
    [#]s: when the three are hexadecimal digits [hex_to_rgb] returns the
    colour they write, and otherwise it raises the [ValueError] of
    [int(s, 16)] for a character that is not one, doubled. There is no
    third outcome: no fallback colour for a string of length three. *)
Theorem hex_to_rgb_three_ascii (td : N -> option N) (s : str) (a b c : N) :
  lstrip (lit "#") s = [a; b; c] ->
  Forall (fun x => (x < 127)%N) s ->
  (forallb is_hex [a; b; c] = true
   /\ hex_to_rgb td s = Ok (written_rgb [a; b; c]))
  \/ (exists x, In x [a; b; c] /\ is_hex x = false
                /\ hex_to_rgb td s = Raise (InvalidLiteral 16 [x; x])).
Proof.
  intros Hs Hascii.
  apply (lstrip_by_Forall (fun c => existsb (N.eqb c) (lit "#"))) in Hascii.
  fold (lstrip (lit "#") s) in Hascii. rewrite Hs in Hascii.
  inversion Hascii as [|? ? Ha H1]; subst. inversion H1 as [|? ? Hb H2]; subst.
  inversion H2 as [|? ? Hc _]; subst.
  pose proof (int16_doubled td a Ha) as Ea.
  pose proof (int16_doubled td b Hb) as Eb.
  pose proof (int16_doubled td c Hc) as Ec.
  rewrite (hex_to_rgb_three td s a b c Hs).
  destruct (is_hex a) eqn:Hha.
  2:{ right. exists a. rewrite Ea. simpl. auto. }
  destruct (is_hex b) eqn:Hhb.
  2:{ right. exists b. rewrite Ea, Eb. simpl. auto. }
  destruct (is_hex c) eqn:Hhc.
  2:{ right. exists c. rewrite Ea, Eb, Ec. simpl. auto 6. }
  left. rewrite Ea, Eb, Ec. simpl. rewrite Hha, Hhb, Hhc. auto.
Qed.

Lemma hex_to_rgb_three_ascii_witness :
  (forallb is_hex (lit "f0g") = true
   /\ hex_to_rgb ascii_digits_only (lit "#f0g") = Ok (written_rgb (lit "f0g")))
  \/ (exists x, In x (lit "f0g") /\ is_hex x = false
                /\ hex_to_rgb ascii_digits_only (lit "#f0g")
                   = Raise (InvalidLiteral 16 [x; x])).
Proof.
  apply (hex_to_rgb_three_ascii ascii_digits_only (lit "#f0g")).
  - reflexivity.
  - repeat constructor.
Defined.

Lemma hex_to_rgb_hashes td n s :
  hex_to_rgb td (repeat 35%N n ++ s) = hex_to_rgb td s.
Proof. induction n as [|n IH]; [reflexivity | exact IH]. Qed.

Lemma hex_pair_same td a b a' b' :
  is_hex a = true -> is_hex b = true -> is_hex a' = true -> is_hex b' = true ->
  hex_digit_value a = hex_digit_value a' ->
  hex_digit_value b = hex_digit_value b' ->
  PyInt.int16 td [a'; b'] = PyInt.int16 td [a; b].
Proof.
  intros Ha Hb Ha' Hb' Ea Eb.
  destruct (int16_hex_pair td a b Ha Hb) as (-> & _).
  destruct (int16_hex_pair td a' b' Ha' Hb') as (-> & _).
  unfold hex_value. simpl. rewrite Ea, Eb. reflexivity.
Qed.

(** X8: [hex_to_rgb] reads a colour whatever the case of its digits and
    however many [#] come before it: two strings of hexadecimal digits
    with the same digit values, the second after any number of [#], give
    the same result. *)
Theorem hex_to_rgb_case_and_hashes (td : N -> option N) (n : nat) (s s' : str) :
  forallb is_hex s = true -> forallb is_hex s' = true ->
  map hex_digit_value s' = map hex_digit_value s ->
  hex_to_rgb td (repeat 35%N n ++ s') = hex_to_rgb td s.
Proof.
  intros Hs Hs' Hmap. rewrite hex_to_rgb_hashes.
  assert (Hlen : length s' = length s)
    by (rewrite <- (length_map hex_digit_value s'), Hmap; apply length_map).
  unfold hex_to_rgb. cbv zeta.
  assert (Hl : lstrip (lit "#") s = s)
    by (destruct s as [|a s0]; [reflexivity |];
        apply lstrip_hash_hex; simpl in Hs; apply andb_true_iff in Hs as [? _];
        assumption).
  assert (Hl' : lstrip (lit "#") s' = s')
    by (destruct s' as [|a s0]; [reflexivity |];
        apply lstrip_hash_hex; simpl in Hs'; apply andb_true_iff in Hs' as [? _];
        assumption).
  rewrite Hl, Hl', Hlen.
  destruct (Nat.eqb_spec (length s) 3) as [E3 | N3].
  - destruct s as [|a [|b [|c [|]]]]; try discriminate E3.
    destruct s' as [|a' [|b' [|c' [|]]]]; try discriminate Hlen.
    hex_facts Hs. hex_facts Hs'. injection Hmap as Ea Eb Ec.
    unfold slice. simpl.
    rewrite (hex_pair_same td a a a' a'), (hex_pair_same td b b b' b'),
      (hex_pair_same td c c c' c') by (assumption || congruence).
    reflexivity.
  - destruct (Nat.eqb_spec (length s) 6) as [E6 | N6]; [| reflexivity].
    destruct s as [|a [|b [|c [|d [|e [|f [|]]]]]]]; try discriminate E6.
    destruct s' as [|a' [|b' [|c' [|d' [|e' [|f' [|]]]]]]]; try discriminate Hlen.
    hex_facts Hs. hex_facts Hs'. injection Hmap as Ea Eb Ec Ed Ee Ef.
    unfold slice. simpl.
    rewrite (hex_pair_same td a b a' b'), (hex_pair_same td c d c' d'),
      (hex_pair_same td e f e' f') by (assumption || congruence).
    reflexivity.
Qed.

Lemma hex_to_rgb_case_and_hashes_witness :
  hex_to_rgb ascii_digits_only (repeat 35%N 2 ++ lit "E2E8F0")
  = hex_to_rgb ascii_digits_only (lit "e2e8f0").
Proof.
  apply (hex_to_rgb_case_and_hashes ascii_digits_only 2 (lit "e2e8f0") (lit "E2E8F0"));
    reflexivity.
Defined.

(** ** Exact float arithmetic on integers *)

Lemma shr_1_even M :
  0 <= M ->
  shr_1 {| shr_m := 2 * M; shr_r := false; shr_s := false |}
  = {| shr_m := M; shr_r := false; shr_s := false |}.
Proof. destruct M as [|p|p]; intros H; try reflexivity; lia. Qed.

Lemma iter_shr_exact d : forall M,
  0 <= M ->
  SpecFloat.iter_pos shr_1 d
    {| shr_m := M * 2 ^ Z.pos d; shr_r := false; shr_s := false |}
  = {| shr_m := M; shr_r := false; shr_s := false |}.
Proof.
  induction d as [d IH | d IH |]; intros M HM; cbn [SpecFloat.iter_pos].
  - assert (Hp : 0 < 2 ^ Z.pos d) by (apply Z.pow_pos_nonneg; lia).
    replace (M * 2 ^ Z.pos d~1) with (2 * ((M * 2 ^ Z.pos d) * 2 ^ Z.pos d)).
    + rewrite shr_1_even by nia. rewrite IH by nia. apply IH. assumption.
    + assert (E : 2 ^ Z.pos d~1 = 2 * (2 ^ Z.pos d * 2 ^ Z.pos d)).
      { rewrite <- Z.pow_add_r, <- Z.pow_succ_r by lia. f_equal. lia. }
      rewrite E. lia.
  - assert (Hp : 0 < 2 ^ Z.pos d) by (apply Z.pow_pos_nonneg; lia).
    replace (M * 2 ^ Z.pos d~0) with ((M * 2 ^ Z.pos d) * 2 ^ Z.pos d).
    + rewrite IH by nia. apply IH. assumption.
    + assert (E : 2 ^ Z.pos d~0 = 2 ^ Z.pos d * 2 ^ Z.pos d).
      { rewrite <- Z.pow_add_r by lia. f_equal. lia. }
      rewrite E. lia.
  - change (2 ^ 1) with 2. rewrite Z.mul_comm. apply shr_1_even. assumption.
Qed.

Lemma digits_scaled m p j :
  0 <= j -> Z.pos p = Z.pos m * 2 ^ j ->
  Z.pos (digits2_pos p) = Z.pos (digits2_pos m) + j.
Proof.
  intros Hj Hp. rewrite !digits_log2, Hp.
  rewrite Z.log2_mul_pow2 by lia. lia.
Qed.

(** A mantissa of 53 bits followed by zeros is rounded to itself. *)
Lemma binary_round_aux_exact s m j p e :
  Z.pos p = Z.pos m * 2 ^ j -> 0 <= j ->
  Z.pos (digits2_pos m) = 53 -> -1074 <= e <= 971 ->
  binary_round_aux prec emax s (Z.pos p) (e - j) loc_Exact = S754_finite s m e.
Proof.
  intros Hp Hj Hd He.
  rewrite <- (binary_round_aux_canonical s m e Hd He).
  unfold binary_round_aux.
  assert (Hshr : shr_fexp prec emax (Z.pos p) (e - j) loc_Exact
                 = shr_fexp prec emax (Z.pos m) e loc_Exact).
  { unfold shr_fexp, Zdigits2. rewrite (digits_scaled m p j Hj Hp), Hd.
    replace (fexp prec emax (53 + j + (e - j)) - (e - j)) with j
      by (unfold fexp, emin, prec, emax; lia).
    replace (fexp prec emax (53 + e) - e) with 0
      by (unfold fexp, emin, prec, emax; lia).
    cbn [shr_record_of_loc]. destruct j as [|d|d]; [| | lia].
    - simpl. replace (e - 0) with e by lia.
      f_equal. f_equal. lia.
    - cbn [shr]. rewrite Hp, iter_shr_exact by lia.
      f_equal. lia. }
  rewrite Hshr. reflexivity.
Qed.

Lemma shl_align_value m e e' :
  e' <= e -> Z.pos (fst (shl_align m e e')) = Z.pos m * 2 ^ (e - e').
Proof.
  intros Hle. unfold shl_align.
  destruct (e' - e) as [|d|d] eqn:E; simpl fst; try lia.
  - replace (e - e') with 0 by lia. lia.
  - unfold shift_pos. rewrite pos_shift_value. f_equal. f_equal. lia.
Qed.


Lemma int_exponent_range q : Z.pos q < 2 ^ 53 -> -52 <= int_exponent q <= 0.
Proof.
  intros Hq. pose proof (digits2_pos_bound q 53 ltac:(lia) Hq).
  unfold int_exponent. lia.
Qed.

Lemma int_mantissa_value q :
  Z.pos q < 2 ^ 53 ->
  Z.pos (int_mantissa q) = Z.pos q * 2 ^ (- int_exponent q)
  /\ Z.pos (digits2_pos (int_mantissa q)) = 53.
Proof.
  intros Hq. pose proof (int_exponent_range q Hq) as He.
  assert (Hpow : 0 < 2 ^ (- int_exponent q)) by (apply Z.pow_pos_nonneg; lia).
  assert (Hm : Z.pos (int_mantissa q) = Z.pos q * 2 ^ (- int_exponent q))
    by (apply Z2Pos.id; nia).
  split; [exact Hm |].
  rewrite (digits_scaled q _ (- int_exponent q)) by (lia || exact Hm).
  unfold int_exponent. lia.
Qed.

(** An integer below 2^53, times a power of two, is rounded to the
    integer: to its 53 bits. *)
Lemma binary_round_canon s q j p :
  Z.pos q < 2 ^ 53 -> 0 <= j -> Z.pos p = Z.pos q * 2 ^ j ->
  binary_round prec emax s p (- j)
  = S754_finite s (int_mantissa q) (int_exponent q).
Proof.
  intros Hq Hj Hp. unfold binary_round.
  pose proof (int_exponent_range q Hq) as He.
  destruct (int_mantissa_value q Hq) as [Hm Hdm].
  set (e0 := int_exponent q) in *.
  assert (Hfexp : fexp prec emax (Z.pos (digits2_pos p) + - j) = e0).
  { rewrite (digits_scaled q p j Hj Hp).
    unfold e0, int_exponent, fexp, emin, prec, emax. lia. }
  rewrite Hfexp.
  destruct (Z_lt_le_dec e0 (- j)) as [Hlt | Hge].
  - pose proof (shl_align_value p (- j) e0 ltac:(lia)) as Hv.
    pose proof (shl_align_exponent p (- j) e0 ltac:(lia)) as Hx.
    destruct (shl_align p (- j) e0) as [mz ez]. simpl in Hv, Hx. subst ez.
    assert (mz = int_mantissa q) as ->.
    { apply Pos2Z.inj. rewrite Hm, Hv, Hp, <- Z.mul_assoc.
      rewrite <- (Z.pow_add_r 2 j (- j - e0)) by lia.
      f_equal. f_equal. lia. }
    apply binary_round_aux_canonical; [exact Hdm | lia].
  - unfold shl_align. destruct (e0 - - j) as [|d|d] eqn:E; try lia.
    + replace (- j) with (e0 - 0) by lia.
      apply binary_round_aux_exact; [| lia | exact Hdm | lia].
      rewrite Hm, Hp. replace j with (- e0) by lia. change (2 ^ 0) with 1. lia.
    + replace (- j) with (e0 - Z.pos d) by lia.
      apply binary_round_aux_exact; [| lia | exact Hdm | lia].
      rewrite Hm, Hp, <- Z.mul_assoc.
      rewrite <- (Z.pow_add_r 2 (- e0) (Z.pos d)) by lia.
      f_equal. f_equal. lia.
Qed.

Lemma int_sf_pos s q :
  Z.pos q < 2 ^ 53 ->
  binary_round prec emax s q 0 = S754_finite s (int_mantissa q) (int_exponent q)
  /\ valid_binary (S754_finite s (int_mantissa q) (int_exponent q)) = true.
Proof.
  intros Hq.
  assert (E : binary_round prec emax s q 0
              = S754_finite s (int_mantissa q) (int_exponent q)).
  { change 0 with (- 0) at 1. apply binary_round_canon; lia. }
  split; [exact E |].
  destruct (binary_round_exact s q Hq) as (m & e & Hr & Hv & _).
  rewrite E in Hr. rewrite Hr. exact Hv.
Qed.

Lemma int_sf_valid z : Z.abs z < 2 ^ 53 -> valid_binary (int_sf z) = true.
Proof.
  intros Hz. unfold int_sf.
  destruct z as [|q|q]; cbn [binary_normalize]; [reflexivity | |].
  - destruct (int_sf_pos false q ltac:(lia)) as [-> Hv]. exact Hv.
  - destruct (int_sf_pos true q ltac:(lia)) as [-> Hv]. exact Hv.
Qed.

Lemma int_sf_small z : Z.abs z < 2 ^ 53 -> small_sf 53 (int_sf z).
Proof.
  intros Hz. unfold int_sf.
  destruct z as [|q|q]; cbn [binary_normalize]; [exact I | |].
  - destruct (int_sf_pos false q ltac:(lia)) as [-> _].
    destruct (int_mantissa_value q ltac:(lia)) as [_ Hd].
    pose proof (int_exponent_range q ltac:(lia)). simpl. lia.
  - destruct (int_sf_pos true q ltac:(lia)) as [-> _].
    destruct (int_mantissa_value q ltac:(lia)) as [_ Hd].
    pose proof (int_exponent_range q ltac:(lia)). simpl. lia.
Qed.

Lemma Prim2SF_int z :
  Z.abs z < 2 ^ 53 -> Prim2SF (SF2Prim (int_sf z)) = int_sf z.
Proof. intros Hz. apply Prim2SF_SF2Prim. apply int_sf_valid. assumption. Qed.

(** [float(n)], for an integer below 2^53. *)
Lemma float_of_int_sf z :
  Z.abs z < 2 ^ 53 ->
  float_of_int z = Ok (SF2Prim (int_sf z))
  /\ int_of_float (SF2Prim (int_sf z)) = Ok z.
Proof.
  intros Hz. destruct (float_of_int_exact z Hz) as (f & Hf & _ & Hi).
  assert (E : float_of_int z = Ok (SF2Prim (int_sf z))).
  { unfold float_of_int. fold (int_sf z).
    rewrite (is_infinity_small 53); [reflexivity |].
    rewrite Prim2SF_int by assumption. apply int_sf_small. assumption. }
  split; [exact E |]. congruence.
Qed.

(** A float of 53 bits times one is itself. *)
Lemma int_sf_mul_one z :
  Z.abs z < 2 ^ 53 -> SFmul prec emax (int_sf z) (Prim2SF one) = int_sf z.
Proof.
  intros Hz. change (Prim2SF one) with (S754_finite false 4503599627370496 (-52)).
  unfold int_sf. destruct z as [|q|q]; cbn [binary_normalize]; [reflexivity | |].
  - destruct (int_sf_pos false q ltac:(lia)) as [-> _].
    destruct (int_mantissa_value q ltac:(lia)) as [_ Hd].
    pose proof (int_exponent_range q ltac:(lia)).
    cbn [SFmul xorb].
    replace (int_exponent q + -52) with (int_exponent q - 52) by lia.
    apply binary_round_aux_exact; [| lia | exact Hd | lia].
    rewrite Pos2Z.inj_mul. reflexivity.
  - destruct (int_sf_pos true q ltac:(lia)) as [-> _].
    destruct (int_mantissa_value q ltac:(lia)) as [_ Hd].
    pose proof (int_exponent_range q ltac:(lia)).
    cbn [SFmul xorb].
    replace (int_exponent q + -52) with (int_exponent q - 52) by lia.
    apply binary_round_aux_exact; [| lia | exact Hd | lia].
    rewrite Pos2Z.inj_mul. reflexivity.
Qed.

(** The form of the float of an integer that is not zero. *)
Lemma int_sf_form z :
  Z.abs z < 2 ^ 53 -> z <> 0 ->
  exists m e,
    int_sf z = S754_finite (z <? 0) m e
    /\ cond_Zopp (z <? 0) (Z.pos m) = z * 2 ^ (- e)
    /\ -52 <= e <= 0.
Proof.
  intros Hz Hne. unfold int_sf.
  destruct z as [|q|q]; cbn [binary_normalize]; [congruence | |].
  - destruct (int_sf_pos false q ltac:(lia)) as [-> _].
    destruct (int_mantissa_value q ltac:(lia)) as [Hm _].
    exists (int_mantissa q), (int_exponent q).
    split; [reflexivity |]. split; [exact Hm | apply int_exponent_range; lia].
  - destruct (int_sf_pos true q ltac:(lia)) as [-> _].
    destruct (int_mantissa_value q ltac:(lia)) as [Hm _].
    exists (int_mantissa q), (int_exponent q).
    split; [reflexivity |].
    split; [| apply int_exponent_range; lia].
    change (Z.neg q <? 0) with true. cbn [cond_Zopp]. rewrite Hm. lia.
Qed.

Lemma binary_normalize_scaled z k :
  Z.abs z < 2 ^ 53 -> 0 <= k ->
  binary_normalize prec emax (z * 2 ^ k) (- k) false = int_sf z.
Proof.
  intros Hz Hk. unfold int_sf.
  assert (Hpow : 0 < 2 ^ k) by (apply Z.pow_pos_nonneg; lia).
  destruct z as [|q|q].
  - reflexivity.
  - destruct (Z.pos q * 2 ^ k) as [|p|p] eqn:E; try lia.
    cbn [binary_normalize]. destruct (int_sf_pos false q ltac:(lia)) as [-> _].
    apply binary_round_canon; lia.
  - destruct (Z.neg q * 2 ^ k) as [|p|p] eqn:E; try lia.
    cbn [binary_normalize]. destruct (int_sf_pos true q ltac:(lia)) as [-> _].
    apply binary_round_canon; lia.
Qed.

(** The sum of two integers, as floats, is the float of the sum when all
    three are below 2^53. *)
Lemma int_sf_add x y :
  Z.abs x < 2 ^ 53 -> Z.abs y < 2 ^ 53 -> Z.abs (x + y) < 2 ^ 53 ->
  SFadd prec emax (int_sf x) (int_sf y) = int_sf (x + y).
Proof.
  intros Hx Hy Hxy.
  destruct (Z.eq_dec x 0) as [-> | Hx0].
  { change (int_sf 0) with (S754_zero false). rewrite Z.add_0_l.
    destruct (Z.eq_dec y 0) as [-> | Hy0]; [reflexivity |].
    destruct (int_sf_form y Hy Hy0) as (m & e & E & _). rewrite E. reflexivity. }
  destruct (int_sf_form x Hx Hx0) as (mx & ex & Ex & Hmx & Hex).
  destruct (Z.eq_dec y 0) as [-> | Hy0].
  { change (int_sf 0) with (S754_zero false). rewrite Z.add_0_r, Ex. reflexivity. }
  destruct (int_sf_form y Hy Hy0) as (my & ey & Ey & Hmy & Hey).
  rewrite Ex, Ey. cbn [SFadd].
  change (IntDef.Z.min ex ey) with (Z.min ex ey).
  set (ez := Z.min ex ey).
  pose proof (shl_align_value mx ex ez ltac:(lia)) as Hax.
  pose proof (shl_align_value my ey ez ltac:(lia)) as Hay.
  assert (Hsum : cond_Zopp (x <? 0) (Z.pos (fst (shl_align mx ex ez)))
                 + cond_Zopp (y <? 0) (Z.pos (fst (shl_align my ey ez)))
                 = (x + y) * 2 ^ (- ez)).
  { rewrite Hax, Hay.
    assert (Hc : forall (b : bool) u v, cond_Zopp b (u * v) = cond_Zopp b u * v)
      by (intros [] u v; simpl; lia).
    rewrite !Hc, Hmx, Hmy, <- !Z.mul_assoc, <- !Z.pow_add_r by lia.
    replace (- ex + (ex - ez)) with (- ez) by lia.
    replace (- ey + (ey - ez)) with (- ez) by lia. lia. }
  rewrite Hsum.
  replace ez with (- - ez) at 2 by lia.
  apply binary_normalize_scaled; [assumption | lia].
Qed.

(** [n / n] is 1.0. *)
Lemma truediv_self n : 0 < n -> truediv n n = Ok one.
Proof.
  intros Hn. destruct n as [|a|a]; try lia.
  unfold truediv. cbn -[round_quotient SF2Prim is_infinity].
  change (Z.to_pos (Z.abs (Z.pos a))) with a.
  assert (E : round_quotient false a a = S754_finite false 4503599627370496 (-52)).
  { unfold round_quotient.
    replace (55 - Z.log2 (Z.pos a) + Z.log2 (Z.pos a)) with 55 by lia.
    change (Z.max 0 55) with 55.
    rewrite (Z.mul_comm (Z.pos a)), Z.mod_mul, Z.div_mul by lia.
    reflexivity. }
  rewrite E. reflexivity.
Qed.

(** [start + (end - start) * 1.0] is [end], for integers below 2^53. *)
Lemma scroll_position_one L :
  Z.abs (start_y L) < 2 ^ 53 -> Z.abs (end_y L - start_y L) < 2 ^ 53 ->
  Z.abs (end_y L) < 2 ^ 53 ->
  (y <- scroll_position L one;; int_of_float y) = Ok (end_y L).
Proof.
  intros Hs Hd He. unfold scroll_position, int_mul_float, int_add_float.
  destruct (float_of_int_sf _ Hd) as [-> _].
  destruct (float_of_int_sf _ Hs) as [-> _]. cbn [bind].
  destruct (float_of_int_sf _ He) as [_ <-]. f_equal.
  rewrite <- (SF2Prim_Prim2SF (_ + _)%float). f_equal.
  rewrite add_spec, mul_spec, !Prim2SF_int by assumption.
  rewrite int_sf_mul_one by assumption.
  rewrite int_sf_add by (assumption || (replace (start_y L + (end_y L - start_y L)) with (end_y L) by lia; assumption)).
  f_equal. lia.
Qed.

(** ** More on frames *)

Lemma draw_lines_lookup text_color L ls : forall y (k : nat) line,
  ls !! k = Some line ->
  draw_lines text_color L y ls !! k = Some (line_call text_color L y k line).
Proof.
  induction ls as [|l ls IH]; intros y k line Hk; [discriminate |].
  destruct k as [|k]; simpl in *.
  - injection Hk as ->. unfold line_call. do 2 f_equal. simpl. lia.
  - rewrite (IH _ _ _ Hk). unfold line_call. do 2 f_equal. lia.
Qed.

Lemma draw_lines_length text_color L ls : forall y,
  length (draw_lines text_color L y ls) = length ls.
Proof. induction ls as [|l ls IH]; intros y; simpl; [reflexivity | f_equal; apply IH]. Qed.

Lemma draw_lines_In text_color L ls y c :
  In c (draw_lines text_color L y ls) ->
  exists (k : nat) line, ls !! k = Some line /\ c = line_call text_color L y k line.
Proof.
  intros Hin. apply list_elem_of_In, list_elem_of_lookup in Hin as [k Hk].
  assert (Hlt : (k < length ls)%nat).
  { rewrite <- (draw_lines_length text_color L ls y). eapply lookup_lt_Some; eassumption. }
  destruct (lookup_lt_is_Some_2 ls k Hlt) as [line Hl].
  exists k, line. split; [assumption |].
  rewrite (draw_lines_lookup _ _ _ _ _ _ Hl) in Hk. congruence.
Qed.

Section FrameMore.

Variable env : Env.
Variables (text : str) (width height fps duration : Z) (bg_color text_color : rgb).

Lemma frame_at_frame L k s :
  frame_at env width height bg_color text_color L k = Ok s ->
  frame s = {| img_size := (width, height); img_color := bg_color;
               img_texts := draw_lines text_color L (current_offset s) (lines L) |}.
Proof.
  unfold frame_at, Image_new. intros H.
  destruct (image_new_check env (width, height)) as [[] |]; cbn [bind] in H.
  - repeat match type of H with
           | bind ?x _ = _ => destruct x; cbn [bind] in H; [| discriminate H]
           end.
    injection H as <-. reflexivity.
  - repeat match type of H with
           | bind ?x _ = _ => destruct x; cbn [bind] in H; [| discriminate H]
           end.
    discriminate H.
Qed.

(** A generator that yields a frame has its layout. *)
Lemma generator_layout steps stop :
  generate_scrolling_text_frames env text width height fps duration
    bg_color text_color = (steps, stop) ->
  steps <> [] ->
  exists L, prepare env text width height fps duration = Ok L
            /\ frames_loop env width height bg_color text_color L
                 (range (total_frames L)) = (steps, stop).
Proof.
  unfold generate_scrolling_text_frames. intros H Hne.
  destruct (except_ModuleNotFoundError _); [| injection H as <- _; congruence].
  destruct (prepare env text width height fps duration) as [L |];
    [| injection H as <- _; congruence].
  exists L. auto.
Qed.

(** The last frame: [t] is 1 and the text is at [end_y]. *)
Lemma frame_at_last L s :
  1 < total_frames L ->
  Z.abs (start_y L) < 2 ^ 53 -> Z.abs (end_y L - start_y L) < 2 ^ 53 ->
  Z.abs (end_y L) < 2 ^ 53 ->
  frame_at env width height bg_color text_color L (total_frames L - 1) = Ok s ->
  t s = one /\ current_offset s = end_y L.
Proof.
  intros Htf Hs Hd He H.
  destruct (frame_at_spec _ _ _ _ _ _ _ _ H) as (_ & Ht & Ho).
  replace (Z.max (total_frames L - 1) 1) with (total_frames L - 1) in Ht by lia.
  rewrite truediv_self in Ht by lia. injection Ht as Ht.
  rewrite <- Ht, scroll_position_one in Ho by assumption.
  split; congruence.
Qed.

Lemma frames_loop_last L steps s :
  frames_loop env width height bg_color text_color L (range (total_frames L))
  = (steps, None) ->
  last steps = Some s ->
  frame_at env width height bg_color text_color L (total_frames L - 1) = Ok s.
Proof.
  intros Hloop Hlast. rewrite last_lookup in Hlast.
  destruct (frames_loop_lookup _ _ _ _ _ _ _ _ _ Hloop _ _ Hlast) as (k & Hk & Hs).
  rewrite (frames_loop_length _ _ _ _ _ _ _ _ Hloop) in Hk.
  unfold range in Hk. rewrite length_seqZ in Hk.
  apply lookup_seqZ in Hk as [-> Hlt].
  assert (Hpos : 0 < total_frames L) by lia.
  replace (0 + Z.of_nat (Nat.pred (Z.to_nat (total_frames L))))
    with (total_frames L - 1) in Hs by lia.
  exact Hs.
Qed.

End FrameMore.

(** X9: every frame the generator yields is an image of [width] by
    [height] in the background colour on which every line of the layout is
    drawn once, in order: the line [k] at [x = margin_x] and
    [y = current_offset + k * line_spacing], in the font of the layout and
    the text colour. *)
Theorem frame_contents (env : Env) (text : str)
  (width height fps duration : Z) (bg_color text_color : rgb)
  (steps : list step) (stop : option exn) (s : step) :
  generate_scrolling_text_frames env text width height fps duration
    bg_color text_color = (steps, stop) ->
  In s steps ->
  exists L,
    prepare env text width height fps duration = Ok L
    /\ img_size (frame s) = (width, height)
    /\ img_color (frame s) = bg_color
    /\ length (img_texts (frame s)) = length (lines L)
    /\ forall (k : nat) (line : str), lines L !! k = Some line ->
         img_texts (frame s) !! k
         = Some {| text_x := margin_x L;
                   text_y := current_offset s + Z.of_nat k * line_spacing L;
                   text_line := line; text_font := lay_font L;
                   text_fill := text_color |}.
Proof.
  intros Hgen Hin.
  destruct (generator_layout _ _ _ _ _ _ _ _ _ _ Hgen) as (L & HL & Hloop).
  { intros ->. destruct Hin. }
  apply list_elem_of_In, list_elem_of_lookup in Hin as [i Hi].
  destruct (frames_loop_lookup _ _ _ _ _ _ _ _ _ Hloop _ _ Hi) as (k & _ & Hs).
  apply frame_at_frame in Hs. exists L. rewrite Hs. simpl.
  split; [assumption |]. split; [reflexivity |]. split; [reflexivity |].
  split; [apply draw_lines_length |].
  intros j line Hj. apply (draw_lines_lookup _ _ _ _ _ _ Hj).
Qed.

Lemma frame_contents_witness :
  exists s, short_clip.1 !! 1%nat = Some s /\
  exists L,
    prepare plain_env (lit "Hello world") 320 240 2 3 = Ok L
    /\ img_size (frame s) = (320, 240)
    /\ img_color (frame s) = (15, 23, 42)
    /\ length (img_texts (frame s)) = length (lines L)
    /\ forall (k : nat) (line : str), lines L !! k = Some line ->
         img_texts (frame s) !! k
         = Some {| text_x := margin_x L;
                   text_y := current_offset s + Z.of_nat k * line_spacing L;
                   text_line := line; text_font := lay_font L;
                   text_fill := (226, 232, 240) |}.
Proof.
  destruct (short_clip.1 !! 1%nat) as [s |] eqn:E; [| vm_compute in E; discriminate E].
  exists s. split; [reflexivity |].
  apply (frame_contents plain_env (lit "Hello world") 320 240 2 3
           (15, 23, 42) (226, 232, 240) short_clip.1 short_clip.2 s).
  - unfold short_clip. destruct (generate_scrolling_text_frames _ _ _ _ _ _ _ _).
    reflexivity.
  - apply list_elem_of_In. eapply list_elem_of_lookup_2. exact E.
Defined.

(** X10: when there are two frames or more, the last frame has the index
    [total_frames - 1], [t = 1.0] exactly, and its offset is [end_y]
    exactly: the float arithmetic loses nothing there (the height, the
    scroll span and [end_y] being below 2^53). *)
Theorem last_frame (env : Env) (text : str)
  (width height fps duration : Z) (bg_color text_color : rgb)
  (L : layout) (steps : list step) (stop : option exn) :
  installed env (lit "numpy") = true -> installed env (lit "PIL") = true ->
  prepare env text width height fps duration = Ok L ->
  generate_scrolling_text_frames env text width height fps duration
    bg_color text_color = (steps, stop) ->
  1 < total_frames L ->
  Z.abs height < 2 ^ 53 -> Z.abs (end_y L - start_y L) < 2 ^ 53 ->
  Z.abs (end_y L) < 2 ^ 53 ->
  exists s, last steps = Some s
            /\ frame_idx s = total_frames L - 1
            /\ t s = one
            /\ current_offset s = end_y L.
Proof.
  intros Hn Hp HL Hgen Htf Hh Hd He.
  rewrite (generator_is_loop _ _ _ _ _ _ _ _ L Hn Hp HL) in Hgen.
  destruct (prepare_geometry _ _ _ _ _ _ _ HL) as (_ & Hstart & _ & _).
  rewrite <- Hstart in Hh.
  destruct (frames_loop_total env width height bg_color text_color L
              (range (total_frames L)) (prepare_image _ _ _ _ _ _ _ HL)
              Hh Hd (range_bounds _)) as (steps' & Hloop).
  assert (steps' = steps /\ stop = None) as [-> ->] by (split; congruence).
  pose proof (frames_loop_length _ _ _ _ _ _ _ _ Hloop) as Hlen.
  unfold range in Hlen. rewrite length_seqZ in Hlen.
  destruct (last steps) as [s |] eqn:Hlast.
  - exists s. split; [reflexivity |].
    pose proof (frames_loop_last _ _ _ _ _ _ _ _ Hloop Hlast) as Hs.
    destruct (frame_at_spec _ _ _ _ _ _ _ _ Hs) as (Hidx & _).
    destruct (frame_at_last _ _ _ _ _ _ _ Htf Hh Hd He Hs) as [Ht Ho]. auto.
  - apply last_None in Hlast. subst steps. simpl in Hlen. lia.
Qed.

Lemma last_frame_witness :
  exists s, last short_clip.1 = Some s
            /\ frame_idx s = total_frames short_layout - 1
            /\ t s = one
            /\ current_offset s = end_y short_layout.
Proof.
  apply (last_frame plain_env (lit "Hello world") 320 240 2 3
           (15, 23, 42) (226, 232, 240) short_layout short_clip.1 short_clip.2).
  - reflexivity.
  - reflexivity.
  - vm_compute. reflexivity.
  - unfold short_clip. destruct (generate_scrolling_text_frames _ _ _ _ _ _ _ _).
    reflexivity.
  - reflexivity.
  - simpl. lia.
  - simpl. lia.
  - simpl. lia.
Defined.

(** X11: the scroll starts and ends off the screen. With a line spacing
    that is not negative, every line of the first frame is drawn at the
    lower edge of the frame or below ([y >= height]), and every line of the
    last frame ends a frame height above the upper edge or higher
    ([y + line_spacing <= - height]). *)
Theorem scroll_off_screen (env : Env) (text : str)
  (width height fps duration : Z) (bg_color text_color : rgb)
  (L : layout) (steps : list step) (stop : option exn) :
  installed env (lit "numpy") = true -> installed env (lit "PIL") = true ->
  prepare env text width height fps duration = Ok L ->
  generate_scrolling_text_frames env text width height fps duration
    bg_color text_color = (steps, stop) ->
  1 < total_frames L -> 0 <= line_spacing L ->
  Z.abs height < 2 ^ 53 -> Z.abs (end_y L - start_y L) < 2 ^ 53 ->
  Z.abs (end_y L) < 2 ^ 53 ->
  exists first last_one,
    head steps = Some first /\ last steps = Some last_one
    /\ (forall c, In c (img_texts (frame first)) -> height <= text_y c)
    /\ (forall c, In c (img_texts (frame last_one)) ->
          text_y c + line_spacing L <= - height).
Proof.
  intros Hn Hp HL Hgen Htf Hls Hh Hd He.
  rewrite (generator_is_loop _ _ _ _ _ _ _ _ L Hn Hp HL) in Hgen.
  destruct (prepare_geometry _ _ _ _ _ _ _ HL) as (Htth & Hstart & Hend & _).
  rewrite <- Hstart in Hh.
  destruct (frames_loop_total env width height bg_color text_color L
              (range (total_frames L)) (prepare_image _ _ _ _ _ _ _ HL)
              Hh Hd (range_bounds _)) as (steps' & Hloop).
  assert (steps' = steps /\ stop = None) as [-> ->] by (split; congruence).
  pose proof (frames_loop_length _ _ _ _ _ _ _ _ Hloop) as Hlen.
  unfold range in Hlen. rewrite length_seqZ in Hlen.
  destruct (last steps) as [sl |] eqn:Hlast;
    [| apply last_None in Hlast; subst steps; simpl in Hlen; lia].
  destruct steps as [|sf rest] eqn:Est; [simpl in Hlen; lia |].
  exists sf, sl. split; [reflexivity |]. split; [reflexivity |].
  assert (Hf : frame_at env width height bg_color text_color L 0 = Ok sf).
  { destruct (frames_loop_lookup _ _ _ _ _ _ _ _ _ Hloop 0%nat sf eq_refl)
      as (k & Hk & Hs).
    apply lookup_seqZ in Hk as [-> _]. exact Hs. }
  pose proof (frames_loop_last _ _ _ _ _ _ _ _ Hloop Hlast) as Hl.
  destruct (frame_at_first env width height bg_color text_color L
              (prepare_image _ _ _ _ _ _ _ HL) Hh Hd)
    as (s0 & Hs0 & _ & _ & Ho0).
  assert (s0 = sf) as -> by congruence.
  destruct (frame_at_last _ _ _ _ _ _ _ Htf Hh Hd He Hl) as [_ Hol].
  rewrite (frame_at_frame _ _ _ _ _ _ _ _ Hf), (frame_at_frame _ _ _ _ _ _ _ _ Hl).
  cbn [img_texts]. rewrite Ho0, Hol. split.
  - intros c Hc. apply draw_lines_In in Hc as (k & line & _ & ->).
    simpl. nia.
  - intros c Hc. apply draw_lines_In in Hc as (k & line & Hk & ->).
    apply lookup_lt_Some in Hk. simpl. nia.
Qed.

Lemma scroll_off_screen_witness :
  exists first last_one,
    head short_clip.1 = Some first /\ last short_clip.1 = Some last_one
    /\ (forall c, In c (img_texts (frame first)) -> 240 <= text_y c)
    /\ (forall c, In c (img_texts (frame last_one)) ->
          text_y c + line_spacing short_layout <= - 240).
Proof.
  apply (scroll_off_screen plain_env (lit "Hello world") 320 240 2 3
           (15, 23, 42) (226, 232, 240) short_layout short_clip.1 short_clip.2).
  - reflexivity.
  - reflexivity.
  - vm_compute. reflexivity.
  - unfold short_clip. destruct (generate_scrolling_text_frames _ _ _ _ _ _ _ _).
    reflexivity.
  - reflexivity.
  - simpl. lia.
  - simpl. lia.
  - simpl. lia.
  - simpl. lia.
Defined.

Lemma margins_checked :
  forallb (scaled_exactly 0.08 8 100) valid_widths = true.
Proof. vm_compute. reflexivity. Qed.

Lemma font_sizes_checked :
  forallb (scaled_exactly 0.05 1 20) valid_heights = true.
Proof. vm_compute. reflexivity. Qed.

Lemma spacings_checked : forallb spacing_checked glyph_heights = true.
Proof. vm_compute. reflexivity. Qed.

Lemma forallb_seqZ (P : Z -> bool) m n k :
  forallb P (seqZ m n) = true -> m <= k < m + n -> P k = true.
Proof.
  intros H Hk. rewrite forallb_forall in H. apply H.
  apply list_elem_of_In, elem_of_seqZ. exact Hk.
Qed.

Section LayoutMore.

Variable env : Env.
Variables (text : str) (width height fps duration : Z).

Lemma prepare_fields L :
  prepare env text width height fps duration = Ok L ->
  (x <- int_mul_float width 0.08;; int_of_float x) = Ok (margin_x L)
  /\ max_text_width L = width - 2 * margin_x L
  /\ lay_font L = load_font env height
  /\ lines L = wrap_text (textbbox env (lay_font L)) text (max_text_width L)
  /\ (x <- int_mul_float (textbbox env (lay_font L) (lit "Ay")).2 1.4;;
      int_of_float x) = Ok (line_spacing L).
Proof.
  unfold prepare. intros H.
  destruct (image_new_check env (width, height)) as [[] |];
    cbn [bind] in H; [| discriminate H].
  destruct (x <- int_mul_float width 0.08;; int_of_float x) as [mx |];
    cbn [bind] in H; [| discriminate H].
  destruct (textbbox env (load_font env height) (lit "Ay"))
    as [[[x0 y0] x1] bottom] eqn:Eb.
  destruct (x <- int_mul_float bottom 1.4;; int_of_float x) as [ls |] eqn:Els;
    cbn [bind] in H; [| discriminate H].
  injection H as <-. cbn [margin_x max_text_width lay_font lines line_spacing].
  rewrite Eb. auto 6.
Qed.

End LayoutMore.

(** X12: for a width and a height that [GenerateRequest] lets through
    (320 to 1920, 240 to 1080), the float products of the layout are the
    exact ones cut down: the margin is [8 * width / 100], the text area
    [width - 2 * margin_x] is 84 percent of the width and at most 2 pixels
    more, and the font asked for is DejaVuSans at [height / 20]; the lines
    of the layout are [wrap_text] of the text at that width, measured in
    the font of the layout. *)
Theorem validated_layout (env : Env) (text : str)
  (width height fps duration : Z) (L : layout) :
  320 <= width <= 1920 -> 240 <= height <= 1080 ->
  prepare env text width height fps duration = Ok L ->
  margin_x L = 8 * width / 100
  /\ max_text_width L = width - 2 * (8 * width / 100)
  /\ 84 * width <= 100 * max_text_width L <= 84 * width + 198
  /\ lay_font L
     = (if truetype_loads env (lit "DejaVuSans.ttf") (height / 20)
        then TrueType (lit "DejaVuSans.ttf") (height / 20)
        else DefaultFont)
  /\ lines L = wrap_text (textbbox env (lay_font L)) text (max_text_width L).
Proof.
  intros Hw Hh HL.
  destruct (prepare_fields _ _ _ _ _ _ _ HL) as (Hm & Hmax & Hfont & Hlines & _).
  pose proof (forallb_seqZ _ _ _ width margins_checked ltac:(lia)) as Cw.
  pose proof (forallb_seqZ _ _ _ height font_sizes_checked ltac:(lia)) as Ch.
  unfold scaled_exactly in Cw, Ch. rewrite Hm in Cw.
  apply Z.eqb_eq in Cw.
  assert (Hmx : margin_x L = 8 * width / 100)
    by (rewrite Cw; f_equal; lia).
  split; [exact Hmx |]. split; [lia |]. split.
  - rewrite Hmax, Hmx.
    pose proof (Z.div_mod (8 * width) 100 ltac:(lia)).
    pose proof (Z.mod_pos_bound (8 * width) 100 ltac:(lia)). lia.
  - split; [| exact Hlines]. rewrite Hfont. unfold load_font.
    destruct (x <- int_mul_float height 0.05;; int_of_float x) as [z |];
      [| discriminate Ch].
    apply Z.eqb_eq in Ch. rewrite Z.mul_1_r in Ch. subst z. reflexivity.
Qed.

Lemma validated_layout_witness :
  margin_x hello_layout = 8 * 1280 / 100
  /\ max_text_width hello_layout = 1280 - 2 * (8 * 1280 / 100)
  /\ 84 * 1280 <= 100 * max_text_width hello_layout <= 84 * 1280 + 198
  /\ lay_font hello_layout
     = (if truetype_loads plain_env (lit "DejaVuSans.ttf") (720 / 20)
        then TrueType (lit "DejaVuSans.ttf") (720 / 20)
        else DefaultFont)
  /\ lines hello_layout
     = wrap_text (textbbox plain_env (lay_font hello_layout)) (lit "Hello world")
         (max_text_width hello_layout).
Proof.
  apply (validated_layout plain_env (lit "Hello world") 1280 720 24 60).
  - lia.
  - lia.
  - vm_compute. reflexivity.
Defined.

(** X13: the line spacing is [int(bottom * 1.4)] in floats, for the
    height [bottom] of the glyphs [Ay], from 0 to 1080: it is the exact
    [7 * bottom / 5] cut down when [bottom] is no multiple of 5, and for a
    multiple of 5 that or one pixel less, because the float 1.4 is below
    7/5. *)
Theorem line_spacing_cut (env : Env) (text : str)
  (width height fps duration : Z) (L : layout) (bottom : Z) :
  prepare env text width height fps duration = Ok L ->
  (textbbox env (lay_font L) (lit "Ay")).2 = bottom ->
  0 <= bottom <= 1080 ->
  7 * bottom / 5 - 1 <= line_spacing L <= 7 * bottom / 5
  /\ (bottom mod 5 <> 0 -> line_spacing L = 7 * bottom / 5).
Proof.
  intros HL Hb Hr.
  destruct (prepare_fields _ _ _ _ _ _ _ HL) as (_ & _ & _ & _ & Hls).
  rewrite Hb in Hls.
  pose proof (forallb_seqZ _ _ _ bottom spacings_checked ltac:(lia)) as C.
  unfold spacing_checked in C. rewrite Hls in C.
  destruct (Z.eqb_spec (bottom mod 5) 0) as [E | N].
  - apply andb_true_iff in C as [C1 C2]. split; [lia | congruence].
  - apply Z.eqb_eq in C. split; [lia | auto].
Qed.

(** A frame 900 high: the font is 45 high, and 45 * 1.4 is below 63. *)
Lemma line_spacing_cut_witness :
  (7 * 45 / 5 - 1 <= 62 <= 7 * 45 / 5)
  /\ (45 mod 5 <> 0 -> 62 = 7 * 45 / 5).
Proof.
  apply (line_spacing_cut plain_env (lit "Hello world") 1280 900 24 60
           tall_layout 45).
  - vm_compute. reflexivity.
  - reflexivity.
  - lia.
Defined.

(** ** More on the request *)

Lemma lstrip_by_all p s : Forall (fun c => p c = true) s -> lstrip_by p s = [].
Proof. induction 1 as [|c s Hc _ IH]; simpl; [reflexivity | rewrite Hc; exact IH]. Qed.

Lemma lstrip_by_nil p s : lstrip_by p s = [] -> Forall (fun c => p c = true) s.
Proof.
  induction s as [|c s IH]; simpl; [constructor |].
  destruct (p c) eqn:Hc; [| discriminate]. intros H. constructor; auto.
Qed.

Lemma rstrip_by_nil p s : rstrip_by p s = [] -> Forall (fun c => p c = true) s.
Proof.
  unfold rstrip_by. intros H.
  assert (E : lstrip_by p (rev s) = []).
  { rewrite <- (rev_involutive (lstrip_by p (rev s))), H. reflexivity. }
  apply lstrip_by_nil in E. apply Forall_rev in E.
  rewrite rev_involutive in E. exact E.
Qed.

(** [not text.strip()]: the text is blank. *)
Lemma strip_blank s :
  truthy (strip s) = false <-> Forall (fun c => isspace c = true) s.
Proof.
  split.
  - intros H. assert (E : strip s = []) by (destruct (strip s); [reflexivity | discriminate]).
    unfold strip in E. apply rstrip_by_nil in E.
    assert (El : lstrip_by isspace s = []).
    { clear -E. induction s as [|c s IH]; simpl in *; [reflexivity |].
      destruct (isspace c) eqn:Hc; [exact (IH E) |].
      inversion E; congruence. }
    apply lstrip_by_nil. exact El.
  - intros H. unfold strip. rewrite (lstrip_by_all _ _ H). reflexivity.
Qed.

(** X14: a request whose text is empty or whitespace only is answered
    400 with the message [Teks tidak boleh kosong], whatever the libraries,
    the colours and the writer are, and the files are untouched. *)
Theorem blank_text_rejected (env : Env) (req : GenerateRequest) (fs : files) :
  Forall (fun c => isspace c = true) (req_text req) ->
  generate_video env req fs
  = (Raise (HTTPException 400 (lit "Teks tidak boleh kosong")), fs).
Proof.
  intros H. apply strip_blank in H. unfold generate_video. rewrite H. reflexivity.
Qed.

Lemma blank_text_rejected_witness :
  generate_video plain_env (request "  ") ∅
  = (Raise (HTTPException 400 (lit "Teks tidak boleh kosong")), ∅).
Proof.
  apply (blank_text_rejected plain_env (request "  ") ∅).
  repeat constructor.
Defined.

(** Exceptions of the arithmetic *)

Lemma float_of_int_raises n e : float_of_int n = Raise e -> is_http e = false.
Proof.
  unfold float_of_int. destruct (is_infinity _); [| discriminate].
  intros [= <-]. reflexivity.
Qed.

Lemma int_of_float_raises x e : int_of_float x = Raise e -> is_http e = false.
Proof.
  unfold int_of_float. destruct (Prim2SF x); try discriminate;
    intros [= <-]; reflexivity.
Qed.

Lemma truediv_raises a b e : truediv a b = Raise e -> is_http e = false.
Proof.
  unfold truediv. destruct b, a; try discriminate;
    try (intros [= <-]; reflexivity);
    (destruct (is_infinity _); [intros [= <-]; reflexivity | discriminate]).
Qed.

Lemma int_scaled_raises n c e :
  (x <- int_mul_float n c;; int_of_float x) = Raise e -> is_http e = false.
Proof.
  unfold int_mul_float. destruct (float_of_int n) eqn:E; cbn [bind].
  - apply int_of_float_raises.
  - intros [= <-]. eapply float_of_int_raises. exact E.
Qed.

Section ErrorProofs.

Variable env : Env.

Lemma image_new_check_raises size e :
  image_new_check env size = Raise e -> is_http e = false.
Proof.
  unfold image_new_check, as_c_int. destruct size as [width height].
  destruct (_ || _); [intros [= <-]; reflexivity |].
  destruct (LONG_MAX <? width); [intros [= <-]; reflexivity |].
  destruct (INT_MAX <? width); [intros [= <-]; reflexivity |].
  destruct (LONG_MAX <? height); [intros [= <-]; reflexivity |].
  destruct (INT_MAX <? height); [intros [= <-]; reflexivity |].
  cbn [bind]. destruct (image_new_error env (width, height)) as [[ty msg] |];
    [intros [= <-]; reflexivity | discriminate].
Qed.

Lemma prepare_raises text width height fps duration e :
  prepare env text width height fps duration = Raise e -> is_http e = false.
Proof.
  unfold prepare. intros H.
  destruct (image_new_check env (width, height)) eqn:E0;
    cbn [bind] in H;
    [| injection H as <-; eapply image_new_check_raises; exact E0].
  destruct (x <- int_mul_float width 0.08;; int_of_float x) eqn:E1;
    cbn [bind] in H; [| injection H as <-; eapply int_scaled_raises; exact E1].
  destruct (textbbox env (load_font env height) (lit "Ay")) as [[[x0 y0] x1] bottom].
  destruct (x <- int_mul_float bottom 1.4;; int_of_float x) eqn:E2;
    cbn [bind] in H; [discriminate H |].
  injection H as <-. eapply int_scaled_raises. exact E2.
Qed.

Lemma frame_at_raises width height bg_color text_color L k e :
  frame_at env width height bg_color text_color L k = Raise e -> is_http e = false.
Proof.
  unfold frame_at, scroll_position, int_mul_float, int_add_float. intros H.
  destruct (truediv k _) eqn:E1; cbn [bind] in H;
    [| injection H as <-; eapply truediv_raises; exact E1].
  destruct (float_of_int (end_y L - start_y L)) eqn:E2; cbn [bind] in H;
    [| injection H as <-; eapply float_of_int_raises; exact E2].
  destruct (float_of_int (start_y L)) eqn:E3; cbn [bind] in H;
    [| injection H as <-; eapply float_of_int_raises; exact E3].
  destruct (int_of_float _) eqn:E4; cbn [bind] in H;
    [| injection H as <-; eapply int_of_float_raises; exact E4].
  unfold Image_new in H.
  destruct (image_new_check env (width, height)) eqn:E5; cbn [bind] in H;
    [discriminate H |].
  injection H as <-. eapply image_new_check_raises. exact E5.
Qed.

Lemma frames_loop_raises width height bg_color text_color L : forall idxs steps e,
  frames_loop env width height bg_color text_color L idxs = (steps, Some e) ->
  is_http e = false.
Proof.
  induction idxs as [|k idxs IH]; intros steps e H; simpl in H; [discriminate |].
  destruct (frame_at env width height bg_color text_color L k) eqn:Ek.
  - destruct (frames_loop env width height bg_color text_color L idxs) as [ss stop'].
    injection H as _ ->. eapply IH. reflexivity.
  - injection H as _ <-. eapply frame_at_raises. exact Ek.
Qed.

(** What ends the generator early: a library that is missing, or an
    exception of the arithmetic. *)
Lemma generator_stops text width height fps duration bg_color text_color steps e :
  generate_scrolling_text_frames env text width height fps duration
    bg_color text_color = (steps, Some e) ->
  (exists m, In m required_modules /\ installed env m = false
             /\ e = dependency_missing m)
  \/ is_http e = false.
Proof.
  unfold generate_scrolling_text_frames.
  rewrite (import_leaf env "numpy" eq_refl), (import_leaf env "PIL" eq_refl).
  intros H.
  destruct (installed env (lit "numpy")) eqn:Hn; cbn [bind except_ModuleNotFoundError] in H.
  - destruct (installed env (lit "PIL")) eqn:Hp; cbn [except_ModuleNotFoundError] in H.
    + right. destruct (prepare env text width height fps duration) eqn:HL.
      * eapply frames_loop_raises. exact H.
      * injection H as _ <-. eapply prepare_raises. exact HL.
    + left. injection H as _ <-. exists (lit "PIL").
      split; [right; right; left; reflexivity | auto].
  - left. injection H as _ <-. exists (lit "numpy").
    split; [right; left; reflexivity | auto].
Qed.

Lemma append_frames_cases out_path frames stop : forall k fs r fs',
  append_frames env out_path k frames stop fs = (r, fs') ->
  (fs' = fs \/ fs' = {[out_path]} ∪ fs)
  /\ (forall e, r = Raise e ->
        stop = Some e \/ exists j, append_data_error env j = Some e).
Proof.
  induction frames as [|f frames IH]; intros k fs r fs' H; simpl in H.
  - injection H as <- <-. split; [left; reflexivity |].
    intros e He. destruct stop; [left; congruence | discriminate].
  - destruct (append_data_error env k) as [e0 |] eqn:Ek.
    + injection H as <- <-. split; [left; reflexivity |].
      intros e [= <-]. right. exists k. exact Ek.
    + apply IH in H as [Hfs Hr]. split; [| exact Hr].
      right. destruct Hfs as [-> | ->]; [reflexivity | set_solver].
Qed.

(** The writer takes all the frames when it raises on none of them. *)
Lemma append_frames_upto out_path frames : forall k fs,
  (forall j, (k <= j < k + length frames)%nat ->
     append_data_error env j = None) ->
  append_frames env out_path k frames None fs
  = (Ok tt, match frames with [] => fs | _ => {[out_path]} ∪ fs end).
Proof.
  induction frames as [|f frames IH]; intros k fs Hall; simpl; [reflexivity |].
  rewrite (Hall k) by (simpl; lia).
  rewrite IH by (intros j Hj; apply Hall; simpl; lia).
  f_equal. destruct frames; [reflexivity | set_solver].
Qed.

(** The first frame on which the writer raises ends the loop. *)
Lemma append_frames_fails out_path frames stop : forall k fs j e,
  (k <= j < k + length frames)%nat -> append_data_error env j = Some e ->
  (forall i, (k <= i < j)%nat -> append_data_error env i = None) ->
  (append_frames env out_path k frames stop fs).1 = Raise e.
Proof.
  induction frames as [|f frames IH]; intros k fs j e Hj He Hbefore;
    simpl in *; [lia |].
  destruct (Nat.eq_dec k j) as [-> | Hne].
  - rewrite He. reflexivity.
  - rewrite (Hbefore k) by lia.
    apply (IH (S k) _ j e); [lia | assumption |].
    intros i Hi. apply Hbefore. lia.
Qed.

(** The render adds [out_path] to the files, or nothing; and what it
    raises is the message of a missing library, or no [HTTPException]. *)
Lemma render_cases text width height fps duration background text_color
  out_path fs r fs' :
  writer_plain env ->
  render_text_video env text width height fps duration background text_color
    out_path fs = (r, fs') ->
  (fs' = fs \/ fs' = {[out_path]} ∪ fs)
  /\ (forall e, r = Raise e ->
        (exists m, In m required_modules /\ installed env m = false
                   /\ e = dependency_missing m)
        \/ is_http e = false).
Proof.
  intros (Hopen & Happend & Hclose). unfold render_text_video. intros H.
  destruct (import_imageio_cases env) as [(_ & _ & Ei) | (m & Hm & Hi & Ei)];
    rewrite Ei in H.
  2:{ injection H as <- <-. split; [left; reflexivity |].
      intros e [= <-]. left. exists m. auto. }
  destruct (hex_to_rgb (todecimal env) background) as [bg |] eqn:Ebg.
  2:{ injection H as <- <-. split; [left; reflexivity |].
      intros e' [= <-]. right.
      destruct (hex_to_rgb_raises _ _ _ Ebg) as (l & ->). reflexivity. }
  destruct (hex_to_rgb (todecimal env) text_color) as [fg |] eqn:Efg.
  2:{ injection H as <- <-. split; [left; reflexivity |].
      intros e' [= <-]. right.
      destruct (hex_to_rgb_raises _ _ _ Efg) as (l & ->). reflexivity. }
  destruct (get_writer_error env out_path) as [e0 |] eqn:Ew.
  { injection H as <- <-. split; [left; reflexivity |].
    intros e' [= <-]. right. eapply Hopen. exact Ew. }
  destruct (generate_scrolling_text_frames env text width height fps duration bg fg)
    as [frames stop] eqn:Egen.
  destruct (append_frames env out_path 0 frames stop _) as [r0 fs0] eqn:Eapp.
  apply append_frames_cases in Eapp as [Hfs Hr].
  assert (Hfs' : fs0 = fs \/ fs0 = {[out_path]} ∪ fs).
  { destruct (writer_creates_on_open env); [| exact Hfs].
    right. destruct Hfs as [-> | ->]; [reflexivity | set_solver]. }
  destruct (close_error env) as [ec |] eqn:Ec.
  - injection H as <- <-. split; [exact Hfs' |].
    intros e' [= <-]. right. apply Hclose. reflexivity.
  - injection H as <- <-. split; [exact Hfs' |].
    intros e' He'. destruct (Hr e' He') as [-> | (j & Hj)].
    + eapply generator_stops. exact Egen.
    + right. eapply Happend. exact Hj.
Qed.

(** The render adds [out_path] to the files, or nothing. *)
Lemma render_files text width height fps duration background text_color
  out_path fs r fs' :
  render_text_video env text width height fps duration background text_color
    out_path fs = (r, fs') ->
  fs' = fs \/ fs' = {[out_path]} ∪ fs.
Proof.
  unfold render_text_video. intros H.
  destruct (except_ModuleNotFoundError _); [| injection H as _ <-; auto].
  destruct (hex_to_rgb (todecimal env) background) as [bg |];
    [| injection H as _ <-; auto].
  destruct (hex_to_rgb (todecimal env) text_color) as [fg |];
    [| injection H as _ <-; auto].
  destruct (get_writer_error env out_path); [injection H as _ <-; auto |].
  destruct (generate_scrolling_text_frames env text width height fps duration bg fg)
    as [frames stop].
  destruct (append_frames env out_path 0 frames stop _) as [r0 fs0] eqn:Eapp.
  apply append_frames_cases in Eapp as [Hfs _].
  assert (fs' = fs0) as -> by (destruct (close_error env); congruence).
  destruct (writer_creates_on_open env); [| exact Hfs].
  right. destruct Hfs as [-> | ->]; [reflexivity | set_solver].
Qed.

(** With its libraries, its colours and its writer, the render hands the
    writer the frames of the layout, [total_frames] of them, and closes
    it. *)
Lemma render_frames text width height fps duration background text_color
  out_path fs L bg fg :
  (forall m, In m required_modules -> installed env m = true) ->
  hex_to_rgb (todecimal env) background = Ok bg ->
  hex_to_rgb (todecimal env) text_color = Ok fg ->
  get_writer_error env out_path = None ->
  prepare env text width height fps duration = Ok L ->
  Z.abs height < 2 ^ 53 -> Z.abs (end_y L - start_y L) < 2 ^ 53 ->
  exists steps,
    length steps = Z.to_nat (total_frames L)
    /\ render_text_video env text width height fps duration background
         text_color out_path fs
       = (let '(r, fs1) :=
            append_frames env out_path 0 steps None
              (if writer_creates_on_open env then {[out_path]} ∪ fs else fs) in
          match close_error env with
          | Some e => (Raise e, fs1)
          | None => (r, fs1)
          end).
Proof.
  intros Hinst Hbg Hfg Hopen HL Hh Hd. unfold render_text_video.
  rewrite import_imageio.
  rewrite (Hinst (lit "imageio")), (Hinst (lit "numpy")) by (simpl; auto).
  cbn [except_ModuleNotFoundError]. rewrite Hbg, Hfg, Hopen.
  rewrite (generator_is_loop _ _ _ _ _ _ _ _ L)
    by (assumption || apply Hinst; simpl; auto).
  destruct (prepare_geometry _ _ _ _ _ _ _ HL) as (_ & Hstart & _ & _).
  rewrite <- Hstart in Hh.
  destruct (frames_loop_total env width height bg fg L
              (range (total_frames L)) (prepare_image _ _ _ _ _ _ _ HL)
              Hh Hd (range_bounds _)) as (steps & Hloop).
  pose proof (frames_loop_length _ _ _ _ _ _ _ _ Hloop) as Hlen.
  unfold range in Hlen. rewrite length_seqZ in Hlen.
  rewrite Hloop. exists steps. split; [exact Hlen | reflexivity].
Qed.

Section Served.

Variables (req : GenerateRequest) (fs : files) (L : layout).

Hypothesis Htext : truthy (strip (req_text req)) = true.
Hypothesis Hinst : forall m, In m required_modules -> installed env m = true.
Hypothesis Hbg : exists c, hex_to_rgb (todecimal env) (req_background req) = Ok c.
Hypothesis Hfg : exists c, hex_to_rgb (todecimal env) (req_text_color req) = Ok c.
Hypothesis Hopen : get_writer_error env (out_path_of env) = None.
Hypothesis Hclose : close_error env = None.
Hypothesis HL :
  prepare env (strip (req_text req)) (req_width req) (req_height req)
    (req_fps req) (Z.max 60 (req_duration req)) = Ok L.
Hypothesis Hh : Z.abs (req_height req) < 2 ^ 53.
Hypothesis Hd : Z.abs (end_y L - start_y L) < 2 ^ 53.

(** The request is served when the writer takes the [total_frames] frames
    of the layout. *)
Lemma generate_video_run :
  (forall j, (j < Z.to_nat (total_frames L))%nat ->
     append_data_error env j = None) ->
  generate_video env req fs
  = (Ok {| res_status := lit "ok"; res_filename := filename_of env;
           res_url := lit "/videos/" ++ filename_of env;
           res_duration := Z.max 60 (req_duration req) |},
     if writer_creates_on_open env || (0 <? total_frames L)
     then {[out_path_of env]} ∪ fs else fs).
Proof.
  intros Happend. destruct Hbg as (bg & Ebg), Hfg as (fg & Efg).
  unfold generate_video. rewrite Htext. cbn [negb].
  fold (out_path_of env). fold (filename_of env).
  destruct (render_frames _ _ _ _ _ _ _ _ fs L bg fg Hinst Ebg Efg Hopen HL Hh Hd)
    as (steps & Hlen & ->).
  rewrite append_frames_upto, Hclose by (intros j Hj; apply Happend; lia).
  f_equal.
  destruct (Z.ltb_spec 0 (total_frames L)) as [Hpos | Hpos].
  - rewrite orb_true_r. destruct steps; [simpl in Hlen; lia |].
    destruct (writer_creates_on_open env); set_solver.
  - rewrite orb_false_r. destruct steps; [reflexivity |]. simpl in Hlen. lia.
Qed.

(** The request fails when the writer raises on one of the [total_frames]
    frames of the layout. *)
Lemma generate_video_append_fails (j : nat) (e : exn) :
  (j < Z.to_nat (total_frames L))%nat ->
  append_data_error env j = Some e ->
  (forall i, (i < j)%nat -> append_data_error env i = None) ->
  is_http e = false ->
  (generate_video env req fs).1
  = Raise (HTTPException 500
             (lit "Gagal membuat video: " ++ take 200 (str_of_exn env e))).
Proof.
  intros Hj He Hbefore Hne. destruct Hbg as (bg & Ebg), Hfg as (fg & Efg).
  unfold generate_video. rewrite Htext. cbn [negb].
  fold (out_path_of env).
  destruct (render_frames _ _ _ _ _ _ _ _ fs L bg fg Hinst Ebg Efg Hopen HL Hh Hd)
    as (steps & Hlen & ->).
  pose proof (append_frames_fails (out_path_of env) steps None 0
                (if writer_creates_on_open env
                 then {[out_path_of env]} ∪ fs else fs) j e) as Hfail.
  destruct (append_frames _ _ _ _ _ _) as [r fs1]. simpl in Hfail.
  rewrite Hfail by (lia || assumption || (intros i Hi; apply Hbefore; lia)).
  rewrite Hclose. destruct e; [discriminate Hne | reflexivity ..].
Qed.

End Served.

Lemma remove_partial_gone out_path fs :
  remove_error env out_path = None -> out_path ∉ remove_partial env out_path fs.
Proof.
  intros Hr. unfold remove_partial. rewrite Hr.
  destruct (decide (out_path ∈ fs)); set_solver.
Qed.

Lemma remove_partial_others out_path fs :
  remove_partial env out_path fs ∖ {[out_path]} = fs ∖ {[out_path]}.
Proof.
  unfold remove_partial. destruct (decide (out_path ∈ fs)); [| reflexivity].
  destruct (remove_error env out_path); [reflexivity | set_solver].
Qed.

End ErrorProofs.

Lemma dependency_missing_length m :
  In m required_modules -> (length (match dependency_missing m with
                                    | HTTPException _ d => d | _ => [] end) <= 221)%nat.
Proof.
  intros [<- | [<- | [<- | []]]]; vm_compute; lia.
Qed.

(** X15: the errors of [generate_video], when the writer raises no
    [HTTPException] of its own. A request that fails ends in one of three
    ways: 400 for a blank text, with the files untouched; 500 with the
    message that names a library of the render that is missing; or 500
    with [Gagal membuat video: ] and the first 200 characters of the
    exception, after which [out_path] does not exist if [os.remove] does
    not raise. In all cases it is an [HTTPException] with status 400 or
    500 and a message of 221 characters at most. *)
Theorem generate_video_errors (env : Env) (req : GenerateRequest)
  (fs fs' : files) (e : exn) :
  writer_plain env ->
  generate_video env req fs = (Raise e, fs') ->
  ((e = HTTPException 400 (lit "Teks tidak boleh kosong")
    /\ Forall (fun c => isspace c = true) (req_text req) /\ fs' = fs)
   \/ (exists m, In m required_modules /\ installed env m = false
                 /\ e = dependency_missing m)
   \/ (exists cause,
         is_http cause = false
         /\ e = HTTPException 500
                  (lit "Gagal membuat video: " ++ take 200 (str_of_exn env cause))
         /\ (remove_error env (out_path_of env) = None ->
             out_path_of env ∉ fs')))
  /\ exists status detail,
       e = HTTPException status detail
       /\ (status = 400 \/ status = 500)
       /\ (length detail <= 221)%nat.
Proof.
  intros Hw H. unfold generate_video in H.
  destruct (truthy (strip (req_text req))) eqn:Ht; cbn [negb] in H.
  2:{ injection H as <- <-. split.
      - left. split; [reflexivity |]. split; [apply strip_blank; exact Ht | reflexivity].
      - eexists _, _. split; [reflexivity |]. split; [left; reflexivity |].
        vm_compute. lia. }
  fold (out_path_of env) in H.
  destruct (render_text_video _ _ _ _ _ _ _ _ _ _) as [r fs0] eqn:Er.
  apply (render_cases env) in Er as [_ Hr]; [| exact Hw].
  destruct r as [[] | e0]; [discriminate H |].
  specialize (Hr e0 eq_refl).
  destruct Hr as [(m & Hm & Hi & ->) | Hnh].
  - cbn [dependency_missing] in H. injection H as <- <-. split.
    + right. left. exists m. auto.
    + eexists _, _. split; [reflexivity |]. split; [right; reflexivity |].
      apply (dependency_missing_length m Hm).
  - assert (E : (@Raise response e, fs')
                = (Raise (HTTPException 500
                            (lit "Gagal membuat video: "
                             ++ take 200 (str_of_exn env e0))),
                   remove_partial env (out_path_of env) fs0)).
    { rewrite <- H. destruct e0; [discriminate Hnh | reflexivity ..]. }
    assert (He : e = HTTPException 500
                       (lit "Gagal membuat video: "
                        ++ take 200 (str_of_exn env e0))) by congruence.
    assert (Hf : fs' = remove_partial env (out_path_of env) fs0) by congruence.
    clear E. subst e fs'. split.
    + right. right. exists e0. split; [exact Hnh |]. split; [reflexivity |].
      apply remove_partial_gone.
    + eexists _, _. split; [reflexivity |]. split; [right; reflexivity |].
      rewrite length_app, length_take.
      change (length (lit "Gagal membuat video: ")) with 21%nat. lia.
Qed.

Lemma generate_video_errors_witness :
  exists e fs',
  generate_video plain_env
    {| req_text := lit "Hello world"; req_duration := 60;
       req_width := 1280; req_height := 720; req_fps := 24;
       req_background := lit "ggg"; req_text_color := lit "#e2e8f0" |} ∅
  = (Raise e, fs') /\
  ((e = HTTPException 400 (lit "Teks tidak boleh kosong")
    /\ Forall (fun c => isspace c = true) (lit "Hello world") /\ fs' = ∅)
   \/ (exists m, In m required_modules /\ installed plain_env m = false
                 /\ e = dependency_missing m)
   \/ (exists cause,
         is_http cause = false
         /\ e = HTTPException 500
                  (lit "Gagal membuat video: " ++ take 200 (str_of_exn plain_env cause))
         /\ (remove_error plain_env (out_path_of plain_env) = None ->
             out_path_of plain_env ∉ fs')))
  /\ exists status detail,
       e = HTTPException status detail
       /\ (status = 400 \/ status = 500)
       /\ (length detail <= 221)%nat.
Proof.
  eexists _, _. split; [vm_compute; reflexivity |].
  apply (generate_video_errors plain_env
           {| req_text := lit "Hello world"; req_duration := 60;
              req_width := 1280; req_height := 720; req_fps := 24;
              req_background := lit "ggg"; req_text_color := lit "#e2e8f0" |} ∅).
  - repeat split; intros; discriminate.
  - vm_compute. reflexivity.
Defined.

(** X16: [generate_video] touches no file but [out_path]: whatever the
    outcome, the files other than [out_path] are after the call what they
    were before. *)
Theorem generate_video_other_files (env : Env) (req : GenerateRequest) (fs : files) :
  (generate_video env req fs).2 ∖ {[out_path_of env]} = fs ∖ {[out_path_of env]}.
Proof.
  unfold generate_video.
  destruct (truthy (strip (req_text req))); cbn [negb]; [| reflexivity].
  fold (out_path_of env).
  destruct (render_text_video _ _ _ _ _ _ _ _ _ _) as [r fs0] eqn:Er.
  assert (Hfs : fs0 ∖ {[out_path_of env]} = fs ∖ {[out_path_of env]})
    by (apply render_files in Er as [-> | ->]; set_solver).
  destruct r as [[] | e0]; [exact Hfs |].
  destruct e0; [exact Hfs | | |]; cbn [snd];
    rewrite remove_partial_others; exact Hfs.
Qed.

(** X17: the request succeeds when nothing is in its way: a text that
    is not blank, the three libraries, two colours that parse, a writer
    that raises nowhere, and a layout whose height and scroll span are
    below 2^53. The response has the status [ok], the file name
    [video_<time>.mp4], the URL [/videos/] with that name and the duration
    raised to 60; and [out_path] exists afterwards when the writer creates
    it at once or there is a frame to write, that is, when [fps] is
    positive. *)
Theorem generate_video_succeeds (env : Env) (req : GenerateRequest)
  (fs : files) (L : layout) :
  truthy (strip (req_text req)) = true ->
  (forall m, In m required_modules -> installed env m = true) ->
  (exists c, hex_to_rgb (todecimal env) (req_background req) = Ok c) ->
  (exists c, hex_to_rgb (todecimal env) (req_text_color req) = Ok c) ->
  get_writer_error env (out_path_of env) = None ->
  (forall k, append_data_error env k = None) ->
  close_error env = None ->
  prepare env (strip (req_text req)) (req_width req) (req_height req)
    (req_fps req) (Z.max 60 (req_duration req)) = Ok L ->
  Z.abs (req_height req) < 2 ^ 53 -> Z.abs (end_y L - start_y L) < 2 ^ 53 ->
  generate_video env req fs
  = (Ok {| res_status := lit "ok"; res_filename := filename_of env;
           res_url := lit "/videos/" ++ filename_of env;
           res_duration := Z.max 60 (req_duration req) |},
     if writer_creates_on_open env || (0 <? req_fps req)
     then {[out_path_of env]} ∪ fs else fs).
Proof.
  intros Ht Hinst Hbg Hfg Hopen Happend Hclose HL Hh Hd.
  rewrite (generate_video_run env req fs L) by auto.
  destruct (prepare_geometry _ _ _ _ _ _ _ HL) as (_ & _ & _ & Htf).
  do 3 f_equal. rewrite Htf.
  destruct (Z.ltb_spec 0 (req_fps req)), (Z.ltb_spec 0 (Z.max 60 (req_duration req) * req_fps req));
    try reflexivity; nia.
Qed.

Lemma generate_video_succeeds_witness :
  generate_video plain_env (request "Hello world") ∅
  = (Ok {| res_status := lit "ok"; res_filename := filename_of plain_env;
           res_url := lit "/videos/" ++ filename_of plain_env;
           res_duration := Z.max 60 60 |},
     if writer_creates_on_open plain_env || (0 <? 24)
     then {[out_path_of plain_env]} ∪ ∅ else ∅).
Proof.
  apply (generate_video_succeeds plain_env (request "Hello world") ∅ hello_layout).
  - reflexivity.
  - intros m _. reflexivity.
  - eexists. vm_compute. reflexivity.
  - eexists. vm_compute. reflexivity.
  - reflexivity.
  - intros k. reflexivity.
  - reflexivity.
  - vm_compute. reflexivity.
  - simpl. lia.
  - simpl. lia.
Defined.

(** C7, as the code has it. A request with a duration below 60 does not
    reach the render: the route answers 422 for the field [duration] and
    leaves the files as they are. The handler itself, when it is called
    with such a request all the same, raises the duration to 60 before
    anything is computed from it: it serves the request as it serves the
    same request with the duration 60, a response echoes 60, and the
    render is the one of 60 seconds. Where nothing else is in the way of
    the render, the layout has [60 * fps] frames and the writer is given
    exactly these: the request succeeds when the writer takes the frames
    before [60 * fps], whatever it would do with later ones, and it fails
    with status 500 when the writer raises on one of them. *)
Theorem duration_clamped (env : Env) (req : GenerateRequest) (fs : files) :
  req_duration req < 60 ->
  (exists fields,
     post_api_generate env req fs = (Unprocessable fields, fs)
     /\ In (lit "duration") fields)
  /\ generate_video env req fs = generate_video env (with_duration 60 req) fs
  /\ (forall r fs', generate_video env req fs = (Ok r, fs') ->
        res_duration r = 60)
  /\ (forall L,
        truthy (strip (req_text req)) = true ->
        (forall m, In m required_modules -> installed env m = true) ->
        (exists c, hex_to_rgb (todecimal env) (req_background req) = Ok c) ->
        (exists c, hex_to_rgb (todecimal env) (req_text_color req) = Ok c) ->
        get_writer_error env (out_path_of env) = None ->
        close_error env = None ->
        prepare env (strip (req_text req)) (req_width req) (req_height req)
          (req_fps req) 60 = Ok L ->
        Z.abs (req_height req) < 2 ^ 53 ->
        Z.abs (end_y L - start_y L) < 2 ^ 53 ->
        total_frames L = 60 * req_fps req
        /\ ((forall j, (j < Z.to_nat (60 * req_fps req))%nat ->
               append_data_error env j = None) ->
            generate_video env req fs
            = (Ok {| res_status := lit "ok"; res_filename := filename_of env;
                     res_url := lit "/videos/" ++ filename_of env;
                     res_duration := 60 |},
               if writer_creates_on_open env || (0 <? req_fps req)
               then {[out_path_of env]} ∪ fs else fs))
        /\ (forall (j : nat) (e : exn),
              (j < Z.to_nat (60 * req_fps req))%nat ->
              append_data_error env j = Some e ->
              (forall i, (i < j)%nat -> append_data_error env i = None) ->
              is_http e = false ->
              (generate_video env req fs).1
              = Raise (HTTPException 500
                         (lit "Gagal membuat video: "
                          ++ take 200 (str_of_exn env e))))).
Proof.
  intros Hd.
  assert (Hmax : Z.max 60 (req_duration req) = 60) by lia.
  split; [| split; [| split]].
  - unfold post_api_generate, invalid_fields.
    destruct (Z.leb_spec 60 (req_duration req)) as [Hle | _]; [lia |].
    cbn [andb].
    set (a := if (1 <=? length (req_text req))%nat then [] else [lit "text"]).
    set (b := (if (320 <=? req_width req) && (req_width req <=? 1920)
               then [] else [lit "width"]) ++ _).
    assert (Hin : In (lit "duration") (a ++ [lit "duration"] ++ b))
      by (apply in_or_app; right; left; reflexivity).
    destruct (a ++ [lit "duration"] ++ b) as [|f fields] eqn:E;
      [destruct Hin |].
    exists (f :: fields). split; [reflexivity | exact Hin].
  - unfold generate_video, with_duration. cbn [req_text req_duration
      req_width req_height req_fps req_background req_text_color].
    rewrite Hmax. reflexivity.
  - intros r fs'. unfold generate_video. rewrite Hmax.
    destruct (negb _); [discriminate |].
    destruct (render_text_video _ _ _ _ _ _ _ _ _ _) as [[[] | e] fs1].
    + intros [= <- _]. reflexivity.
    + destruct e; discriminate.
  - intros L Ht Hinst Hbg Hfg Hopen Hclose HL Hh Hspan.
    destruct (prepare_geometry _ _ _ _ _ _ _ HL) as (_ & _ & _ & Htf).
    rewrite <- Hmax in HL.
    split; [exact Htf | split].
    + intros Happend.
      rewrite (generate_video_run env req fs L) by (rewrite ?Htf; auto).
      rewrite Hmax, Htf. do 3 f_equal.
      destruct (Z.ltb_spec 0 (req_fps req)), (Z.ltb_spec 0 (60 * req_fps req));
        try reflexivity; lia.
    + intros j e Hj He Hbefore Hne.
      apply (generate_video_append_fails env req fs L Ht Hinst Hbg Hfg Hopen
               Hclose HL Hh Hspan j e); try assumption.
      rewrite Htf. exact Hj.
Qed.

Lemma duration_clamped_witness :
  post_api_generate plain_env (with_duration 10 (request "Hello world")) ∅
  = (Unprocessable [lit "duration"], ∅)
  /\ generate_video plain_env (with_duration 10 (request "Hello world")) ∅
     = generate_video plain_env (request "Hello world") ∅
  /\ total_frames hello_layout = 60 * 24
  /\ generate_video plain_env (with_duration 10 (request "Hello world")) ∅
     = (Ok {| res_status := lit "ok"; res_filename := filename_of plain_env;
              res_url := lit "/videos/" ++ filename_of plain_env;
              res_duration := 60 |},
        {[out_path_of plain_env]} ∪ ∅).
Proof.
  destruct (duration_clamped plain_env
              (with_duration 10 (request "Hello world")) ∅)
    as (_ & A & _ & B); [simpl; lia |].
  split; [reflexivity |]. split; [exact A |].
  destruct (B hello_layout) as (C & D & _).
  - reflexivity.
  - intros m _. reflexivity.
  - eexists. vm_compute. reflexivity.
  - eexists. vm_compute. reflexivity.
  - reflexivity.
  - reflexivity.
  - vm_compute. reflexivity.
  - simpl. lia.
  - simpl. lia.
  - split; [exact C |]. apply D. intros j _. reflexivity.
Defined.

(** C7 as stated fails: a request with the duration 10 is not rendered
    with the duration 60. The route answers 422 and no file is written,
    where the same request with the duration 60 is served and leaves its
    video. *)
Lemma short_duration_is_rejected :
  post_api_generate plain_env (with_duration 10 (request "Hello world")) ∅
  = (Unprocessable [lit "duration"], ∅)
  /\ post_api_generate plain_env (request "Hello world") ∅
     = (Handled (Ok {| res_status := lit "ok";
                       res_filename := filename_of plain_env;
                       res_url := lit "/videos/" ++ filename_of plain_env;
                       res_duration := 60 |}),
        {[out_path_of plain_env]}).
Proof. split; vm_compute; reflexivity. Qed.

(** X18: the metadata block changes nothing of the request: with the
    database or without, and whatever [create_document] does or raises,
    the response and the files are those of [generate_video]; a request
    that fails stores no document; and without the module [database] (the
    stub of [main.py] is bound then) no document is stored at all. *)
Theorem metadata_never_fails (env : Env) (db : option Database)
  (created_at : str) (req : GenerateRequest) (fs : files) (docs : documents) :
  (generate_video_db env db created_at req fs docs).1
  = generate_video env req fs
  /\ (forall e, (generate_video_db env db created_at req fs docs).1.1 = Raise e ->
        (generate_video_db env db created_at req fs docs).2 = docs)
  /\ (db = None -> (generate_video_db env db created_at req fs docs).2 = docs).
Proof.
  unfold generate_video_db, generate_video.
  destruct (truthy (strip (req_text req))); cbn [negb];
    [| split; [reflexivity | split; reflexivity]].
  destruct (render_text_video _ _ _ _ _ _ _ _ _ _) as [[[] | e0] fs0].
  - split; [reflexivity |]. split; [discriminate |]. intros ->. reflexivity.
  - destruct e0; (split; [reflexivity | split; reflexivity]).
Qed.

Lemma metadata_never_fails_witness :
  (generate_video_db plain_env (Some failing_db) (lit "2024-01-01T12:00:00")
     (request "Hello world") ∅ []).1
  = generate_video plain_env (request "Hello world") ∅
  /\ (forall e,
        (generate_video_db plain_env (Some failing_db) (lit "2024-01-01T12:00:00")
           (request "Hello world") ∅ []).1.1 = Raise e ->
        (generate_video_db plain_env (Some failing_db) (lit "2024-01-01T12:00:00")
           (request "Hello world") ∅ []).2 = [])
  /\ (Some failing_db = None ->
      (generate_video_db plain_env (Some failing_db) (lit "2024-01-01T12:00:00")
         (request "Hello world") ∅ []).2 = []).
Proof.
  apply (metadata_never_fails plain_env (Some failing_db)
           (lit "2024-01-01T12:00:00") (request "Hello world") ∅ []).
Defined.
